(** * perfrunner / spring: key generators, document strings and the KV worker

    A shallow embedding of [spring/docgen.py] (key model, key generators,
    string documents) and of [spring/wgen.py] (the synchronous key-value
    worker), followed by the properties of the workload generator.

    Conventions of the embedding:
    - Python [int] is [Z]; [//] and [%] are [Z.div] and [Z.modulo] (both
      floor, sign of the divisor, as in Python); [int(x / y)] on integers is
      truncation, [Z.quot] (the rounding of the intermediate float for
      operands above 2^53 is not modelled).
    - Python [float] is [Float.t], IEEE 754 binary64 with rounding to
      nearest, ties to even: products, sums and quotients of floats, the
      conversion of an [int] in a mixed operation and [int(x)] are computed
      on the exact value and rounded once, as the hardware does.
    - A key number drawn by [numpy.random.random_integers] is a
      [numpy.int64]: the key records the type of its number, and the
      product that the [hex] formatter takes of such a number wraps around
      at 64 bits.
    - Code that mutates shared cells, draws random numbers or raises runs in
      the monad [M]: a state monad over [World] whose result is a value or a
      raised exception.
    - The pseudo-random generators ([random], [numpy.random]) are an oracle:
      an arbitrary sequence of raw integers, consumed in order.  Theorems
      quantify over every oracle, that is over every possible draw. *)

From Stdlib Require Import ZArith List String Ascii Bool Lia Permutation.
From Stdlib Require Import DecimalString HexadecimalString DecimalN DecimalPos.
From Stdlib Require Import HexadecimalN HexadecimalPos.
Import ListNotations.

Local Open Scope string_scope.
Local Open Scope Z_scope.

(** ** Python built-ins used by the source *)

Module Py.

(** Exceptions that the modelled code can raise or let through. *)
Inductive Exn : Type :=
| ValueError
| ZeroDivisionError
| TypeError
| KeyboardInterrupt
| ClientError (code : Z)
| OverflowError.

Definition Exn_is_KeyboardInterrupt (e : Exn) : bool :=
  match e with KeyboardInterrupt => true | _ => false end.

Fixpoint str_repeat (n : nat) (s : string) : string :=
  match n with
  | O => ""
  | S k => s ++ str_repeat k s
  end.

Fixpoint str_take (n : nat) (s : string) : string :=
  match n, s with
  | S k, String c r => String c (str_take k r)
  | _, _ => ""
  end.

Fixpoint str_drop (n : nat) (s : string) : string :=
  match n, s with
  | S k, String _ r => str_drop k r
  | _, _ => s
  end.

Fixpoint str_rev (s : string) : string :=
  match s with
  | "" => ""
  | String c r => str_rev r ++ String c ""
  end.

(** Index normalisation of a slice bound: negative bounds count from the
    end, and everything is clamped to [0, len]. *)
Definition slice_bound (len : nat) (i : Z) : nat :=
  if i <? 0 then Z.to_nat (Z.max 0 (Z.of_nat len + i))
  else Nat.min len (Z.to_nat i).

(** [s[a:b]] *)
Definition slice (s : string) (a b : Z) : string :=
  let len := String.length s in
  let lo := slice_bound len a in
  let hi := slice_bound len b in
  str_take (hi - lo) (str_drop lo s).

(** [s[:b]] *)
Definition slice_to (s : string) (b : Z) : string := slice s 0 b.

(** [n * s] for a string [s]: empty when [n <= 0]. *)
Definition str_mul (n : Z) (s : string) : string :=
  str_repeat (Z.to_nat n) s.

(** [str.zfill]-like left padding with the character 0 up to [width]. *)
Definition zero_pad (width : nat) (digits : string) : string :=
  str_repeat (width - String.length digits) "0" ++ digits.

Definition dec_digits (n : Z) : string :=
  DecimalString.NilZero.string_of_uint (N.to_uint (Z.to_N n)).

Definition hex_digits (n : Z) : string :=
  HexadecimalString.NilZero.string_of_uint (N.to_hex_uint (Z.to_N n)).

(** ['%0<width>d' % n]: the sign counts in the width. *)
Definition fmt_0d (width : nat) (n : Z) : string :=
  if n <? 0 then "-" ++ zero_pad (width - 1) (dec_digits (- n))
  else zero_pad width (dec_digits n).

(** ['%0<width>x' % n] *)
Definition fmt_0x (width : nat) (n : Z) : string :=
  if n <? 0 then "-" ++ zero_pad (width - 1) (hex_digits (- n))
  else zero_pad width (hex_digits n).

(** [int(s)] on a non-empty string of decimal digits (the fragment of
    Python's parser that key strings need). *)
Definition int_of_str (s : string) : option Z :=
  option_map (fun d => Z.of_N (N.of_uint d))
             (DecimalString.NilZero.uint_of_string s).

(** [str(n)] *)
Definition str_of_int (n : Z) : string :=
  if n <? 0 then "-" ++ dec_digits (- n) else dec_digits n.

(** [math.ceil(n / d)] for integers and [d > 0]. *)
Definition ceil_div (n d : Z) : Z := - ((- n) / d).

(** [range(start, stop, step)] for [step > 0], as the list it iterates. *)
Fixpoint range_from (fuel : nat) (start step : Z) : list Z :=
  match fuel with
  | O => []
  | S k => start :: range_from k (start + step) step
  end.

(** Number of elements of [range(start, stop, step)], [step > 0]. *)
Definition range_len (start stop step : Z) : nat :=
  Z.to_nat ((stop - start + step - 1) / step).

(** [None] stands for the [ValueError] of a zero step. *)
Definition range (start stop step : Z) : option (list Z) :=
  if step =? 0 then None
  else if 0 <? step then Some (range_from (range_len start stop step) start step)
  else Some (range_from (Z.to_nat ((start - stop - step - 1) / (- step))) start step).

(** ctypes cells behind [multiprocessing.Value]: storing wraps around. *)
Definition c_ulong (v : Z) : Z := v mod 2 ^ 64.
Definition c_uint (v : Z) : Z := v mod 2 ^ 32.

(** The type of an integer value at run time: a Python [int], or the
    [numpy.int64] that [numpy.random.random_integers] returns. *)
Inductive IntType : Type :=
| PyInt
| NpInt64.

(** The value of a [numpy.int64] operation: it wraps around at 64 bits. *)
Definition int64 (v : Z) : Z := (v + 2 ^ 63) mod 2 ^ 64 - 2 ^ 63.

End Py.

(** ** Python floats: IEEE 754 binary64 *)

Module Float.

(** A float is not-a-number, an infinity, or the finite value
    [(-1)^neg * m * 2^e] with [0 <= m].  The operations below return
    representable values; they depend on the value only, not on the pair
    [(m, e)] that stands for it. *)
Inductive t : Type :=
| nan
| inf (neg : bool)
| fin (neg : bool) (m : Z) (e : Z).

(** [x * 2^k] for [0 <= k], [x] otherwise. *)
Definition shl (x k : Z) : Z := x * 2 ^ Z.max 0 k.

(** [floor(log2(n / d))] for [0 < n] and [0 < d]. *)
Definition ilog2 (n d : Z) : Z :=
  let c := Z.log2 n - Z.log2 d in
  if shl d c <=? shl n (- c) then c else c - 1.

(** The float nearest to [(-1)^neg * (n / d) * 2^e] for [0 <= n] and
    [0 < d]: 53 significant bits, least exponent [-1074] (gradual
    underflow), ties to the even significand, an infinity from [2^1024]. *)
Definition round (neg : bool) (n d e : Z) : t :=
  if n =? 0 then fin neg 0 0
  else
    let mag := ilog2 n d + e in
    let fe := Z.max (mag - 52) (-1074) in
    let sh := e - fe in
    let num := shl n sh in
    let den := shl d (- sh) in
    let q := num / den in
    let r := num mod den in
    let q' := match 2 * r ?= den with
              | Lt => q
              | Eq => if Z.even q then q else q + 1
              | Gt => q + 1
              end in
    if 1024 <=? Z.log2 q' + fe then inf neg else fin neg q' fe.

(** The float nearest to the integer [n] (an infinity when there is none). *)
Definition of_int (n : Z) : t := round (n <? 0) (Z.abs n) 1 0.

Definition zero : t := fin false 0 0.

Definition one : t := fin false 1 0.

(** [0.05] and [100.0] *)
Definition five_hundredths : t := round false 5 100 0.

Definition hundred : t := fin false 100 0.

Definition is_zero (x : t) : bool :=
  match x with
  | fin _ m _ => m =? 0
  | _ => false
  end.

Definition mul (x y : t) : t :=
  match x, y with
  | nan, _ | _, nan => nan
  | inf a, inf b => inf (xorb a b)
  | inf a, fin b m _ | fin b m _, inf a =>
      if m =? 0 then nan else inf (xorb a b)
  | fin a m1 e1, fin b m2 e2 => round (xorb a b) (m1 * m2) 1 (e1 + e2)
  end.

(** IEEE division; Python raises before a division by zero. *)
Definition div (x y : t) : t :=
  match x, y with
  | nan, _ | _, nan => nan
  | inf _, inf _ => nan
  | inf a, fin b _ _ => inf (xorb a b)
  | fin a _ _, inf b => fin (xorb a b) 0 0
  | fin a m1 e1, fin b m2 e2 =>
      if m2 =? 0 then (if m1 =? 0 then nan else inf (xorb a b))
      else round (xorb a b) m1 m2 (e1 - e2)
  end.

Definition add (x y : t) : t :=
  match x, y with
  | nan, _ | _, nan => nan
  | inf a, inf b => if Bool.eqb a b then inf a else nan
  | inf a, fin _ _ _ | fin _ _ _, inf a => inf a
  | fin a m1 e1, fin b m2 e2 =>
      let e := Z.min e1 e2 in
      let s := (if a then - m1 else m1) * 2 ^ (e1 - e)
               + (if b then - m2 else m2) * 2 ^ (e2 - e) in
      if s =? 0 then fin (a && b) 0 0
      else round (s <? 0) (Z.abs s) 1 e
  end.

(** The exact comparison of a float with an integer, as Python compares
    a [float] with an [int]; [None] for not-a-number. *)
Definition compare_int (x : t) (n : Z) : option comparison :=
  match x with
  | nan => None
  | inf neg => Some (if neg then Lt else Gt)
  | fin neg m e =>
      let v := if neg then - m else m in
      Some (shl v e ?= shl n (- e))
  end.

(** [x > n] and [x <= n] for an integer [n]; both false for not-a-number. *)
Definition gt_int (x : t) (n : Z) : bool :=
  match compare_int x n with Some Gt => true | _ => false end.

Definition le_int (x : t) (n : Z) : bool :=
  match compare_int x n with Some Lt | Some Eq => true | _ => false end.

(** [n > x] for an integer [n]. *)
Definition int_gt (n : Z) (x : t) : bool :=
  match compare_int x n with Some Lt => true | _ => false end.

(** Truncation toward zero of a finite float. *)
Definition trunc (x : t) : option Z :=
  match x with
  | fin neg m e =>
      let k := shl m e / 2 ^ Z.max 0 (- e) in
      Some (if neg then - k else k)
  | _ => None
  end.

(** ['{:.2f}'.format(x)]: the exact value rounded to hundredths, ties to
    even. *)
Definition format_2f (x : t) : string :=
  match x with
  | nan => "nan"
  | inf neg => if neg then "-inf" else "inf"
  | fin neg m e =>
      let num := shl (m * 100) e in
      let den := 2 ^ Z.max 0 (- e) in
      let q := num / den in
      let r := num mod den in
      let h := match 2 * r ?= den with
               | Lt => q
               | Eq => if Z.even q then q else q + 1
               | Gt => q + 1
               end in
      (if neg then "-" else "")
      ++ Py.dec_digits (h / 100) ++ "." ++ Py.zero_pad 2 (Py.dec_digits (h mod 100))
  end.

End Float.

(** ** The world: shared cells, random oracle, client, logs *)

(** A critical section executed under the shared lock. *)
Inductive LockSection : Type :=
| ReserveCreates
| ReserveDeletes
| ReserveOps.

(** What one client call does: it returns a latency, returns [None], or
    raises. *)
Inductive Outcome : Type :=
| Latency (t : Z)
| NoLatency
| Fails (e : Py.Exn).

Record World : Type := mkWorld {
  draws : nat -> Z;                 (* the random oracle *)
  cursor : nat;                     (* number of raw draws consumed *)
  np_seed : option Z;               (* last seed given to numpy.random *)
  curr_items : Z;                   (* Value('L') *)
  deleted_items : Z;                (* Value('L') *)
  curr_ops : Z;                     (* Value('L') *)
  current_hot_load_start : Z;       (* Value('L') *)
  timer_elapse : Z;                 (* Value('I') *)
  lock_log : list LockSection;      (* sections run under the lock, in order *)
  client : nat -> Outcome;          (* behaviour of the i-th client call *)
  client_calls : nat;
  shutdown : nat -> bool;           (* is_set() at the i-th poll *)
  shutdown_polls : nat;
  reservoir : list (string * Z);    (* recorded latency samples *)
  dumps : list string;              (* files written by dump_stats *)
  log : list string                 (* logger.info lines *)
}.

Module W.
Definition set_cursor (n : nat) (w : World) : World :=
  mkWorld (draws w) n (np_seed w) (curr_items w) (deleted_items w) (curr_ops w)
          (current_hot_load_start w) (timer_elapse w) (lock_log w) (client w)
          (client_calls w) (shutdown w) (shutdown_polls w) (reservoir w)
          (dumps w) (log w).
Definition set_np_seed (s : option Z) (w : World) : World :=
  mkWorld (draws w) (cursor w) s (curr_items w) (deleted_items w) (curr_ops w)
          (current_hot_load_start w) (timer_elapse w) (lock_log w) (client w)
          (client_calls w) (shutdown w) (shutdown_polls w) (reservoir w)
          (dumps w) (log w).
Definition set_curr_items (v : Z) (w : World) : World :=
  mkWorld (draws w) (cursor w) (np_seed w) (Py.c_ulong v) (deleted_items w)
          (curr_ops w) (current_hot_load_start w) (timer_elapse w) (lock_log w)
          (client w) (client_calls w) (shutdown w) (shutdown_polls w)
          (reservoir w) (dumps w) (log w).
Definition set_deleted_items (v : Z) (w : World) : World :=
  mkWorld (draws w) (cursor w) (np_seed w) (curr_items w) (Py.c_ulong v)
          (curr_ops w) (current_hot_load_start w) (timer_elapse w) (lock_log w)
          (client w) (client_calls w) (shutdown w) (shutdown_polls w)
          (reservoir w) (dumps w) (log w).
Definition set_curr_ops (v : Z) (w : World) : World :=
  mkWorld (draws w) (cursor w) (np_seed w) (curr_items w) (deleted_items w)
          (Py.c_ulong v) (current_hot_load_start w) (timer_elapse w) (lock_log w)
          (client w) (client_calls w) (shutdown w) (shutdown_polls w)
          (reservoir w) (dumps w) (log w).
Definition set_current_hot_load_start (v : Z) (w : World) : World :=
  mkWorld (draws w) (cursor w) (np_seed w) (curr_items w) (deleted_items w)
          (curr_ops w) (Py.c_ulong v) (timer_elapse w) (lock_log w)
          (client w) (client_calls w) (shutdown w) (shutdown_polls w)
          (reservoir w) (dumps w) (log w).
Definition set_timer_elapse (v : Z) (w : World) : World :=
  mkWorld (draws w) (cursor w) (np_seed w) (curr_items w) (deleted_items w)
          (curr_ops w) (current_hot_load_start w) (Py.c_uint v) (lock_log w)
          (client w) (client_calls w) (shutdown w) (shutdown_polls w)
          (reservoir w) (dumps w) (log w).
Definition add_lock (s : LockSection) (w : World) : World :=
  mkWorld (draws w) (cursor w) (np_seed w) (curr_items w) (deleted_items w)
          (curr_ops w) (current_hot_load_start w) (timer_elapse w)
          (lock_log w ++ [s]) (client w) (client_calls w) (shutdown w)
          (shutdown_polls w) (reservoir w) (dumps w) (log w).
Definition set_client_calls (n : nat) (w : World) : World :=
  mkWorld (draws w) (cursor w) (np_seed w) (curr_items w) (deleted_items w)
          (curr_ops w) (current_hot_load_start w) (timer_elapse w) (lock_log w)
          (client w) n (shutdown w) (shutdown_polls w) (reservoir w)
          (dumps w) (log w).
Definition set_shutdown_polls (n : nat) (w : World) : World :=
  mkWorld (draws w) (cursor w) (np_seed w) (curr_items w) (deleted_items w)
          (curr_ops w) (current_hot_load_start w) (timer_elapse w) (lock_log w)
          (client w) (client_calls w) (shutdown w) n (reservoir w)
          (dumps w) (log w).
Definition add_sample (s : string * Z) (w : World) : World :=
  mkWorld (draws w) (cursor w) (np_seed w) (curr_items w) (deleted_items w)
          (curr_ops w) (current_hot_load_start w) (timer_elapse w) (lock_log w)
          (client w) (client_calls w) (shutdown w) (shutdown_polls w)
          (reservoir w ++ [s]) (dumps w) (log w).
Definition add_dump (f : string) (w : World) : World :=
  mkWorld (draws w) (cursor w) (np_seed w) (curr_items w) (deleted_items w)
          (curr_ops w) (current_hot_load_start w) (timer_elapse w) (lock_log w)
          (client w) (client_calls w) (shutdown w) (shutdown_polls w)
          (reservoir w) (dumps w ++ [f]) (log w).
Definition add_log (l : string) (w : World) : World :=
  mkWorld (draws w) (cursor w) (np_seed w) (curr_items w) (deleted_items w)
          (curr_ops w) (current_hot_load_start w) (timer_elapse w) (lock_log w)
          (client w) (client_calls w) (shutdown w) (shutdown_polls w)
          (reservoir w) (dumps w) (log w ++ [l]).
End W.

(** ** The monad of effectful code *)

Inductive Res (A : Type) : Type :=
| Ok (a : A)
| Raise (e : Py.Exn).
Arguments Ok {A} a.
Arguments Raise {A} e.

Definition M (A : Type) : Type := World -> Res A * World.

Definition ret {A} (a : A) : M A := fun w => (Ok a, w).

Definition raise {A} (e : Py.Exn) : M A := fun w => (Raise e, w).

Definition bind {A B} (m : M A) (f : A -> M B) : M B :=
  fun w =>
    match m w with
    | (Ok a, w') => f a w'
    | (Raise e, w') => (Raise e, w')
    end.

Definition get {A} (proj : World -> A) : M A := fun w => (Ok (proj w), w).

Definition modify (f : World -> World) : M unit := fun w => (Ok tt, f w).

Declare Scope monad_scope.
Delimit Scope monad_scope with monad.
Notation "x <- m ;; k" := (bind m (fun x => k))
  (at level 100, m at next level, right associativity) : monad_scope.
Notation "m ;;; k" := (bind m (fun _ => k))
  (at level 100, right associativity) : monad_scope.
Local Open Scope monad_scope.

(** [with lock: body], recording the section in the ghost log. *)
Definition with_lock {A} (s : LockSection) (body : M A) : M A :=
  modify (W.add_lock s) ;;; body.


(** [a // b] and [a % b] raise on a zero divisor. *)
Definition floordiv (a b : Z) : M Z :=
  if b =? 0 then raise Py.ZeroDivisionError else ret (a / b).

Definition pymod (a b : Z) : M Z :=
  if b =? 0 then raise Py.ZeroDivisionError else ret (a mod b).

(** The conversion of an [int] operand of a float operation:
    [OverflowError] when the integer is too large for a float. *)
Definition float_of_int (n : Z) : M Float.t :=
  match Float.of_int n with
  | Float.inf _ => raise Py.OverflowError
  | x => ret x
  end.

(** [int(x)] for a float. *)
Definition int_of_float (x : Float.t) : M Z :=
  match Float.trunc x with
  | Some k => ret k
  | None =>
      match x with
      | Float.nan => raise Py.ValueError
      | _ => raise Py.OverflowError
      end
  end.

(** [x / y] for floats. *)
Definition float_div (x y : Float.t) : M Float.t :=
  if Float.is_zero y then raise Py.ZeroDivisionError
  else ret (Float.div x y).

(** ** Random sources *)

(** The next raw integer of the oracle. *)
Definition next_raw : M Z :=
  fun w => (Ok (draws w (cursor w)), W.set_cursor (S (cursor w)) w).

(** The standard [random] module. *)
Module Random.

(** [random.randrange(start, stop)]: an element of [start, stop), or
    [ValueError] on an empty range. *)
Definition randrange (start stop : Z) : M Z :=
  if start <? stop then
    u <- next_raw ;; ret (start + u mod (stop - start))
  else raise Py.ValueError.

(** [random.randint(a, b)]: both ends included. *)
Definition randint (a b : Z) : M Z := randrange a (b + 1).

End Random.

Fixpoint insert_at {A} (n : nat) (x : A) (l : list A) : list A :=
  match n, l with
  | S k, y :: r => y :: insert_at k x r
  | _, _ => x :: l
  end.

(** [numpy.random], from its documented contract. *)
Module NpRandom.

(** [seed(seed=s)]: [ValueError] unless [0 <= s <= 2^32 - 1]. *)
Definition seed (s : Z) : M unit :=
  if (s <? 0) || (2 ^ 32 - 1 <? s) then raise Py.ValueError
  else modify (W.set_np_seed (Some s)).

(** [zipf(a)]: [ValueError] unless [a > 1], otherwise a positive
    integer. *)
Definition zipf (a : Float.t) : M Z :=
  if Float.gt_int a 1 then u <- next_raw ;; ret (1 + Z.abs u)
  else raise Py.ValueError.

(** [power(a)]: [ValueError] when [a <= 0], otherwise a float of [0, 1]:
    any value [m * 2^e] with [0 <= m <= 2^53] and [-1074 <= e <= -53],
    which are the floats of the unit interval (not-a-number for the
    parameter not-a-number). *)
Definition power (a : Float.t) : M Float.t :=
  if Float.le_int a 0 then raise Py.ValueError
  else
    u <- next_raw ;;
    v <- next_raw ;;
    match a with
    | Float.nan => ret Float.nan
    | _ => ret (Float.fin false (u mod (2 ^ 53 + 1)) (-53 - v mod 1022))
    end.

(** [random_integers(low, high)]: both ends included, [ValueError] when
    [low > high]. *)
Definition random_integers (low high : Z) : M Z :=
  if high <? low then raise Py.ValueError
  else u <- next_raw ;; ret (low + u mod (high - low + 1)).

(** [shuffle(x)]: some rearrangement of the list, chosen by the oracle. *)
Fixpoint shuffle {A} (l : list A) : M (list A) :=
  match l with
  | [] => ret []
  | x :: r =>
      r' <- shuffle r ;;
      u <- next_raw ;;
      ret (insert_at (Z.to_nat (u mod (Z.of_nat (List.length r') + 1))) x r')
  end.

End NpRandom.

(** ** Settings *)

(** The fields of [spring.settings.WorkloadSettings] that the modelled code
    reads.  [ops] and [throughput] are [None] for [float('inf')]. *)
Module WorkloadSettings.

Record t : Type := mk {
  items : Z;
  workers : Z;
  creates : Z;
  reads : Z;
  updates : Z;
  deletes : Z;
  reads_and_updates : Z;
  ops : option Z;
  throughput : option Z;
  working_set : Z;
  working_set_access : Z;
  working_set_moving_docs : Z;
  working_set_move_time : Z;
  power_alpha : Float.t;
  zipf_alpha : Float.t;
  n1ql_workers : Z;
  key_fmtr : string;
  doc_gen : string;
  size : Z;
  persist_to : Z;
  replicate_to : Z
}.

End WorkloadSettings.

Module TargetSettings.

Record t : Type := mk { prefix : string }.

End TargetSettings.

(** ** External collaborators *)

(** [spooky.hash128]: a 128-bit hash of a string. *)
Class Spooky : Type := { hash128 : string -> Z }.

(** [spring.dictionary.GARBAGE] *)
Class Dictionary : Type := { GARBAGE : string }.

(** ** Key model *)

Definition PRIME : Z := 4889388631.

Definition MAX_PRIME : Z := 25191867719.

Definition OFFSET : Z := 25000000000.

Definition HASH_LENGTH : Z := 16.

Definition hex_digest {sp : Spooky} (key : string) : string :=
  Py.fmt_0x 32 (hash128 key).

Definition decimal_fmtr (key : Z) (prefix : string) : string :=
  let key := Py.fmt_0d 12 key in
  if (prefix =? "")%string then key
  else prefix ++ "-" ++ key.

Definition hash_fmtr {sp : Spooky} (key : Z) (prefix : string) : string :=
  let key := decimal_fmtr key prefix in
  let key := hex_digest key in
  Py.slice_to key HASH_LENGTH.

(** [hex_fmtr(key, prefix)]; [ty] is the run-time type of [key]: the
    product of a [numpy.int64] with [PRIME] is a [numpy.int64], and [int()]
    is applied after the remainder and the sum. *)
Definition hex_fmtr (key : Z) (ty : Py.IntType) (prefix : string) : string :=
  let product := match ty with
                 | Py.PyInt => key * PRIME
                 | Py.NpInt64 => Py.int64 (key * PRIME)
                 end in
  let key := OFFSET + product mod MAX_PRIME in  (* hash *)
  let key := Py.fmt_0x 36 (key ^ 4) in  (* int() prevents overflow *)
  if (prefix =? "")%string then key
  else prefix ++ "-" ++ key.

Module Key.

(** [number_type] is the run-time type of the value that [number]
    holds. *)
Record t : Type := make {
  number : Z;
  prefix : string;
  fmtr : string;
  hit : bool;
  number_type : Py.IntType
}.

(** A key whose number is a Python [int]. *)
Abbreviation mk number prefix fmtr hit := (make number prefix fmtr hit Py.PyInt).

Definition string {sp : Spooky} (self : t) : String.string :=
  if (fmtr self =? "hash")%string then hash_fmtr (number self) (prefix self)
  else if (fmtr self =? "hex")%string
       then hex_fmtr (number self) (number_type self) (prefix self)
  else decimal_fmtr (number self) (prefix self).

End Key.

(** ** Key generators *)

Module NewOrderedKey.

Record t : Type := mk { prefix : string; fmtr : string }.

Definition next (self : t) (curr_items : Z) : Key.t :=
  Key.mk curr_items (prefix self) (fmtr self) false.

End NewOrderedKey.

Module KeyForRemoval.

Record t : Type := mk { prefix : string; fmtr : string }.

Definition next (self : t) (curr_deletes : Z) : Key.t :=
  Key.mk curr_deletes (prefix self) (fmtr self) false.

End KeyForRemoval.

Module UniformKey.

Record t : Type := mk { prefix : string; fmtr : string }.

Definition next (self : t) (curr_items curr_deletes : Z) : M Key.t :=
  number <- Random.randrange curr_deletes curr_items ;;
  ret (Key.mk number (prefix self) (fmtr self) false).

End UniformKey.

Module WorkingSetKey.

Record t : Type := mk {
  num_hot_items : Z;
  working_set_access : Z;
  prefix : string;
  fmtr : string
}.

Definition init (ws : WorkloadSettings.t) (prefix : string) : t :=
  mk (Z.quot (WorkloadSettings.items ws * WorkloadSettings.working_set ws) 100)
     (WorkloadSettings.working_set_access ws) prefix
     (WorkloadSettings.key_fmtr ws).

Definition next (self : t) (curr_items curr_deletes : Z) : M Key.t :=
  let num_cold_items := curr_items - num_hot_items self in
  draw <- Random.randint 0 100 ;;
  let '(hit, left_boundary, right_boundary) :=
    if draw <=? working_set_access self
    then (true, num_cold_items, curr_items)        (* cache hit *)
    else (false, curr_deletes, num_cold_items) in  (* cache miss *)
  number <- Random.randrange left_boundary right_boundary ;;
  ret (Key.mk number (prefix self) (fmtr self) hit).

End WorkingSetKey.

Module MovingWorkingSetKey.

Record t : Type := mk {
  working_set : Z;
  working_set_access : Z;
  working_set_moving_docs : Z;
  prefix : string;
  fmtr : string
}.

Definition init (ws : WorkloadSettings.t) (prefix : string) : t :=
  mk (WorkloadSettings.working_set ws) (WorkloadSettings.working_set_access ws)
     (WorkloadSettings.working_set_moving_docs ws) prefix
     (WorkloadSettings.key_fmtr ws).

(** [current_hot_load_start] and [timer_elapse] are the shared cells of the
    world. *)
Definition next (self : t) (curr_items curr_deletes : Z) : M Key.t :=
  let num_existing_items := curr_items - curr_deletes in
  let num_hot_items := Z.quot (num_existing_items * working_set self) 100 in
  flag <- get timer_elapse ;;
  (if flag =? 0 then ret tt
   else
     modify (W.set_timer_elapse 0) ;;;
     let num_items := num_existing_items - num_hot_items in
     start <- get current_hot_load_start ;;
     let offset := start + working_set_moving_docs self in
     r <- pymod offset num_items ;;
     modify (W.set_current_hot_load_start r)) ;;;
  start <- get current_hot_load_start ;;
  let left_boundary := curr_deletes + start in
  let right_boundary := left_boundary + num_hot_items in
  number <- Random.randrange left_boundary right_boundary ;;
  ret (Key.mk number (prefix self) (fmtr self) false).

End MovingWorkingSetKey.

Module ContinuousKey.

Record t : Type := mk { prefix : string; fmtr : string; alpha : Float.t }.

End ContinuousKey.

Module ZipfKey.

Definition next (self : ContinuousKey.t) (curr_items curr_deletes : Z) : M Key.t :=
  z <- NpRandom.zipf (ContinuousKey.alpha self) ;;
  let number := curr_items - z in
  let number := if number <=? curr_deletes then curr_items - 1 else number in
  ret (Key.mk number (ContinuousKey.prefix self) (ContinuousKey.fmtr self) false).

End ZipfKey.

Module PowerKey.

Definition next (self : ContinuousKey.t) (curr_items curr_deletes : Z) : M Key.t :=
  r <- NpRandom.power (ContinuousKey.alpha self) ;;
  x <- float_of_int (curr_items - curr_deletes - 1) ;;
  scaled <- int_of_float (Float.mul r x) ;;
  let number := curr_deletes + scaled in
  ret (Key.mk number (ContinuousKey.prefix self) (ContinuousKey.fmtr self) false).

End PowerKey.

Module SequentialKey.

Record t : Type := mk { sid : Z; ws : WorkloadSettings.t; prefix : string }.

(** The keys that iterating the generator yields, in order; [None] is the
    [ValueError] of [range] for a zero step. *)
Definition iter (self : t) : option (list Key.t) :=
  option_map
    (map (fun seq_id =>
            Key.mk seq_id (prefix self) (WorkloadSettings.key_fmtr (ws self)) false))
    (Py.range (sid self) (WorkloadSettings.items (ws self))
              (WorkloadSettings.workers (ws self))).

End SequentialKey.

Module KeyForCASUpdate.

Record t : Type := mk { n1ql_workers : Z; prefix : string; fmtr : string }.

Definition next (self : t) (sid curr_items : Z) : M Key.t :=
  per_worker_items <- floordiv curr_items (n1ql_workers self) ;;
  let left_boundary := sid * per_worker_items in
  let right_boundary := left_boundary + per_worker_items in
  number <- NpRandom.random_integers left_boundary (right_boundary - 1) ;;
  ret (Key.make number (prefix self) (fmtr self) false Py.NpInt64).

End KeyForCASUpdate.

(** ** Document synthesizers *)

(** [class String] *)
Module StringDoc.

Record t : Type := mk { avg_size : Z }.

Definition build_alphabet {sp : Spooky} (key : string) : string :=
  hex_digest key ++ hex_digest (Py.str_rev key).

Definition build_string (alphabet : string) (length : Z) : string :=
  let length_int := length in
  let num_slices := Py.ceil_div length 64 in  (* 64 == len(alphabet) *)
  let body := Py.str_mul num_slices alphabet in
  Py.slice_to body length_int.

Definition next {sp : Spooky} (self : t) (key : Key.t) : M string :=
  let alphabet := build_alphabet (Key.string key) in
  ret (build_string alphabet (avg_size self)).

End StringDoc.

(** [class IncompressibleString(String)]: overrides both builders. *)
Module IncompressibleString.

Definition build_alphabet {d : Dictionary} : string := GARBAGE.

Definition build_string (alphabet : string) (length : Z) : M string :=
  let length_int := length in
  offset <- Random.randint 0 (Z.of_nat (String.length alphabet) - length_int) ;;
  ret (Py.slice alphabet offset (offset + length_int)).

Definition next {d : Dictionary} (self : StringDoc.t) (key : Key.t) : M string :=
  let alphabet := build_alphabet in
  build_string alphabet (StringDoc.avg_size self).

End IncompressibleString.

(** The field builders of [class Document(String)] that slice the alphabet. *)
Module Document.

Definition build_name (alphabet : string) : string :=
  Py.slice_to alphabet 6 ++ " " ++ Py.slice alphabet 6 12.

Definition build_email (alphabet : string) : string :=
  Py.slice alphabet 12 18 ++ "@" ++ Py.slice alphabet 18 24 ++ ".com".

Definition build_alt_email (alphabet : string) : M string :=
  name <- Random.randint 1 9 ;;
  domain <- Random.randint 12 18 ;;
  ret (Py.slice alphabet name (name + 6) ++ "@"
       ++ Py.slice alphabet domain (domain + 6) ++ ".com").

Definition build_city (alphabet : string) : string := Py.slice alphabet 24 30.

Definition build_realm (alphabet : string) : string := Py.slice alphabet 30 36.

Definition build_country (alphabet : string) : string := Py.slice alphabet 42 48.

Definition build_county (alphabet : string) : string := Py.slice alphabet 48 54.

Definition build_street (alphabet : string) : string := Py.slice alphabet 54 62.

End Document.

(** ** Workers *)

(** The generator bound to [Worker.existing_keys]. *)
Inductive ExistingKeys : Type :=
| EKMovingWorkingSet (g : MovingWorkingSetKey.t)
| EKWorkingSet (g : WorkingSetKey.t)
| EKPower (g : ContinuousKey.t)
| EKZipf (g : ContinuousKey.t)
| EKUniform (g : UniformKey.t).

(** [existing_keys.next(curr_items, deleted_items)] when [extra] is false and
    [existing_keys.next(curr_items, deleted_items, current_hot_load_start,
    timer_elapse)] when it is true.  [MovingWorkingSetKey.next] has four
    required parameters; the others take [*args]. *)
Definition existing_keys_next (g : ExistingKeys) (curr_items deleted_items : Z)
    (extra : bool) : M Key.t :=
  match g with
  | EKMovingWorkingSet g =>
      if extra then MovingWorkingSetKey.next g curr_items deleted_items
      else raise Py.TypeError
  | EKWorkingSet g => WorkingSetKey.next g curr_items deleted_items
  | EKPower g => PowerKey.next g curr_items deleted_items
  | EKZipf g => ZipfKey.next g curr_items deleted_items
  | EKUniform g => UniformKey.next g curr_items deleted_items
  end.

(** The synthesizer bound to [Worker.docs] (the string synthesizers). *)
Inductive Docs : Type :=
| DocString (g : StringDoc.t)
| DocIncompressible (g : StringDoc.t).

Definition docs_next {sp : Spooky} {d : Dictionary} (g : Docs) (key : Key.t)
    : M string :=
  match g with
  | DocString g => StringDoc.next g key
  | DocIncompressible g => IncompressibleString.next g key
  end.

(** The client methods that a command refers to. *)
Inductive CbMethod : Type := cb_create | cb_read | cb_update | cb_delete.

(** The argument tuples of the commands. *)
Inductive Args : Type :=
| ArgsKey (key : string)
| ArgsKeyDoc (key doc : string) (persist_to replicate_to : Z).

Definition Cmd : Type := (string * CbMethod * Args)%type.

(** Operation tokens of a batch: ['c'], ['r'], ['u'], ['d'], ['m']. *)
Inductive Op : Type := OpC | OpR | OpU | OpD | OpM.

Module Worker.

Definition BATCH_SIZE : Z := 100.

Record t : Type := mk {
  NAME : string;
  ws : WorkloadSettings.t;
  ts : TargetSettings.t;
  shutdown_event : bool;            (* false: [shutdown_event is None] *)
  sid : Z;
  target_time : option Float.t;
  new_keys : NewOrderedKey.t;
  existing_keys : ExistingKeys;
  keys_for_removal : KeyForRemoval.t;
  keys_for_cas_update : KeyForCASUpdate.t;
  docs : Docs
}.

Definition init_existing_keys (ws : WorkloadSettings.t) (ts : TargetSettings.t)
    : ExistingKeys :=
  let prefix := TargetSettings.prefix ts in
  if negb (WorkloadSettings.working_set_move_time ws =? 0) then
    EKMovingWorkingSet (MovingWorkingSetKey.init ws prefix)
  else if WorkloadSettings.working_set ws <? 100 then
    EKWorkingSet (WorkingSetKey.init ws prefix)
  else if negb (Float.is_zero (WorkloadSettings.power_alpha ws)) then
    EKPower (ContinuousKey.mk prefix (WorkloadSettings.key_fmtr ws)
                              (WorkloadSettings.power_alpha ws))
  else if negb (Float.is_zero (WorkloadSettings.zipf_alpha ws)) then
    EKZipf (ContinuousKey.mk prefix (WorkloadSettings.key_fmtr ws)
                             (WorkloadSettings.zipf_alpha ws))
  else
    EKUniform (UniformKey.mk prefix (WorkloadSettings.key_fmtr ws)).

(** [init_docs], for the two string synthesizers. *)
Definition init_docs (ws : WorkloadSettings.t) : option Docs :=
  if (WorkloadSettings.doc_gen ws =? "string")%string then
    Some (DocString (StringDoc.mk (WorkloadSettings.size ws)))
  else if (WorkloadSettings.doc_gen ws =? "incompressible")%string then
    Some (DocIncompressible (StringDoc.mk (WorkloadSettings.size ws)))
  else None.

Definition init (name : string) (ws : WorkloadSettings.t)
    (ts : TargetSettings.t) (shutdown_event : bool) : option t :=
  option_map
    (fun docs =>
       mk name ws ts shutdown_event 0 None
          (NewOrderedKey.mk (TargetSettings.prefix ts) (WorkloadSettings.key_fmtr ws))
          (init_existing_keys ws ts)
          (KeyForRemoval.mk (TargetSettings.prefix ts) (WorkloadSettings.key_fmtr ws))
          (KeyForCASUpdate.mk (WorkloadSettings.n1ql_workers ws)
                              (TargetSettings.prefix ts)
                              (WorkloadSettings.key_fmtr ws))
          docs)
    (init_docs ws).

Definition set_run_args (sid : Z) (target_time : option Float.t) (self : t) : t :=
  mk (NAME self) (ws self) (ts self) (shutdown_event self) sid target_time
     (new_keys self) (existing_keys self) (keys_for_removal self)
     (keys_for_cas_update self) (docs self).

(** [shutdown_event is not None and shutdown_event.is_set()] *)
Definition time_to_stop (self : t) : M bool :=
  if shutdown_event self then
    fun w => (Ok (shutdown w (shutdown_polls w)),
              W.set_shutdown_polls (S (shutdown_polls w)) w)
  else ret false.

Definition seed (self : t) : M unit := NpRandom.seed (sid self * 9901).

Definition dump_stats (self : t) : M unit :=
  modify (W.add_dump (NAME self ++ "-" ++ Py.str_of_int (sid self))).

(** [self.next_report] as [__init__] sets it. *)
Definition initial_next_report : Float.t := Float.five_hundredths.

(** ['Current progress: {:.2f} %'.format(progress)] *)
Definition progress_line (progress : Float.t) : string :=
  "Current progress: " ++ Float.format_2f progress ++ " %".

End Worker.

Definition logger_info (line : string) : M unit := modify (W.add_log line).

(** [Worker.report_progress]: [self.next_report], the one attribute that
    the method changes, is passed in and its new value returned. *)
Definition report_progress (self : Worker.t) (next_report : Float.t)
    (curr_ops : Z) : M Float.t :=
  if negb (Worker.sid self =? 0) then ret next_report
  else
    match WorkloadSettings.ops (Worker.ws self) with
    | None => ret next_report
    | Some ops =>
        fops <- float_of_int ops ;;
        if Float.int_gt curr_ops (Float.mul next_report fops) then
          x <- float_of_int curr_ops ;;
          y <- float_of_int ops ;;
          progress <- float_div (Float.mul Float.hundred x) y ;;
          logger_info (Worker.progress_line progress) ;;;
          ret (Float.add next_report Float.five_hundredths)
        else ret next_report
    end.

(** [time.sleep]: wall-clock time is not part of the world. *)
Definition time_sleep : M unit := ret tt.

(** The [with_sleep] decorator. *)
Definition with_sleep (self : Worker.t) (method : M unit) : M unit :=
  match Worker.target_time self with
  | None => method
  | Some _ => method ;;; time_sleep
  end.

(** A call [func( *args )] on the client: what it does is the client's. *)
Definition call (func : CbMethod) (args : Args) : M (option Z) :=
  fun w =>
    let w' := W.set_client_calls (S (client_calls w)) w in
    match client w (client_calls w) with
    | Latency t => (Ok (Some t), w')
    | NoLatency => (Ok None, w')
    | Fails e => (Raise e, w')
    end.

Module KVWorker.

Definition NAME : string := "kv-worker".

Definition init (ws : WorkloadSettings.t) (ts : TargetSettings.t)
    (shutdown_event : bool) : option Worker.t :=
  Worker.init NAME ws ts shutdown_event.

(** The multiset of tokens of a batch, before it is shuffled. *)
Definition ops_multiset (ws : WorkloadSettings.t) : list Op :=
  (repeat OpC (Z.to_nat (WorkloadSettings.creates ws)) ++
   repeat OpR (Z.to_nat (WorkloadSettings.reads ws)) ++
   repeat OpU (Z.to_nat (WorkloadSettings.updates ws)) ++
   repeat OpD (Z.to_nat (WorkloadSettings.deletes ws)) ++
   repeat OpM (Z.to_nat (WorkloadSettings.reads_and_updates ws / 2)))%list.

Definition random_ops (self : Worker.t) : M (list Op) :=
  NpRandom.shuffle (ops_multiset (Worker.ws self)).

Section Methods.

Context {sp : Spooky} {dict : Dictionary}.

Definition create_args (self : Worker.t) (curr_items : Z) : M (list Cmd) :=
  let key := NewOrderedKey.next (Worker.new_keys self) curr_items in
  doc <- docs_next (Worker.docs self) key ;;
  let args := ArgsKeyDoc (Key.string key) doc
                (WorkloadSettings.persist_to (Worker.ws self))
                (WorkloadSettings.replicate_to (Worker.ws self)) in
  ret [("set", cb_create, args)].

Definition read_args (self : Worker.t) (curr_items deleted_items : Z)
    : M (list Cmd) :=
  key <- existing_keys_next (Worker.existing_keys self) curr_items deleted_items
                            false ;;
  let args := ArgsKey (Key.string key) in
  ret [("get", cb_read, args)].

Definition update_args (self : Worker.t) (curr_items deleted_items : Z)
    : M (list Cmd) :=
  key <- existing_keys_next (Worker.existing_keys self) curr_items deleted_items
                            true ;;
  doc <- docs_next (Worker.docs self) key ;;
  let args := ArgsKeyDoc (Key.string key) doc
                (WorkloadSettings.persist_to (Worker.ws self))
                (WorkloadSettings.replicate_to (Worker.ws self)) in
  ret [("set", cb_update, args)].

Definition delete_args (self : Worker.t) (deleted_items : Z) : M (list Cmd) :=
  let key := KeyForRemoval.next (Worker.keys_for_removal self) deleted_items in
  let args := ArgsKey (Key.string key) in
  ret [("delete", cb_delete, args)].

Definition modify_args (self : Worker.t) (curr_items deleted_items : Z)
    : M (list Cmd) :=
  key <- existing_keys_next (Worker.existing_keys self) curr_items deleted_items
                            false ;;
  doc <- docs_next (Worker.docs self) key ;;
  let read_args := ArgsKey (Key.string key) in
  let update_args := ArgsKeyDoc (Key.string key) doc
                       (WorkloadSettings.persist_to (Worker.ws self))
                       (WorkloadSettings.replicate_to (Worker.ws self)) in
  ret [("get", cb_read, read_args); ("set", cb_update, update_args)].

(** The [for op in self.random_ops] loop of [gen_cmd_sequence], with its
    three local variables. *)
Fixpoint resolve_ops (self : Worker.t) (ops : list Op)
    (curr_items deleted_items : Z) (cmds : list Cmd) : M (list Cmd) :=
  match ops with
  | [] => ret cmds
  | OpC :: rest =>
      new <- create_args self curr_items ;;
      resolve_ops self rest (curr_items + 1) deleted_items (cmds ++ new)
  | OpR :: rest =>
      new <- read_args self curr_items deleted_items ;;
      resolve_ops self rest curr_items deleted_items (cmds ++ new)
  | OpU :: rest =>
      new <- update_args self curr_items deleted_items ;;
      resolve_ops self rest curr_items deleted_items (cmds ++ new)
  | OpD :: rest =>
      new <- delete_args self deleted_items ;;
      resolve_ops self rest curr_items (deleted_items + 1) (cmds ++ new)
  | OpM :: rest =>
      new <- modify_args self curr_items deleted_items ;;
      resolve_ops self rest curr_items deleted_items (cmds ++ new)
  end.

(** The reservation of new-key space: [(snapshot, world cell advanced)]. *)
Definition reserve_creates (self : Worker.t) : M Z :=
  let ws := Worker.ws self in
  if WorkloadSettings.creates ws =? 0 then ret (WorkloadSettings.items ws)
  else
    with_lock ReserveCreates
      (v <- get curr_items ;;
       modify (W.set_curr_items (v + WorkloadSettings.creates ws)) ;;;
       ret v).

(** The reservation of deleted-key space. *)
Definition reserve_deletes (self : Worker.t) : M Z :=
  let ws := Worker.ws self in
  if WorkloadSettings.deletes ws =? 0 then ret 0
  else
    with_lock ReserveDeletes
      (v <- get deleted_items ;;
       modify (W.set_deleted_items (v + WorkloadSettings.deletes ws)) ;;;
       ret (v + WorkloadSettings.deletes ws * WorkloadSettings.workers ws)).

Definition gen_cmd_sequence (self : Worker.t) : M (list Cmd) :=
  curr_items <- reserve_creates self ;;
  deleted_items <- reserve_deletes self ;;
  ops <- random_ops self ;;
  resolve_ops self ops curr_items deleted_items [].

(** The body of the [for cmd, func, args in ...] loop of [do_batch]. *)
Fixpoint exec_cmds (cmds : list Cmd) : M unit :=
  match cmds with
  | [] => ret tt
  | (cmd, func, args) :: rest =>
      latency <- call func args ;;
      match latency with
      | Some t => modify (W.add_sample (cmd, t))
      | None => ret tt
      end ;;;
      exec_cmds rest
  end.

Definition do_batch (self : Worker.t) : M unit :=
  with_sleep self (cmds <- gen_cmd_sequence self ;; exec_cmds cmds).

(** [curr_ops.value < self.ws.ops and not self.time_to_stop()] *)
Definition run_condition (self : Worker.t) : M bool :=
  v <- get curr_ops ;;
  let below := match WorkloadSettings.ops (Worker.ws self) with
               | None => true
               | Some n => v <? n
               end in
  if below then stop <- Worker.time_to_stop self ;; ret (negb stop)
  else ret false.

(** One turn of the [while] loop of [run]; the result is the new value of
    [self.next_report]. *)
Definition run_body (self : Worker.t) (next_report : Float.t) : M Float.t :=
  with_lock ReserveOps
    (v <- get curr_ops ;; modify (W.set_curr_ops (v + Worker.BATCH_SIZE))) ;;;
  do_batch self ;;;
  v <- get curr_ops ;;
  report_progress self next_report v.

(** The [while] loop; [None] when [fuel] turns do not reach its end. *)
Fixpoint run_loop (fuel : nat) (self : Worker.t) (next_report : Float.t)
    (w : World) : option (Res unit * World) :=
  match fuel with
  | O => None
  | S k =>
      match run_condition self w with
      | (Raise e, w1) => Some (Raise e, w1)
      | (Ok false, w1) => Some (Ok tt, w1)
      | (Ok true, w1) =>
          match run_body self next_report w1 with
          | (Raise e, w2) => Some (Raise e, w2)
          | (Ok next_report', w2) => run_loop k self next_report' w2
          end
      end
  end.

(** [float(BATCH_SIZE) * workers / throughput] when the throughput is
    finite. *)
Definition compute_target_time (ws : WorkloadSettings.t) : M (option Float.t) :=
  match WorkloadSettings.throughput ws with
  | None => ret None
  | Some t =>
      x <- float_of_int (WorkloadSettings.workers ws) ;;
      y <- float_of_int t ;;
      q <- float_div (Float.mul Float.hundred x) y ;;
      ret (Some q)
  end.

(** The part of [run] before the loop: the target time, the arguments
    stored in [self], the seed and the first log line. *)
Definition run_setup (self : Worker.t) (sid : Z) : M Worker.t :=
  target_time <- compute_target_time (Worker.ws self) ;;
  let self := Worker.set_run_args sid target_time self in
  Worker.seed self ;;;
  logger_info ("Started: " ++ Worker.NAME self ++ "-"
               ++ Py.str_of_int (Worker.sid self)) ;;;
  ret self.

(** [run(sid, lock, curr_ops, curr_items, deleted_items, ...)]: the lock and
    the shared cells are those of the world; [next_report] is the value of
    [self.next_report] when [run] is called. *)
Definition run (fuel : nat) (self : Worker.t) (next_report : Float.t) (sid : Z)
    (w : World) : option (Res unit * World) :=
  match run_setup self sid w with
  | (Raise e, w1) => Some (Raise e, w1)
  | (Ok self, w1) =>
      let tag := Worker.NAME self ++ "-" ++ Py.str_of_int (Worker.sid self) in
      match run_loop fuel self next_report w1 with
      | None => None
      | Some (Ok _, w2) =>
          Some ((logger_info ("Finished: " ++ tag) ;;;
                 Worker.dump_stats self) w2)
      | Some (Raise e, w2) =>
          if Py.Exn_is_KeyboardInterrupt e then
            Some ((logger_info ("Interrupted: " ++ tag) ;;;
                   Worker.dump_stats self) w2)
          else Some (Raise e, w2)
      end
  end.

End Methods.

End KVWorker.

(** ** Orchestrator *)

Module WorkloadGen.

(** The shared cells as [start_all_workers] creates them, around a random
    oracle, a client and a shutdown signal. *)
Definition initial_world (ws : WorkloadSettings.t) (draws : nat -> Z)
    (client : nat -> Outcome) (shutdown : nat -> bool) : World :=
  let start :=
    if WorkloadSettings.working_set_move_time ws =? 0 then 0
    else Py.c_ulong
           (Z.quot (WorkloadSettings.items ws * WorkloadSettings.working_set ws) 100) in
  mkWorld draws 0 None (Py.c_ulong (WorkloadSettings.items ws)) 0 0 start 0 []
          client 0 shutdown 0 [] [] [].

End WorkloadGen.



(** [range(n)] as the list it iterates. *)
Definition range_upto (n : Z) : list Z := map Z.of_nat (seq 0 (Z.to_nat n)).

(** The key numbers that the worker [sid] of a sequential load iterates
    over ([for key in SequentialKey(sid, ws, prefix)]). *)
Definition sequential_numbers (ws : WorkloadSettings.t) (prefix : string)
    (sid : Z) : list Z :=
  match SequentialKey.iter (SequentialKey.mk sid ws prefix) with
  | Some keys => map Key.number keys
  | None => []
  end.

(** The key numbers of all the workers that [start_workers] spawns
    ([for sid in range(total_workers)]), worker after worker. *)
Definition all_sequential_numbers (ws : WorkloadSettings.t) (prefix : string)
    : list Z :=
  flat_map (sequential_numbers ws prefix)
           (range_upto (WorkloadSettings.workers ws)).

(** The part of a decimal key string that follows ["prefix-"]
    ([key[len(prefix) + 1:]], the whole string without a prefix). *)
Definition digit_portion (prefix key : string) : string :=
  if (prefix =? "")%string then key
  else Py.str_drop (String.length prefix + 1) key.

(** Stand-ins for the external collaborators in closed examples: a hash
    that counts characters, and a short incompressible text. *)
Definition example_spooky : Spooky := {| hash128 := fun s => Z.of_nat (String.length s) |}.

Definition example_dictionary : Dictionary := {| GARBAGE := "qwertyuiopasdfgh" |}.

(** ** Reading a command sequence *)

Definition cmd_func (c : Cmd) : CbMethod := snd (fst c).

Definition cmd_key (c : Cmd) : string :=
  match snd c with
  | ArgsKey key => key
  | ArgsKeyDoc key _ _ _ => key
  end.

Definition CbMethod_eqb (a b : CbMethod) : bool :=
  match a, b with
  | cb_create, cb_create | cb_read, cb_read
  | cb_update, cb_update | cb_delete, cb_delete => true
  | _, _ => false
  end.

(** The key strings of the commands that call the client method [f], in
    the order of the sequence. *)
Definition keys_of (f : CbMethod) (cmds : list Cmd) : list string :=
  map cmd_key (filter (fun c => CbMethod_eqb (cmd_func c) f) cmds).

Definition Op_eq_dec (a b : Op) : {a = b} + {a <> b}.
Proof. decide equality. Defined.

(** The commands that one token stands for. *)
Definition token_block {sp : Spooky} (ws : WorkloadSettings.t) (op : Op)
    (blk : list Cmd) : Prop :=
  let durable key doc :=
    ArgsKeyDoc (Key.string key) doc (WorkloadSettings.persist_to ws)
               (WorkloadSettings.replicate_to ws) in
  match op with
  | OpC => exists key doc, blk = [("set", cb_create, durable key doc)]
  | OpR => exists key, blk = [("get", cb_read, ArgsKey (Key.string key))]
  | OpU => exists key doc, blk = [("set", cb_update, durable key doc)]
  | OpD => exists key, blk = [("delete", cb_delete, ArgsKey (Key.string key))]
  | OpM => exists key doc,
             blk = [("get", cb_read, ArgsKey (Key.string key));
                    ("set", cb_update, durable key doc)]
  end.

(** What the loop of [gen_cmd_sequence] appends to [cmds] for the tokens
    [ops], block by block, when it starts from the local counters
    [curr_items] and [deleted_items]: one block per token; the create
    commands carry the new keys numbered from [curr_items] on and the delete
    commands the removal keys numbered from [deleted_items] on, in order;
    read and update commands come from the read, update and modify
    tokens. *)
Definition resolved {sp : Spooky} (self : Worker.t) (ops : list Op)
    (curr_items deleted_items : Z) (blocks : list (list Cmd)) : Prop :=
  Forall2 (token_block (Worker.ws self)) ops blocks /\
  keys_of cb_create (List.concat blocks)
    = map (fun n => Key.string (NewOrderedKey.next (Worker.new_keys self) n))
          (Py.range_from (count_occ Op_eq_dec ops OpC) curr_items 1) /\
  keys_of cb_delete (List.concat blocks)
    = map (fun n => Key.string
                      (KeyForRemoval.next (Worker.keys_for_removal self) n))
          (Py.range_from (count_occ Op_eq_dec ops OpD) deleted_items 1) /\
  List.length (keys_of cb_read (List.concat blocks))
    = (count_occ Op_eq_dec ops OpR + count_occ Op_eq_dec ops OpM)%nat /\
  List.length (keys_of cb_update (List.concat blocks))
    = (count_occ Op_eq_dec ops OpU + count_occ Op_eq_dec ops OpM)%nat.

(** What sampling keys and synthesizing documents leaves alone: everything
    but the oracle cursor and the two cells of the moving working set. *)
Definition sampling_frame (w w' : World) : Prop :=
  draws w' = draws w /\ np_seed w' = np_seed w /\
  curr_items w' = curr_items w /\ deleted_items w' = deleted_items w /\
  curr_ops w' = curr_ops w /\ lock_log w' = lock_log w /\
  client w' = client w /\ client_calls w' = client_calls w /\
  shutdown w' = shutdown w /\ shutdown_polls w' = shutdown_polls w /\
  reservoir w' = reservoir w /\ dumps w' = dumps w /\ log w' = log w.

Definition preserves {A} (m : M A) : Prop :=
  forall w r w', m w = (r, w') -> sampling_frame w w'.

(** What a batch leaves alone: the operation counter, the shutdown signal,
    the dumped files and the log. *)
Definition batch_frame (w w' : World) : Prop :=
  curr_ops w' = curr_ops w /\ shutdown w' = shutdown w /\
  shutdown_polls w' = shutdown_polls w /\
  dumps w' = dumps w /\ log w' = log w.

(** Why the [while] loop of [run] ends normally in the world [w]: the
    operation counter has reached [ws.ops], or the last poll of the shutdown
    event found it set. *)
Definition loop_exit_reason (self : Worker.t) (w : World) : Prop :=
  (exists n, WorkloadSettings.ops (Worker.ws self) = Some n /\ n <= curr_ops w) \/
  (Worker.shutdown_event self = true /\
   exists polls, shutdown_polls w = S polls /\ shutdown w polls = true).

(** ** Warm-up keys *)

(** [class HotKey] *)
Module HotKey.

Record t : Type := mk { sid : Z; ws : WorkloadSettings.t; prefix : string }.

(** The keys that iterating the generator yields, in order; [None] is the
    [ValueError] of [range] for a zero step. *)
Definition iter (self : t) : option (list Key.t) :=
  let num_hot_keys :=
    Z.quot (WorkloadSettings.items (ws self)
            * WorkloadSettings.working_set (ws self)) 100 in
  let num_cold_items := WorkloadSettings.items (ws self) - num_hot_keys in
  option_map
    (map (fun seq_id =>
            Key.mk seq_id (prefix self) (WorkloadSettings.key_fmtr (ws self)) false))
    (Py.range (num_cold_items + sid self) (WorkloadSettings.items (ws self))
              (WorkloadSettings.workers (ws self))).

End HotKey.



(** ** Documents with integer arrays *)

(** [class ArrayIndexingDocument]: the two array fields.  The record keeps
    the attributes that the array builders read. *)
Module ArrayIndexingDocument.

Definition ARRAY_CAP : Z := 100.

Definition ARRAY_SIZE : Z := 10.

Record t : Type := mk {
  prefix : string;
  is_random : bool;
  array_size : Z;
  num_docs : Z
}.

(** [__init__]; [is_random] comes from [ReverseLookupDocument.__init__]. *)
Definition init (prefix : string) (array_size num_docs : Z) : t :=
  mk prefix (negb (prefix =? "n1ql")%string) array_size num_docs.

Definition build_achievements1 (self : t) (seq_id : Z) : M (list Z) :=
  let offset := seq_id * array_size self in
  offset <- (if is_random self then
               let offset := num_docs self * array_size self in
               let offset := offset + 2 * seq_id * array_size self in
               r <- Random.randint 1 (array_size self) ;;
               ret (offset + r)
             else ret offset) ;;
  ret (map (fun i => offset + i) (range_upto (array_size self))).

Definition build_achievements2 (self : t) (seq_id : Z) : M (list Z) :=
  let offset := seq_id / ARRAY_CAP * ARRAY_SIZE in
  offset <- (if is_random self then
               let offset := num_docs self * ARRAY_SIZE in
               let offset :=
                 offset + (2 * seq_id) / ARRAY_CAP * ARRAY_SIZE in
               r <- Random.randint 1 ARRAY_SIZE ;;
               ret (offset + r)
             else ret offset) ;;
  ret (map (fun i => offset + i) (range_upto ARRAY_SIZE)).

End ArrayIndexingDocument.

(** ** Documents that refer to other documents *)

(** A list comprehension [[f(x) for x in l]] whose body can raise. *)
Fixpoint comprehension {A B} (f : A -> M B) (l : list A) : M (list B) :=
  match l with
  | [] => ret []
  | x :: l' =>
      y <- f x ;;
      ys <- comprehension f l' ;;
      ret (y :: ys)
  end.

(** [class JoinedDocument]: the reference fields.  The record keeps the
    attributes that these builders read; a reply [{'user': u}] is
    represented by [u]. *)
Module JoinedDocument.

Record t : Type := mk {
  prefix : string;
  num_docs : Z;
  num_categories : Z;
  num_replies : Z
}.

Definition build_owner (self : t) (seq_id : Z) : M string :=
  ref_id <- pymod seq_id (num_docs self / 4) ;;
  ret (decimal_fmtr ref_id (prefix self)).

Definition build_categories (self : t) (seq_id : Z) : M (list string) :=
  c1 <- pymod (seq_id + 11) (num_categories self) ;;
  c2 <- pymod (seq_id + 19) (num_categories self) ;;
  c3 <- pymod (seq_id + 23) (num_categories self) ;;
  c4 <- pymod (seq_id + 29) (num_categories self) ;;
  ret [decimal_fmtr c1 (prefix self); decimal_fmtr c2 (prefix self);
       decimal_fmtr c3 (prefix self); decimal_fmtr c4 (prefix self)].

Definition build_user (self : t) (seq_id idx : Z) : M string :=
  n <- pymod (seq_id + idx + 537) (num_docs self) ;;
  ret (decimal_fmtr n (prefix self)).

Definition build_replies (self : t) (seq_id : Z) : M (list string) :=
  comprehension (build_user self seq_id) (range_upto (num_replies self)).

End JoinedDocument.

(** ** Plasma documents *)

(** [class PlasmaDocument] *)
Module PlasmaDocument.

Definition build_item (alphabet : string) (size : Z) (prefix : string)
    : M string :=
  let length := size - Z.of_nat (String.length prefix) in
  let num_slices := Py.ceil_div length 64 in  (* 64 == len(alphabet) *)
  let body := Py.str_mul num_slices alphabet in
  num <- Random.randint 1 length ;;
  if (prefix =? "")%string
  then ret (Py.slice body num length ++ Py.slice body 0 num)
  else ret (prefix ++ "-" ++ Py.slice body num length ++ Py.slice body 0 num).

End PlasmaDocument.

(** ** Capped fields *)

(** [class ReverseLookupDocument]: the capped field.  The record keeps the
    attributes that [build_capped] reads. *)
Module ReverseLookupDocument.

Record t : Type := mk { prefix : string; is_random : bool }.

Definition init (prefix : string) : t :=
  mk prefix (negb (prefix =? "n1ql")%string).

Definition build_capped (self : t) (alphabet : string) (seq_id num_unique : Z)
    : M string :=
  if is_random self then
    offset <- Random.randint 1 9 ;;
    ret (Py.slice alphabet offset (offset + 6))
  else
    index <- floordiv seq_id num_unique ;;
    ret (prefix self ++ "_" ++ Py.str_of_int num_unique
         ++ "_" ++ Py.str_of_int index).

End ReverseLookupDocument.

(** [class ReverseRangeLookupDocument]: the override of [build_capped]. *)
Module ReverseRangeLookupDocument.

Definition build_capped (self : ReverseLookupDocument.t) (alphabet : string)
    (seq_id num_unique : Z) : M string :=
  if ReverseLookupDocument.is_random self then
    offset <- Random.randint 1 9 ;;
    ret (Py.slice alphabet offset (offset + 6))
  else
    index <- floordiv seq_id num_unique ;;
    ret (ReverseLookupDocument.prefix self ++ "_" ++ Py.str_of_int num_unique
         ++ "_" ++ Py.fmt_0d 12 index).

End ReverseRangeLookupDocument.

(** Settings with every count at zero, to be overridden field by field. *)
Definition default_settings : WorkloadSettings.t :=
  WorkloadSettings.mk 0 1 0 0 0 0 0 None None 100 100 0 0 Float.zero Float.zero 1 "" "string" 0 0 0.

(** An oracle that replays a list of raw draws and then yields zero. *)
Definition replay (l : list Z) : nat -> Z := fun i => nth i l 0.

(** * Properties *)

(** ** Random sources *)

Ltac munfold :=
  unfold bind, ret, raise, get, modify, with_lock, next_raw in *; cbv beta iota in *.

Lemma randrange_ok (start stop : Z) (w : World) :
  start < stop ->
  exists v,
    Random.randrange start stop w = (Ok v, W.set_cursor (S (cursor w)) w) /\
    start <= v < stop.
Proof.
  intros Hlt. unfold Random.randrange.
  apply Z.ltb_lt in Hlt as Hb. rewrite Hb. munfold.
  eexists; split; [reflexivity|].
  pose proof (Z.mod_pos_bound (draws w (cursor w)) (stop - start)). lia.
Qed.

Lemma randrange_empty (start stop : Z) (w : World) :
  stop <= start -> Random.randrange start stop w = (Raise Py.ValueError, w).
Proof.
  intros Hle. unfold Random.randrange.
  apply Z.ltb_ge in Hle. rewrite Hle. reflexivity.
Qed.

Lemma randrange_inv (start stop v : Z) (w w' : World) :
  Random.randrange start stop w = (Ok v, w') ->
  start <= v < stop /\ w' = W.set_cursor (S (cursor w)) w.
Proof.
  intros H. destruct (Z_lt_le_dec start stop) as [Hlt|Hle].
  - destruct (randrange_ok start stop w Hlt) as (v0 & E & Hr).
    rewrite E in H. inversion H; subst. auto.
  - rewrite (randrange_empty _ _ w Hle) in H. discriminate.
Qed.

(** Every element of the range is produced by some raw draw. *)
Lemma randrange_onto (start stop v : Z) (w : World) :
  start <= v < stop ->
  draws w (cursor w) = v - start ->
  Random.randrange start stop w = (Ok v, W.set_cursor (S (cursor w)) w).
Proof.
  intros Hr Hd. unfold Random.randrange.
  assert (Hb : (start <? stop) = true) by (apply Z.ltb_lt; lia).
  rewrite Hb. munfold. rewrite Hd, Z.mod_small by lia.
  do 2 f_equal. lia.
Qed.

(** ** Rounding of binary64 floats *)

Lemma shl_nonneg_shift (x k : Z) : 0 <= k -> Float.shl x k = x * 2 ^ k.
Proof. intros H. unfold Float.shl. rewrite Z.max_r by lia. reflexivity. Qed.

Lemma shl_neg_shift (x k : Z) : k <= 0 -> Float.shl x k = x.
Proof. intros H. unfold Float.shl. rewrite Z.max_l by lia. lia. Qed.

Lemma ilog2_one (n : Z) : 0 < n -> Float.ilog2 n 1 = Z.log2 n.
Proof.
  intros Hn. unfold Float.ilog2.
  change (Z.log2 1) with 0. rewrite Z.sub_0_r.
  pose proof (Z.log2_nonneg n) as HL.
  rewrite shl_nonneg_shift by lia. rewrite shl_neg_shift by lia.
  pose proof (Z.log2_spec n Hn) as [Hlo _].
  assert (H : (1 * 2 ^ Z.log2 n <=? n) = true) by (apply Z.leb_le; lia).
  rewrite H. reflexivity.
Qed.

Lemma log2_below (q k : Z) : 0 <= q < 2 ^ k -> 0 < k -> Z.log2 q < k.
Proof.
  intros [H0 H1] Hk.
  destruct (Z.eq_dec q 0) as [->|Hq]; [cbn; lia|].
  apply Z.log2_lt_pow2; lia.
Qed.

(** Rounding is monotone against the grid of the result: a dyadic value
    [n * 2^e] that is at most [G] steps of its own rounding grid rounds to
    at most [G] steps. *)
Lemma round_dyadic_grid (neg : bool) (n e G : Z) :
  0 < n ->
  let fe := Z.max (Z.log2 n + e - 52) (-1074) in
  Float.shl n (e - fe) <= Float.shl G (fe - e) ->
  0 <= G -> Z.log2 G + fe < 1024 ->
  exists q, Float.round neg n 1 e = Float.fin neg q fe /\ 0 <= q <= G.
Proof.
  intros Hn fe Hle HG Hlog.
  unfold Float.round.
  assert (Hn0 : (n =? 0) = false) by (apply Z.eqb_neq; lia).
  rewrite Hn0. rewrite ilog2_one by exact Hn. fold fe.
  assert (Hover : forall q', 0 <= q' <= G ->
             (1024 <=? Z.log2 q' + fe) = false).
  { intros q' Hq. apply Z.leb_gt.
    pose proof (Z.log2_le_mono q' G ltac:(lia)). lia. }
  destruct (Z_le_gt_dec 0 (e - fe)) as [Hsh|Hsh].
  - rewrite (shl_nonneg_shift n) in * by exact Hsh.
    rewrite (shl_neg_shift G) in Hle by lia.
    rewrite (shl_neg_shift 1) by lia.
    rewrite Z.div_1_r, Z.mod_1_r. cbn [Z.mul Z.compare].
    assert (Hq : 0 <= n * 2 ^ (e - fe) <= G).
    { assert (0 < 2 ^ (e - fe)) by (apply Z.pow_pos_nonneg; lia).
      split; [nia|exact Hle]. }
    rewrite (Hover _ Hq).
    exists (n * 2 ^ (e - fe)). split; [reflexivity|exact Hq].
  - rewrite (shl_neg_shift n) in * by lia.
    rewrite (shl_nonneg_shift G) in Hle by lia.
    rewrite (shl_nonneg_shift 1) by lia. rewrite Z.mul_1_l.
    replace (- (e - fe)) with (fe - e) by lia.
    set (den := 2 ^ (fe - e)) in *.
    assert (Hden : 0 < den) by (apply Z.pow_pos_nonneg; lia).
    pose proof (Z.div_mod n den ltac:(lia)) as Hdm.
    pose proof (Z.mod_pos_bound n den Hden) as Hr.
    assert (Hq0 : 0 <= n / den) by (apply Z.div_pos; lia).
    assert (Hq1 : n / den <= G).
    { apply Z.div_le_upper_bound; [exact Hden|]. lia. }
    assert (Hq2 : 0 < n mod den -> n / den + 1 <= G).
    { intros Hpos.
      assert (n / den < G); [|lia].
      apply Z.div_lt_upper_bound; [exact Hden|].
      assert (Hne : n <> G * den).
      { intros Heq. rewrite Heq, Z.mod_mul in Hpos by lia. lia. }
      lia. }
    assert (Hq' : 0 <= match 2 * (n mod den) ?= den with
                       | Lt => n / den
                       | Eq => if Z.even (n / den) then n / den else n / den + 1
                       | Gt => n / den + 1
                       end <= G).
    { destruct (2 * (n mod den) ?= den) eqn:Ec.
      - apply Z.compare_eq in Ec.
        destruct (Z.even (n / den)); [lia|]. split; [lia|]. apply Hq2. lia.
      - lia.
      - apply Z.compare_gt_iff in Ec. split; [lia|]. apply Hq2. lia. }
    rewrite (Hover _ Hq').
    eexists. split; [reflexivity|exact Hq'].
Qed.

(** A dyadic value that is at most the integer [X < 2^53] rounds to a
    float that is at most [X]. *)
Lemma round_dyadic_le (neg : bool) (n e X : Z) :
  0 < n -> e <= 0 -> 0 <= X < 2 ^ 53 -> n <= X * 2 ^ (- e) ->
  exists q fe,
    Float.round neg n 1 e = Float.fin neg q fe /\
    fe <= 0 /\ 0 <= q <= X * 2 ^ (- fe).
Proof.
  intros Hn He HX Hle.
  set (fe := Z.max (Z.log2 n + e - 52) (-1074)).
  assert (Hpe : 0 < 2 ^ (- e)) by (apply Z.pow_pos_nonneg; lia).
  assert (Hfe : fe <= 0).
  { assert (Hlt : n < 2 ^ (53 - e)).
    { replace (53 - e) with (53 + - e) by lia.
      rewrite Z.pow_add_r by lia. nia. }
    apply Z.log2_lt_pow2 in Hlt; [|exact Hn]. unfold fe. lia. }
  assert (Hpf : 0 < 2 ^ (- fe)) by (apply Z.pow_pos_nonneg; lia).
  destruct (round_dyadic_grid neg n e (X * 2 ^ (- fe)) Hn) as (q & E & Hq).
  - fold fe. destruct (Z_le_gt_dec 0 (e - fe)) as [Hsh|Hsh].
    + rewrite shl_nonneg_shift by exact Hsh. rewrite shl_neg_shift by lia.
      assert (0 < 2 ^ (e - fe)) by (apply Z.pow_pos_nonneg; lia).
      replace (- fe) with (- e + (e - fe)) by lia.
      rewrite Z.pow_add_r by lia. nia.
    + rewrite shl_neg_shift by lia. rewrite shl_nonneg_shift by lia.
      rewrite <- Z.mul_assoc, <- Z.pow_add_r by lia.
      replace (- fe + (fe - e)) with (- e) by lia. exact Hle.
  - nia.
  - fold fe.
    assert (Hq2 : 0 <= X * 2 ^ (- fe) < 2 ^ (53 - fe)).
    { replace (53 - fe) with (53 + - fe) by lia.
      rewrite Z.pow_add_r by lia. nia. }
    pose proof (log2_below _ (53 - fe) Hq2 ltac:(lia)). lia.
  - exists q, fe. fold fe in E. split; [exact E|]. split; [exact Hfe|exact Hq].
Qed.

(** Integers below [2^53] in absolute value convert exactly. *)
Lemma of_int_small (x : Z) :
  x <> 0 -> Z.abs x < 2 ^ 53 ->
  exists fe, fe <= 0 /\
    Float.of_int x = Float.fin (x <? 0) (Z.abs x * 2 ^ (- fe)) fe.
Proof.
  intros Hx Hb. unfold Float.of_int, Float.round.
  set (n := Z.abs x) in *.
  assert (Hn : 0 < n) by (unfold n; lia).
  assert (Hn0 : (n =? 0) = false) by (apply Z.eqb_neq; lia).
  rewrite Hn0, ilog2_one by exact Hn.
  pose proof (Z.log2_nonneg n) as HL0.
  assert (HL : Z.log2 n < 53) by (apply Z.log2_lt_pow2; [exact Hn|exact Hb]).
  rewrite Z.add_0_r.
  rewrite (Z.max_l (Z.log2 n - 52) (-1074)) by lia.
  set (fe := Z.log2 n - 52).
  rewrite (shl_nonneg_shift n) by lia.
  rewrite (shl_neg_shift 1) by lia.
  rewrite Z.div_1_r, Z.mod_1_r. cbn [Z.mul Z.compare].
  rewrite Z.log2_mul_pow2 by lia.
  assert (Ho : (1024 <=? 0 - fe + Z.log2 n + fe) = false)
    by (apply Z.leb_gt; lia).
  rewrite Ho. exists fe. split; [unfold fe; lia|].
  replace (0 - fe) with (- fe) by lia. reflexivity.
Qed.

(** The product of a float of the unit interval with an integer below
    [2^53] in absolute value, truncated: it lies between 0 and the
    integer. *)
Lemma unit_product_trunc (m e x : Z) :
  0 <= m <= 2 ^ 53 -> e <= -53 -> Z.abs x < 2 ^ 53 ->
  exists k,
    Float.trunc (Float.mul (Float.fin false m e) (Float.of_int x)) = Some k /\
    (0 <= x -> 0 <= k <= x) /\ (x <= 0 -> x <= k <= 0).
Proof.
  intros Hm He Hx.
  destruct (Z.eq_dec x 0) as [->|Hx0].
  - exists 0. split; [|lia].
    unfold Float.of_int, Float.round, Float.mul. cbn [Z.abs Z.eqb Z.ltb Z.compare].
    unfold Float.round. rewrite Z.mul_0_r. reflexivity.
  - destruct (of_int_small x Hx0 Hx) as (fe & Hfe & ->).
    cbn [Float.mul xorb].
    assert (Hpf : 0 < 2 ^ (- fe)) by (apply Z.pow_pos_nonneg; lia).
    destruct (Z.eq_dec m 0) as [->|Hm0].
    + exists 0. split; [|lia]. unfold Float.round. cbn [Z.mul Z.eqb].
      cbn. destruct (x <? 0); reflexivity.
    + destruct (round_dyadic_le (x <? 0) (m * (Z.abs x * 2 ^ (- fe))) (e + fe)
                  (Z.abs x)) as (q & fe' & E & Hfe' & Hq).
      * nia.
      * lia.
      * lia.
      * replace (- (e + fe)) with (- fe + - e) by lia.
        rewrite Z.pow_add_r by lia.
        assert (2 ^ 53 <= 2 ^ (- e)) by (apply Z.pow_le_mono_r; lia).
        nia.
      * rewrite E. unfold Float.trunc.
        rewrite shl_neg_shift by lia. rewrite Z.max_r by lia.
        assert (Hp : 0 < 2 ^ (- fe')) by (apply Z.pow_pos_nonneg; lia).
        assert (Hk0 : 0 <= q / 2 ^ (- fe')) by (apply Z.div_pos; lia).
        assert (Hk1 : q / 2 ^ (- fe') <= Z.abs x).
        { apply Z.div_le_upper_bound; [exact Hp|]. lia. }
        eexists. split; [reflexivity|].
        destruct (x <? 0) eqn:Es.
        -- apply Z.ltb_lt in Es. lia.
        -- apply Z.ltb_ge in Es. lia.
Qed.


Lemma float_of_int_small (x : Z) (w : World) :
  Z.abs x < 2 ^ 53 -> float_of_int x w = (Ok (Float.of_int x), w).
Proof.
  intros Hx. unfold float_of_int.
  destruct (Z.eq_dec x 0) as [->|Hx0]; [reflexivity|].
  destruct (of_int_small x Hx0 Hx) as (fe & _ & ->). reflexivity.
Qed.

Lemma int_of_float_trunc (x : Float.t) (k : Z) (w : World) :
  Float.trunc x = Some k -> int_of_float x w = (Ok k, w).
Proof. intros H. unfold int_of_float. rewrite H. reflexivity. Qed.

(** ** Draws of the continuous distributions *)

Lemma gt_int_not_le (a : Float.t) (n : Z) :
  Float.gt_int a n = true -> Float.le_int a n = false /\ a <> Float.nan.
Proof.
  unfold Float.gt_int, Float.le_int.
  destruct a as [|neg|neg m e]; cbn [Float.compare_int]; [discriminate| |].
  - destruct neg; [discriminate|]. intros _. split; [reflexivity|discriminate].
  - destruct (_ ?= _); try discriminate. intros _.
    split; [reflexivity|discriminate].
Qed.

Lemma le_int_not_gt (a : Float.t) (n : Z) :
  Float.le_int a n = true -> Float.gt_int a n = false.
Proof.
  unfold Float.gt_int, Float.le_int.
  destruct (Float.compare_int a n) as [[| |]|]; try discriminate; reflexivity.
Qed.

Lemma zipf_positive (a : Float.t) (w : World) :
  Float.gt_int a 1 = true ->
  exists z, NpRandom.zipf a w = (Ok z, W.set_cursor (S (cursor w)) w) /\ 1 <= z.
Proof.
  intros Ha. unfold NpRandom.zipf. rewrite Ha. munfold.
  eexists; split; [reflexivity|lia].
Qed.

Lemma zipf_invalid (a : Float.t) (w : World) :
  Float.gt_int a 1 = false -> NpRandom.zipf a w = (Raise Py.ValueError, w).
Proof. intros Ha. unfold NpRandom.zipf. rewrite Ha. reflexivity. Qed.

Lemma power_unit_interval (a : Float.t) (w : World) :
  Float.gt_int a 0 = true ->
  exists m e,
    NpRandom.power a w
    = (Ok (Float.fin false m e), W.set_cursor (S (S (cursor w))) w) /\
    0 <= m <= 2 ^ 53 /\ -1074 <= e <= -53.
Proof.
  intros Ha. destruct (gt_int_not_le a 0 Ha) as [Hle Hnan].
  unfold NpRandom.power. rewrite Hle. munfold.
  destruct a as [|neg|neg m0 e0]; [contradiction| |];
    (do 2 eexists; split;
     [destruct w; reflexivity|];
     match goal with |- context [?u mod (2 ^ 53 + 1)] =>
       pose proof (Z.mod_pos_bound u (2 ^ 53 + 1) ltac:(lia)) end;
     match goal with |- context [?v mod 1022] =>
       pose proof (Z.mod_pos_bound v 1022 ltac:(lia)) end;
     lia).
Qed.

Lemma power_invalid (a : Float.t) (w : World) :
  Float.le_int a 0 = true -> NpRandom.power a w = (Raise Py.ValueError, w).
Proof. intros Ha. unfold NpRandom.power. rewrite Ha. reflexivity. Qed.

(** ** Key numbers stay in the live range *)

(** C1, as stated, fails for the power-law generator on a live range above
    [2^53] keys: with [curr_items = 2^53 + 4], [curr_deletes = 0] and the
    draw [1.0], the product [r * (curr_items - curr_deletes - 1)] is
    computed on the float nearest to [2^53 + 3], which is [2^53 + 4], and
    the returned key number equals [curr_items]. *)
Lemma C1_power_rounding_counterexample :
  let c := ContinuousKey.mk "" "" (Float.of_int 2) in
  let w := WorkloadGen.initial_world default_settings
             (replay [9007199254740992; 0])
             (fun _ => NoLatency) (fun _ => false) in
  0 < 9007199254740996 /\
  exists k w',
    PowerKey.next c 9007199254740996 0 w = (Ok k, w') /\
    Key.number k = 9007199254740996 /\
    ~ (Key.number k < 9007199254740996).
Proof.
  cbv zeta. split; [lia|].
  do 2 eexists. split; [vm_compute; reflexivity|].
  split; [reflexivity|]. cbn [Key.number]. lia.
Qed.

(** C1, amended: with [curr_deletes < curr_items], for every state of the
    random oracle, [UniformKey.next] returns a key whose number is at least
    [curr_deletes] and below [curr_items]; so does [ZipfKey.next] for a
    parameter [alpha > 1], a Zipf draw that lands at or below [curr_deletes]
    yielding [curr_items - 1]; so does [PowerKey.next] for a parameter
    [alpha > 0] and a live range of at most [2^53] keys.  For [alpha <= 1]
    the Zipfian generator raises [ValueError], and for [alpha <= 0] the
    power-law generator does, both before any draw. *)
Theorem C1_generators_stay_in_live_range
    (u : UniformKey.t) (c : ContinuousKey.t) (curr_items curr_deletes : Z)
    (w : World) :
  curr_deletes < curr_items ->
  (exists k w', UniformKey.next u curr_items curr_deletes w = (Ok k, w') /\
                curr_deletes <= Key.number k < curr_items) /\
  (Float.gt_int (ContinuousKey.alpha c) 1 = true ->
   exists z w1 k w',
      NpRandom.zipf (ContinuousKey.alpha c) w = (Ok z, w1) /\
      ZipfKey.next c curr_items curr_deletes w = (Ok k, w') /\
      curr_deletes <= Key.number k < curr_items /\
      (curr_items - z <= curr_deletes -> Key.number k = curr_items - 1) /\
      (curr_deletes < curr_items - z -> Key.number k = curr_items - z)) /\
  (Float.le_int (ContinuousKey.alpha c) 1 = true ->
   ZipfKey.next c curr_items curr_deletes w = (Raise Py.ValueError, w)) /\
  (Float.gt_int (ContinuousKey.alpha c) 0 = true ->
   curr_items - curr_deletes <= 2 ^ 53 ->
   exists k w', PowerKey.next c curr_items curr_deletes w = (Ok k, w') /\
                curr_deletes <= Key.number k < curr_items) /\
  (Float.le_int (ContinuousKey.alpha c) 0 = true ->
   PowerKey.next c curr_items curr_deletes w = (Raise Py.ValueError, w)).
Proof.
  intros Hlt. split; [|split; [|split; [|split]]].
  - destruct (randrange_ok curr_deletes curr_items w Hlt) as (v & E & Hv).
    unfold UniformKey.next, bind. rewrite E. unfold ret.
    do 2 eexists. split; [reflexivity|]. simpl. exact Hv.
  - intros Ha. destruct (zipf_positive _ w Ha) as (z & E & Hz).
    unfold ZipfKey.next, bind. rewrite E. unfold ret.
    exists z. do 3 eexists. split; [reflexivity|]. split; [reflexivity|].
    simpl. destruct (curr_items - z <=? curr_deletes) eqn:Hc.
    + apply Z.leb_le in Hc. repeat split; lia.
    + apply Z.leb_gt in Hc. repeat split; lia.
  - intros Ha. apply le_int_not_gt in Ha.
    unfold ZipfKey.next, bind. rewrite zipf_invalid by exact Ha. reflexivity.
  - intros Ha Hsize.
    destruct (power_unit_interval _ w Ha) as (m & e & E & Hm & He).
    destruct (unit_product_trunc m e (curr_items - curr_deletes - 1))
      as (k & Hk & Hpos & _); [exact Hm|lia|lia|].
    unfold PowerKey.next. unfold bind at 1. rewrite E.
    unfold bind at 1. rewrite float_of_int_small by lia.
    unfold bind at 1. rewrite (int_of_float_trunc _ k) by exact Hk.
    unfold ret. do 2 eexists. split; [reflexivity|].
    cbn [Key.number]. lia.
  - intros Ha. unfold PowerKey.next, bind.
    rewrite power_invalid by exact Ha. reflexivity.
Qed.

Lemma C1_witness :
  (exists k w',
     UniformKey.next (UniformKey.mk "" "") 10 3
       (mkWorld (fun _ => 12) 0 None 10 3 0 0 0 [] (fun _ => NoLatency) 0
                (fun _ => false) 0 [] [] []) = (Ok k, w') /\
     3 <= Key.number k < 10) /\
  (exists k w',
     PowerKey.next (ContinuousKey.mk "" "" (Float.of_int 2)) 10 3
       (mkWorld (fun _ => 12) 0 None 10 3 0 0 0 [] (fun _ => NoLatency) 0
                (fun _ => false) 0 [] [] []) = (Ok k, w') /\
     3 <= Key.number k < 10).
Proof.
  destruct (C1_generators_stay_in_live_range
              (UniformKey.mk "" "") (ContinuousKey.mk "" "" (Float.of_int 2))
              10 3
              (mkWorld (fun _ => 12) 0 None 10 3 0 0 0 [] (fun _ => NoLatency) 0
                       (fun _ => false) 0 [] [] []))
    as (Hu & _ & _ & Hp & _); [lia|].
  split; [exact Hu|].
  apply Hp; [reflexivity|vm_compute; discriminate].
Defined.

(** ** Working set *)

Lemma randint_ok (a b : Z) (w : World) :
  a <= b ->
  exists v,
    Random.randint a b w = (Ok v, W.set_cursor (S (cursor w)) w) /\
    a <= v <= b.
Proof.
  intros Hle. unfold Random.randint.
  destruct (randrange_ok a (b + 1) w) as (v & E & Hv); [lia|].
  exists v. split; [exact E|lia].
Qed.

(** With [working_set_access = 100] every draw is a hit, and a returned key
    lies in the hot suffix. *)
Lemma WorkingSetKey_access_100 (g : WorkingSetKey.t) (curr_items curr_deletes : Z)
    (w w' : World) (k : Key.t) :
  WorkingSetKey.working_set_access g = 100 ->
  WorkingSetKey.next g curr_items curr_deletes w = (Ok k, w') ->
  curr_items - WorkingSetKey.num_hot_items g <= Key.number k < curr_items /\
  Key.hit k = true.
Proof.
  intros Ha H. unfold WorkingSetKey.next, bind in H.
  destruct (randint_ok 0 100 w) as (v & E & Hv); [lia|].
  rewrite E, Ha in H.
  assert (Hb : (v <=? 100) = true) by (apply Z.leb_le; lia).
  rewrite Hb in H.
  destruct (Random.randrange _ _ _) as [[n|e] w1] eqn:E1; [|discriminate].
  apply randrange_inv in E1. unfold ret in H. inversion H; subst. simpl. tauto.
Qed.

(** With a positive hot set, [working_set_access = 100] always returns. *)
Lemma WorkingSetKey_access_100_returns (g : WorkingSetKey.t)
    (curr_items curr_deletes : Z) (w : World) :
  WorkingSetKey.working_set_access g = 100 ->
  0 < WorkingSetKey.num_hot_items g ->
  exists k w', WorkingSetKey.next g curr_items curr_deletes w = (Ok k, w').
Proof.
  intros Ha Hh. unfold WorkingSetKey.next, bind.
  destruct (randint_ok 0 100 w) as (v & E & Hv); [lia|].
  rewrite E, Ha.
  assert (Hb : (v <=? 100) = true) by (apply Z.leb_le; lia).
  rewrite Hb.
  destruct (randrange_ok (curr_items - WorkingSetKey.num_hot_items g) curr_items
              (W.set_cursor (S (cursor w)) w)) as (n & E1 & _); [lia|].
  rewrite E1. unfold ret. eauto.
Qed.

(** C2: with [working_set_access = 0] the comparison
    [random.randint(0, 100) <= working_set_access] still succeeds for the
    draw 0: the key is then taken from the hot suffix and flagged as a hit.
    Here [items = 100], [working_set = 10], the live range is [0, 100), and
    the returned key is number 95 with [hit = True]. *)
Theorem C2_access_zero_draw_zero_hits :
  let ws := WorkloadSettings.mk 100 1 0 0 0 0 0 None None 10 0 0 0 Float.zero Float.zero 1
                                "" "string" 0 0 0 in
  let g := WorkingSetKey.init ws "" in
  let w := WorkloadGen.initial_world ws (replay [0; 5]) (fun _ => NoLatency)
                                     (fun _ => false) in
  WorkingSetKey.working_set_access g = 0 /\
  WorkingSetKey.num_hot_items g = 10 /\
  exists w',
    WorkingSetKey.next g 100 0 w = (Ok (Key.mk 95 "" "" true), w').
Proof.
  cbv zeta. split; [reflexivity|]. split; [reflexivity|].
  eexists. vm_compute. reflexivity.
Qed.

(** ** Empty live range *)




(** ** CAS-update shards *)

Ltac wsimpl :=
  unfold W.set_cursor, W.set_np_seed, W.set_curr_items, W.set_deleted_items,
    W.set_curr_ops, W.set_current_hot_load_start, W.set_timer_elapse,
    W.add_lock, W.set_client_calls, W.set_shutdown_polls, W.add_sample,
    W.add_dump, W.add_log in *;
  cbn [draws cursor np_seed curr_items deleted_items curr_ops
       current_hot_load_start timer_elapse lock_log client client_calls
       shutdown shutdown_polls reservoir dumps log] in *.







(** ** Moving working set *)

Lemma c_ulong_small (v : Z) : 0 <= v < 2 ^ 64 -> Py.c_ulong v = v.
Proof. intros H. unfold Py.c_ulong. apply Z.mod_small. exact H. Qed.








(** ** Sequential load *)

Lemma In_range_from (k : nat) (start step n : Z) :
  In n (Py.range_from k start step) <->
  exists i : nat, (i < k)%nat /\ n = start + Z.of_nat i * step.
Proof.
  revert start. induction k as [|k IH]; intros start; cbn [Py.range_from In].
  - split; [tauto|]. intros (i & Hi & _). lia.
  - rewrite IH. split.
    + intros [<-|(i & Hi & ->)].
      * exists 0%nat. split; lia.
      * exists (S i). split; lia.
    + intros ([|i] & Hi & ->).
      * left. lia.
      * right. exists i. split; lia.
Qed.

Lemma length_range_from (k : nat) (start step : Z) :
  List.length (Py.range_from k start step) = k.
Proof.
  revert start. induction k as [|k IH]; intros start; cbn [Py.range_from List.length].
  - reflexivity.
  - rewrite IH. reflexivity.
Qed.

Lemma nth_range_from (k i : nat) (start step : Z) :
  (i < k)%nat -> nth i (Py.range_from k start step) 0 = start + Z.of_nat i * step.
Proof.
  revert i start. induction k as [|k IH]; intros i start Hi; [lia|].
  cbn [Py.range_from]. destruct i as [|i]; cbn [nth].
  - lia.
  - rewrite IH by lia. lia.
Qed.

Lemma NoDup_range_from (k : nat) (start step : Z) :
  0 < step -> NoDup (Py.range_from k start step).
Proof.
  intros Hs. revert start. induction k as [|k IH]; intros start;
    cbn [Py.range_from]; constructor.
  - rewrite In_range_from. intros (i & _ & Hi). nia.
  - apply IH.
Qed.

Lemma range_len_spec (start stop step : Z) (i : nat) :
  0 < step ->
  ((i < Py.range_len start stop step)%nat <-> start + Z.of_nat i * step < stop).
Proof.
  intros Hs. unfold Py.range_len.
  set (a := stop - start).
  replace (stop - start + step - 1) with (a + step - 1) by lia.
  destruct (Z_le_gt_dec a 0) as [Ha|Ha].
  - assert ((a + step - 1) / step <= 0).
    { assert ((a + step - 1) / step < 1); [|lia].
      apply Z.div_lt_upper_bound; lia. }
    split; [lia|]. intros. nia.
  - assert (0 <= (a + step - 1) / step) by (apply Z.div_pos; lia).
    split.
    + intros Hi.
      assert (H1 : Z.of_nat i + 1 <= (a + step - 1) / step) by lia.
      pose proof (Z.mul_div_le (a + step - 1) step Hs). nia.
    + intros Hi.
      assert (H1 : Z.of_nat i < (a + step - 1) / step); [|lia].
      assert (Z.of_nat i + 1 <= (a + step - 1) / step); [|lia].
      apply Z.div_le_lower_bound; [lia|]. nia.
Qed.

Lemma sequential_numbers_range (ws : WorkloadSettings.t) (prefix : string)
    (sid : Z) :
  0 < WorkloadSettings.workers ws ->
  SequentialKey.iter (SequentialKey.mk sid ws prefix)
  = Some (map (fun n => Key.mk n prefix (WorkloadSettings.key_fmtr ws) false)
              (Py.range_from
                 (Py.range_len sid (WorkloadSettings.items ws)
                               (WorkloadSettings.workers ws))
                 sid (WorkloadSettings.workers ws))) /\
  sequential_numbers ws prefix sid
  = Py.range_from
      (Py.range_len sid (WorkloadSettings.items ws) (WorkloadSettings.workers ws))
      sid (WorkloadSettings.workers ws).
Proof.
  intros HW.
  assert (E : SequentialKey.iter (SequentialKey.mk sid ws prefix)
              = Some (map (fun n => Key.mk n prefix
                                      (WorkloadSettings.key_fmtr ws) false)
                          (Py.range_from
                             (Py.range_len sid (WorkloadSettings.items ws)
                                           (WorkloadSettings.workers ws))
                             sid (WorkloadSettings.workers ws)))).
  { unfold SequentialKey.iter, Py.range. cbn [SequentialKey.sid SequentialKey.ws
      SequentialKey.prefix].
    assert (H0 : (WorkloadSettings.workers ws =? 0) = false)
      by (apply Z.eqb_neq; lia).
    assert (H1 : (0 <? WorkloadSettings.workers ws) = true)
      by (apply Z.ltb_lt; lia).
    rewrite H0, H1. reflexivity. }
  split; [exact E|].
  unfold sequential_numbers. rewrite E, map_map. cbn [Key.number].
  apply map_id.
Qed.

Lemma In_sequential_numbers (ws : WorkloadSettings.t) (prefix : string)
    (sid n : Z) :
  0 <= sid < WorkloadSettings.workers ws ->
  (In n (sequential_numbers ws prefix sid) <->
   0 <= n < WorkloadSettings.items ws /\ n mod WorkloadSettings.workers ws = sid).
Proof.
  intros Hsid. set (W := WorkloadSettings.workers ws) in *.
  destruct (sequential_numbers_range ws prefix sid ltac:(lia)) as [_ ->].
  fold W. rewrite In_range_from. split.
  - intros (i & Hi & ->). apply range_len_spec in Hi; [|lia].
    split; [nia|].
    rewrite Z.mod_add by lia. apply Z.mod_small. lia.
  - intros (Hn & Hm).
    pose proof (Z.div_mod n W ltac:(lia)) as Hdm.
    assert (0 <= n / W) by (apply Z.div_pos; lia).
    exists (Z.to_nat (n / W)). split.
    + apply range_len_spec; [lia|]. rewrite Z2Nat.id by lia. nia.
    + rewrite Z2Nat.id by lia. lia.
Qed.

Lemma NoDup_flat_map {A B} (f : A -> list B) (l : list A) :
  NoDup l ->
  (forall a, In a l -> NoDup (f a)) ->
  (forall a a' b, In a l -> In a' l -> a <> a' -> In b (f a) -> ~ In b (f a')) ->
  NoDup (flat_map f l).
Proof.
  induction 1 as [|a l Ha Hl IH]; intros Hnd Hdisj; cbn [flat_map].
  - constructor.
  - apply NoDup_app.
    + apply Hnd. left. reflexivity.
    + apply IH.
      * intros a' Ha'. apply Hnd. right. exact Ha'.
      * intros a1 a2 b H1 H2. apply Hdisj; right; assumption.
    + intros b Hb Hin. apply in_flat_map in Hin. destruct Hin as (a' & Ha' & Hb').
      apply (Hdisj a a' b); try assumption.
      * left. reflexivity.
      * right. exact Ha'.
      * intros ->. contradiction.
Qed.

Lemma In_range_upto (n x : Z) : In x (range_upto n) <-> 0 <= x < n.
Proof.
  unfold range_upto. rewrite in_map_iff. split.
  - intros (i & <- & Hi). apply in_seq in Hi. lia.
  - intros Hx. exists (Z.to_nat x). split; [lia|]. apply in_seq. lia.
Qed.

Lemma NoDup_range_upto (n : Z) : NoDup (range_upto n).
Proof.
  unfold range_upto. apply Finite.Injective_map_NoDup.
  - intros a b. apply Nat2Z.inj.
  - apply seq_NoDup.
Qed.

(** C10: for [workers = W >= 1] and [items >= 0], the worker [sid] of
    [0 .. W-1] yields the progression [sid, sid + W, sid + 2W, ...] below
    [items], without repetition; the sequences of two distinct workers share
    no key number; and the sequences of all the workers together are a
    rearrangement of [0, items): every key number is produced exactly
    once. *)
Theorem C10_sequential_keys_partition
    (ws : WorkloadSettings.t) (prefix : string) :
  let W := WorkloadSettings.workers ws in
  let items := WorkloadSettings.items ws in
  1 <= W -> 0 <= items ->
  (forall sid, 0 <= sid < W ->
     exists keys,
       SequentialKey.iter (SequentialKey.mk sid ws prefix) = Some keys /\
       map Key.number keys = sequential_numbers ws prefix sid /\
       NoDup (sequential_numbers ws prefix sid) /\
       (forall i : nat, (i < List.length keys)%nat ->
          nth i (sequential_numbers ws prefix sid) 0 = sid + Z.of_nat i * W) /\
       (forall n, In n (sequential_numbers ws prefix sid) <->
                  0 <= n < items /\ n mod W = sid)) /\
  (forall s1 s2 n, 0 <= s1 < W -> 0 <= s2 < W -> s1 <> s2 ->
     In n (sequential_numbers ws prefix s1) ->
     In n (sequential_numbers ws prefix s2) -> False) /\
  Permutation (all_sequential_numbers ws prefix) (range_upto items).
Proof.
  intros W items HW Hitems. split; [|split].
  - intros sid Hsid.
    destruct (sequential_numbers_range ws prefix sid ltac:(lia)) as [E En].
    eexists. split; [exact E|].
    split; [|split; [|split]].
    + rewrite En, map_map. cbn [Key.number]. apply map_id.
    + rewrite En. apply NoDup_range_from. lia.
    + intros i Hi. rewrite En.
      rewrite length_map, length_range_from in Hi.
      apply nth_range_from. exact Hi.
    + intros n. apply In_sequential_numbers. exact Hsid.
  - intros s1 s2 n H1 H2 Hne Hin1 Hin2.
    apply In_sequential_numbers in Hin1; [|exact H1].
    apply In_sequential_numbers in Hin2; [|exact H2].
    fold W in Hin1, Hin2. lia.
  - apply NoDup_Permutation.
    + unfold all_sequential_numbers. apply NoDup_flat_map.
      * apply NoDup_range_upto.
      * intros sid Hsid. apply In_range_upto in Hsid.
        destruct (sequential_numbers_range ws prefix sid ltac:(lia)) as [_ ->].
        apply NoDup_range_from. lia.
      * intros s1 s2 n H1 H2 Hne Hin1 Hin2.
        apply In_range_upto in H1. apply In_range_upto in H2.
        apply In_sequential_numbers in Hin1; [|exact H1].
        apply In_sequential_numbers in Hin2; [|exact H2].
        lia.
    + apply NoDup_range_upto.
    + intros n. unfold all_sequential_numbers.
      rewrite in_flat_map, In_range_upto. split.
      * intros (sid & Hsid & Hin). apply In_range_upto in Hsid.
        apply In_sequential_numbers in Hin; [|exact Hsid]. tauto.
      * intros Hn. exists (n mod W). fold items in Hn.
        assert (Hm : 0 <= n mod W < W) by (apply Z.mod_pos_bound; lia).
        split; [apply In_range_upto; exact Hm|].
        apply In_sequential_numbers; [exact Hm|]. fold W items. tauto.
Qed.

Lemma C10_witness :
  Permutation
    (all_sequential_numbers
       (WorkloadSettings.mk 10 3 0 0 0 0 0 None None 100 100 0 0 Float.zero Float.zero 1
                            "" "string" 0 0 0) "p")
    (range_upto 10).
Proof.
  apply (C10_sequential_keys_partition
           (WorkloadSettings.mk 10 3 0 0 0 0 0 None None 100 100 0 0 Float.zero Float.zero 1
                                "" "string" 0 0 0) "p"); simpl; lia.
Defined.

(** ** Decimal key strings *)

Lemma str_length_append (s1 s2 : string) :
  String.length (s1 ++ s2) = (String.length s1 + String.length s2)%nat.
Proof.
  induction s1 as [|c s1 IH]; cbn [String.append String.length].
  - reflexivity.
  - rewrite IH. reflexivity.
Qed.

Lemma str_append_assoc (s1 s2 s3 : string) :
  s1 ++ s2 ++ s3 = (s1 ++ s2) ++ s3.
Proof.
  induction s1 as [|c s1 IH]; cbn [String.append].
  - reflexivity.
  - rewrite IH. reflexivity.
Qed.

Lemma str_length_repeat_char (k : nat) (c : ascii) :
  String.length (Py.str_repeat k (String c "")) = k.
Proof.
  induction k as [|k IH]; cbn [Py.str_repeat String.append String.length].
  - reflexivity.
  - rewrite IH. reflexivity.
Qed.

Lemma str_drop_prefix (p s : string) :
  Py.str_drop (String.length p + 1) (p ++ "-" ++ s) = s.
Proof.
  induction p as [|c p IH]; cbn [String.length String.append Nat.add Py.str_drop].
  - reflexivity.
  - exact IH.
Qed.

Lemma to_uint_nonnil (n : N) : N.to_uint n <> Decimal.Nil.
Proof.
  destruct n as [|p]; cbn [N.to_uint].
  - discriminate.
  - apply DecimalPos.Unsigned.to_uint_nonnil.
Qed.

(** Parsing a padded digit string: the zeros in front do not count. *)
Lemma parse_zero_padded (k : nat) (d : Decimal.uint) :
  d <> Decimal.Nil ->
  option_map N.of_uint
    (DecimalString.NilZero.uint_of_string
       (Py.str_repeat k "0" ++ DecimalString.NilZero.string_of_uint d))
  = Some (N.of_uint d).
Proof.
  intros Hd.
  assert (Hs : DecimalString.NilZero.string_of_uint d
               = DecimalString.NilEmpty.string_of_uint d)
    by (destruct d; try reflexivity; contradiction).
  assert (Hne : DecimalString.NilEmpty.string_of_uint d <> "")
    by (destruct d; try discriminate; contradiction).
  rewrite Hs.
  assert (Hpad : forall k,
             option_map N.of_uint
               (DecimalString.NilEmpty.uint_of_string
                  (Py.str_repeat k "0" ++ DecimalString.NilEmpty.string_of_uint d))
             = Some (N.of_uint d)).
  { clear k. induction k as [|k IH]; cbn [Py.str_repeat String.append].
    - rewrite DecimalString.NilEmpty.usu. reflexivity.
    - cbn [DecimalString.NilEmpty.uint_of_string].
      destruct (DecimalString.NilEmpty.uint_of_string _) as [d'|]; [|discriminate].
      cbn [uint_of_char option_map] in *. exact IH. }
  specialize (Hpad k).
  destruct (Py.str_repeat k "0" ++ DecimalString.NilEmpty.string_of_uint d)
    as [|c r] eqn:E.
  - destruct k; cbn [Py.str_repeat String.append] in E;
      [contradiction | discriminate].
  - exact Hpad.
Qed.

Lemma int_of_str_zero_padded (k : nat) (n : Z) :
  0 <= n ->
  Py.int_of_str (Py.str_repeat k "0" ++ Py.dec_digits n) = Some n.
Proof.
  intros Hn. unfold Py.int_of_str, Py.dec_digits.
  pose proof (parse_zero_padded k (N.to_uint (Z.to_N n))
                (to_uint_nonnil (Z.to_N n))) as H.
  destruct (DecimalString.NilZero.uint_of_string _) as [d|]; [|discriminate].
  cbn [option_map] in *. inversion H as [H1].
  rewrite H1, DecimalN.Unsigned.of_to. f_equal. lia.
Qed.

(** C9: for a number [n >= 0] the decimal formatter returns the digits of
    [n] with zeros in front up to 12 characters, after ["prefix-"] when the
    prefix is not empty; the digit portion reads back as [n]. *)
Theorem C9_decimal_fmtr_roundtrip (number : Z) (prefix : string) :
  0 <= number ->
  let digits := digit_portion prefix (decimal_fmtr number prefix) in
  decimal_fmtr number prefix
    = (if (prefix =? "")%string then "" else prefix ++ "-") ++ digits /\
  digits = Py.str_repeat (12 - String.length (Py.dec_digits number)) "0"
           ++ Py.dec_digits number /\
  String.length digits = Nat.max 12 (String.length (Py.dec_digits number)) /\
  Py.int_of_str (Py.dec_digits number) = Some number /\
  Py.int_of_str digits = Some number.
Proof.
  intros Hn digits.
  assert (Hfmt : Py.fmt_0d 12 number
                 = Py.str_repeat (12 - String.length (Py.dec_digits number)) "0"
                   ++ Py.dec_digits number).
  { unfold Py.fmt_0d.
    assert (Hb : (number <? 0) = false) by (apply Z.ltb_ge; lia).
    rewrite Hb. reflexivity. }
  assert (Hdig : digits = Py.fmt_0d 12 number).
  { unfold digits, digit_portion, decimal_fmtr.
    destruct (prefix =? "")%string; [reflexivity|]. apply str_drop_prefix. }
  split; [|split; [|split; [|split]]].
  - rewrite Hdig. unfold decimal_fmtr.
    destruct (prefix =? "")%string; [reflexivity|].
    apply str_append_assoc.
  - rewrite Hdig. exact Hfmt.
  - rewrite Hdig, Hfmt, str_length_append, str_length_repeat_char. lia.
  - apply (int_of_str_zero_padded 0 number Hn).
  - rewrite Hdig, Hfmt. apply int_of_str_zero_padded. exact Hn.
Qed.

Lemma C9_witness :
  decimal_fmtr 72438963 "38d7cd" = "38d7cd-000072438963" /\
  Py.int_of_str (digit_portion "38d7cd" (decimal_fmtr 72438963 "38d7cd"))
  = Some 72438963.
Proof.
  split; [reflexivity|].
  apply (C9_decimal_fmtr_roundtrip 72438963 "38d7cd"). lia.
Defined.

(** ** Determinism of key strings and string documents *)

(** C5: a key numbered 8846391963 with the formatter [hex] has one string
    when the number is a Python [int], as the generators of new and
    existing keys produce it, and another when it is the [numpy.int64] that
    [KeyForCASUpdate.next] stores: the product with [PRIME] wraps around at
    64 bits before [int()] is applied.  The two keys agree on number,
    prefix and formatter, and their strings differ. *)
Theorem C5_int64_number_changes_hex_key {sp : Spooky} :
  let k_int := Key.mk 8846391963 "" "hex" false in
  let k_int64 := Key.make 8846391963 "" "hex" false Py.NpInt64 in
  Key.number k_int = Key.number k_int64 /\
  Key.prefix k_int = Key.prefix k_int64 /\
  Key.fmtr k_int = Key.fmtr k_int64 /\
  Key.string k_int = "2fee855a80043100427604c1db1360e7bd10" /\
  Key.string k_int64 = "0a890b16d8921f33bc31f4ff45bbc95bc961" /\
  Key.string k_int <> Key.string k_int64 /\
  NewOrderedKey.next (NewOrderedKey.mk "" "hex") 8846391963 = k_int /\
  (exists w',
     KeyForCASUpdate.next (KeyForCASUpdate.mk 1 "" "hex") 0 8846391964
       (WorkloadGen.initial_world default_settings (replay [8846391963])
          (fun _ => NoLatency) (fun _ => false))
     = (Ok k_int64, w')).
Proof.
  cbv zeta.
  split; [reflexivity|]. split; [reflexivity|]. split; [reflexivity|].
  split; [vm_compute; reflexivity|]. split; [vm_compute; reflexivity|].
  split; [vm_compute; discriminate|]. split; [reflexivity|].
  eexists. vm_compute. reflexivity.
Qed.

(** Apart from the type of the number, the string form of a key depends on
    its number, prefix and formatter only, not on the hit flag;
    [String.next] on two such keys, called in any two states of the world
    (any state of the random generators and of the shared cells), returns
    the same document and leaves the world as it found it; the alphabet,
    and so every field sliced from it, is the same. *)
Lemma Key_string_and_String_next_are_functions
    {sp : Spooky} (gen : StringDoc.t) (k1 k2 : Key.t) (w1 w2 : World) :
  Key.number k1 = Key.number k2 ->
  Key.number_type k1 = Key.number_type k2 ->
  Key.prefix k1 = Key.prefix k2 ->
  Key.fmtr k1 = Key.fmtr k2 ->
  Key.string k1 = Key.string k2 /\
  (exists doc,
      StringDoc.next gen k1 w1 = (Ok doc, w1) /\
      StringDoc.next gen k2 w2 = (Ok doc, w2)) /\
  StringDoc.build_alphabet (Key.string k1)
    = StringDoc.build_alphabet (Key.string k2) /\
  Document.build_name (StringDoc.build_alphabet (Key.string k1))
    = Document.build_name (StringDoc.build_alphabet (Key.string k2)) /\
  Document.build_email (StringDoc.build_alphabet (Key.string k1))
    = Document.build_email (StringDoc.build_alphabet (Key.string k2)) /\
  Document.build_city (StringDoc.build_alphabet (Key.string k1))
    = Document.build_city (StringDoc.build_alphabet (Key.string k2)) /\
  Document.build_realm (StringDoc.build_alphabet (Key.string k1))
    = Document.build_realm (StringDoc.build_alphabet (Key.string k2)) /\
  Document.build_country (StringDoc.build_alphabet (Key.string k1))
    = Document.build_country (StringDoc.build_alphabet (Key.string k2)) /\
  Document.build_county (StringDoc.build_alphabet (Key.string k1))
    = Document.build_county (StringDoc.build_alphabet (Key.string k2)) /\
  Document.build_street (StringDoc.build_alphabet (Key.string k1))
    = Document.build_street (StringDoc.build_alphabet (Key.string k2)).
Proof.
  intros Hn Ht Hp Hf.
  assert (Hs : Key.string k1 = Key.string k2).
  { unfold Key.string. rewrite Hn, Ht, Hp, Hf. reflexivity. }
  split; [exact Hs|]. split.
  - unfold StringDoc.next, ret. rewrite Hs. eexists. split; reflexivity.
  - rewrite Hs. repeat split.
Qed.

Example Key_string_ignores_the_hit_flag :
  @Key.string example_spooky (Key.mk 7 "a" "hash" true)
  = @Key.string example_spooky (Key.mk 7 "a" "hash" false).
Proof.
  apply (@Key_string_and_String_next_are_functions example_spooky
           (StringDoc.mk 100) (Key.mk 7 "a" "hash" true)
           (Key.mk 7 "a" "hash" false)
           (WorkloadGen.initial_world default_settings (replay [1])
              (fun _ => NoLatency) (fun _ => false))
           (WorkloadGen.initial_world default_settings (replay [2])
              (fun _ => NoLatency) (fun _ => false)));
    reflexivity.
Qed.

(** The randomized synthesizer, by contrast, follows the oracle. *)
Example IncompressibleString_depends_on_draws :
  let next d :=
    @IncompressibleString.next example_dictionary (StringDoc.mk 4)
      (Key.mk 0 "" "" false)
      (WorkloadGen.initial_world default_settings (replay [d])
         (fun _ => NoLatency) (fun _ => false)) in
  fst (next 0) = Ok "qwer" /\ fst (next 3) = Ok "rtyu".
Proof. split; vm_compute; reflexivity. Qed.

(** ** Batches of the key-value worker *)

Lemma sampling_frame_refl (w : World) : sampling_frame w w.
Proof. unfold sampling_frame. repeat split. Qed.

Lemma sampling_frame_trans (w1 w2 w3 : World) :
  sampling_frame w1 w2 -> sampling_frame w2 w3 -> sampling_frame w1 w3.
Proof. unfold sampling_frame. intuition congruence. Qed.

Lemma preserves_ret {A} (a : A) : preserves (ret a).
Proof. intros w r w' H. inversion H; subst. apply sampling_frame_refl. Qed.

Lemma preserves_raise {A} (e : Py.Exn) : preserves (@raise A e).
Proof. intros w r w' H. inversion H; subst. apply sampling_frame_refl. Qed.

Lemma preserves_get {A} (proj : World -> A) : preserves (get proj).
Proof. intros w r w' H. inversion H; subst. apply sampling_frame_refl. Qed.

Lemma preserves_bind {A B} (m : M A) (f : A -> M B) :
  preserves m -> (forall a, preserves (f a)) -> preserves (bind m f).
Proof.
  intros Hm Hf w r w' H. unfold bind in H.
  destruct (m w) as [[a|e] w1] eqn:E.
  - apply (sampling_frame_trans w w1 w'); [exact (Hm _ _ _ E)|exact (Hf _ _ _ _ H)].
  - inversion H; subst. exact (Hm _ _ _ E).
Qed.

Lemma preserves_next_raw : preserves next_raw.
Proof.
  intros w r w' H. unfold next_raw in H. inversion H; subst.
  unfold sampling_frame. wsimpl. repeat split.
Qed.

Lemma preserves_set_timer_elapse (v : Z) : preserves (modify (W.set_timer_elapse v)).
Proof.
  intros w r w' H. unfold modify in H. inversion H; subst.
  unfold sampling_frame. wsimpl. repeat split.
Qed.

Lemma preserves_set_current_hot_load_start (v : Z) :
  preserves (modify (W.set_current_hot_load_start v)).
Proof.
  intros w r w' H. unfold modify in H. inversion H; subst.
  unfold sampling_frame. wsimpl. repeat split.
Qed.

Lemma preserves_if {A} (b : bool) (m1 m2 : M A) :
  preserves m1 -> preserves m2 -> preserves (if b then m1 else m2).
Proof. destruct b; auto. Qed.

Ltac frame := repeat (intros; first
  [ apply preserves_bind | apply preserves_if | apply preserves_ret
  | apply preserves_raise | apply preserves_get | apply preserves_next_raw
  | apply preserves_set_timer_elapse
  | apply preserves_set_current_hot_load_start ]).

Lemma preserves_randrange (a b : Z) : preserves (Random.randrange a b).
Proof. unfold Random.randrange. frame. Qed.

Lemma preserves_randint (a b : Z) : preserves (Random.randint a b).
Proof. apply preserves_randrange. Qed.

Lemma preserves_zipf (a : Float.t) : preserves (NpRandom.zipf a).
Proof. unfold NpRandom.zipf. destruct (Float.gt_int a 1); frame. Qed.

Lemma preserves_power (a : Float.t) : preserves (NpRandom.power a).
Proof.
  unfold NpRandom.power. destruct (Float.le_int a 0); [frame|].
  destruct a; frame.
Qed.

Lemma preserves_float_of_int (n : Z) : preserves (float_of_int n).
Proof. unfold float_of_int. destruct (Float.of_int n); frame. Qed.

Lemma preserves_int_of_float (x : Float.t) : preserves (int_of_float x).
Proof.
  unfold int_of_float. destruct (Float.trunc x); [frame|]. destruct x; frame.
Qed.

Lemma preserves_shuffle {A} (l : list A) : preserves (NpRandom.shuffle l).
Proof. induction l as [|x l IH]; cbn [NpRandom.shuffle]; frame. exact IH. Qed.

Lemma preserves_existing_keys_next (g : ExistingKeys) (ci di : Z) (extra : bool) :
  preserves (existing_keys_next g ci di extra).
Proof.
  destruct g as [g|g|g|g|g]; cbn [existing_keys_next].
  - destruct extra; [|apply preserves_raise].
    unfold MovingWorkingSetKey.next, pymod. frame; apply preserves_randrange.
  - unfold WorkingSetKey.next. apply preserves_bind; [apply preserves_randint|].
    intros draw. destruct (draw <=? _); frame; apply preserves_randrange.
  - unfold PowerKey.next. apply preserves_bind; [apply preserves_power|].
    intros r. apply preserves_bind; [apply preserves_float_of_int|].
    intros x. apply preserves_bind; [apply preserves_int_of_float|]. frame.
  - unfold ZipfKey.next. apply preserves_bind; [apply preserves_zipf|]. frame.
  - unfold UniformKey.next. apply preserves_bind; [apply preserves_randrange|]. frame.
Qed.

Lemma preserves_docs_next {sp : Spooky} {d : Dictionary} (g : Docs) (key : Key.t) :
  preserves (docs_next g key).
Proof.
  destruct g as [g|g]; cbn [docs_next].
  - unfold StringDoc.next. frame.
  - unfold IncompressibleString.next, IncompressibleString.build_string.
    apply preserves_bind; [apply preserves_randint|]. frame.
Qed.

Lemma keys_of_app (f : CbMethod) (a b : list Cmd) :
  keys_of f (a ++ b) = (keys_of f a ++ keys_of f b)%list.
Proof. unfold keys_of. rewrite filter_app, map_app. reflexivity. Qed.

Lemma insert_at_Permutation {A} (n : nat) (x : A) (l : list A) :
  Permutation (x :: l) (insert_at n x l).
Proof.
  revert n. induction l as [|y l IH]; intros [|n]; cbn [insert_at];
    try apply Permutation_refl.
  transitivity (y :: x :: l); [apply perm_swap|].
  apply perm_skip. apply IH.
Qed.

(** [shuffle] always returns, and returns a rearrangement of its argument. *)
Lemma shuffle_Permutation {A} (l : list A) (w : World) :
  exists l' w', NpRandom.shuffle l w = (Ok l', w') /\ Permutation l l'.
Proof.
  revert w. induction l as [|x l IH]; intros w; cbn [NpRandom.shuffle].
  - exists [], w. split; [reflexivity|constructor].
  - destruct (IH w) as (l1 & w1 & E & HP).
    unfold bind, next_raw, ret. rewrite E.
    do 2 eexists. split; [reflexivity|].
    transitivity (x :: l1); [apply perm_skip; exact HP|].
    apply insert_at_Permutation.
Qed.

Section BatchProperties.

Context {sp : Spooky} {dict : Dictionary}.

Variable self : Worker.t.

Let durable (key : Key.t) (doc : string) : Args :=
  ArgsKeyDoc (Key.string key) doc
             (WorkloadSettings.persist_to (Worker.ws self))
             (WorkloadSettings.replicate_to (Worker.ws self)).

Lemma create_args_spec (ci : Z) (w : World) (r : Res (list Cmd)) (w' : World) :
  KVWorker.create_args self ci w = (r, w') ->
  sampling_frame w w' /\
  forall new, r = Ok new ->
    exists doc,
      new = [("set", cb_create,
              durable (NewOrderedKey.next (Worker.new_keys self) ci) doc)].
Proof.
  intros H. unfold KVWorker.create_args, bind in H.
  destruct (docs_next _ _ w) as [[doc|e] w1] eqn:E;
    apply preserves_docs_next in E; inversion H; subst.
  - split; [exact E|]. intros new [= <-]. exists doc. reflexivity.
  - split; [exact E|]. intros new [=].
Qed.

Lemma delete_args_spec (di : Z) (w : World) (r : Res (list Cmd)) (w' : World) :
  KVWorker.delete_args self di w = (r, w') ->
  w' = w /\
  r = Ok [("delete", cb_delete,
           ArgsKey (Key.string
                      (KeyForRemoval.next (Worker.keys_for_removal self) di)))].
Proof.
  intros H. unfold KVWorker.delete_args, ret in H. inversion H. auto.
Qed.

Lemma read_args_spec (ci di : Z) (w : World) (r : Res (list Cmd)) (w' : World) :
  KVWorker.read_args self ci di w = (r, w') ->
  sampling_frame w w' /\
  forall new, r = Ok new ->
    exists key, new = [("get", cb_read, ArgsKey (Key.string key))].
Proof.
  intros H. unfold KVWorker.read_args, bind in H.
  destruct (existing_keys_next _ _ _ _ w) as [[key|e] w1] eqn:E;
    apply preserves_existing_keys_next in E; inversion H; subst.
  - split; [exact E|]. intros new [= <-]. exists key. reflexivity.
  - split; [exact E|]. intros new [=].
Qed.

Lemma update_args_spec (ci di : Z) (w : World) (r : Res (list Cmd)) (w' : World) :
  KVWorker.update_args self ci di w = (r, w') ->
  sampling_frame w w' /\
  forall new, r = Ok new ->
    exists key doc, new = [("set", cb_update, durable key doc)].
Proof.
  intros H. unfold KVWorker.update_args, bind in H.
  destruct (existing_keys_next _ _ _ _ w) as [[key|e] w1] eqn:E;
    apply preserves_existing_keys_next in E.
  - destruct (docs_next _ _ w1) as [[doc|e] w2] eqn:E2;
      apply preserves_docs_next in E2; inversion H; subst;
      (split; [exact (sampling_frame_trans _ _ _ E E2)|]).
    + intros new [= <-]. exists key, doc. reflexivity.
    + intros new [=].
  - inversion H; subst. split; [exact E|]. intros new [=].
Qed.

Lemma modify_args_spec (ci di : Z) (w : World) (r : Res (list Cmd)) (w' : World) :
  KVWorker.modify_args self ci di w = (r, w') ->
  sampling_frame w w' /\
  forall new, r = Ok new ->
    exists key doc,
      new = [("get", cb_read, ArgsKey (Key.string key));
             ("set", cb_update, durable key doc)].
Proof.
  intros H. unfold KVWorker.modify_args, bind in H.
  destruct (existing_keys_next _ _ _ _ w) as [[key|e] w1] eqn:E;
    apply preserves_existing_keys_next in E.
  - destruct (docs_next _ _ w1) as [[doc|e] w2] eqn:E2;
      apply preserves_docs_next in E2; inversion H; subst;
      (split; [exact (sampling_frame_trans _ _ _ E E2)|]).
    + intros new [= <-]. exists key, doc. reflexivity.
    + intros new [=].
  - inversion H; subst. split; [exact E|]. intros new [=].
Qed.

Lemma resolved_nil (ci di : Z) : resolved self [] ci di [].
Proof. unfold resolved. cbn. repeat split. constructor. Qed.

Lemma resolved_cons (op : Op) (ops : list Op) (ci di : Z) (new : list Cmd)
    (blocks : list (list Cmd)) :
  match op with
  | OpC => exists doc,
      new = [("set", cb_create,
              durable (NewOrderedKey.next (Worker.new_keys self) ci) doc)]
  | OpD =>
      new = [("delete", cb_delete,
              ArgsKey (Key.string
                         (KeyForRemoval.next (Worker.keys_for_removal self) di)))]
  | OpR => exists key, new = [("get", cb_read, ArgsKey (Key.string key))]
  | OpU => exists key doc, new = [("set", cb_update, durable key doc)]
  | OpM => exists key doc,
      new = [("get", cb_read, ArgsKey (Key.string key));
             ("set", cb_update, durable key doc)]
  end ->
  resolved self ops (match op with OpC => ci + 1 | _ => ci end)
           (match op with OpD => di + 1 | _ => di end) blocks ->
  resolved self (op :: ops) ci di (new :: blocks).
Proof.
  intros Hnew (HF & Hc & Hd & Hr & Hu). unfold resolved.
  cbn [List.concat]. rewrite !keys_of_app, Hc, Hd, !length_app, Hr, Hu.
  destruct op.
  - destruct Hnew as (doc & ->). split; [|cbn; repeat split].
    constructor; [|exact HF]. unfold durable. cbn. eauto.
  - destruct Hnew as (key & ->). split; [|cbn; repeat split].
    constructor; [|exact HF]. unfold durable. cbn. eauto.
  - destruct Hnew as (key & doc & ->). split; [|cbn; repeat split].
    constructor; [|exact HF]. unfold durable. cbn. eauto.
  - subst new. split; [|cbn; repeat split].
    constructor; [|exact HF]. unfold durable. cbn. eauto.
  - destruct Hnew as (key & doc & ->). split; [|cbn; repeat split; lia].
    constructor; [|exact HF]. unfold durable. cbn. eauto.
Qed.

Lemma resolve_ops_spec (ops : list Op) :
  forall (ci di : Z) (acc : list Cmd) (w : World) (r : Res (list Cmd))
         (w' : World),
    KVWorker.resolve_ops self ops ci di acc w = (r, w') ->
    sampling_frame w w' /\
    forall res, r = Ok res ->
      exists blocks, res = (acc ++ List.concat blocks)%list /\
                     resolved self ops ci di blocks.
Proof.
  induction ops as [|op ops IH]; intros ci di acc w r w' H.
  - cbn [KVWorker.resolve_ops] in H. inversion H; subst.
    split; [apply sampling_frame_refl|].
    intros res [= <-]. exists []. split; [|apply resolved_nil].
    cbn. rewrite app_nil_r. reflexivity.
  - destruct op; cbn [KVWorker.resolve_ops] in H; unfold bind in H.
    + destruct (KVWorker.create_args self ci w) as [[new|e] w1] eqn:E;
        apply create_args_spec in E; destruct E as [Hfr Hnew].
      * destruct (IH _ _ _ _ _ _ H) as [Hfr' Hres].
        split; [exact (sampling_frame_trans _ _ _ Hfr Hfr')|].
        intros res Hr. destruct (Hres res Hr) as (blocks & -> & Hb).
        exists (new :: blocks). split; [cbn; rewrite app_assoc; reflexivity|].
        apply (resolved_cons OpC); [exact (Hnew new eq_refl)|exact Hb].
      * inversion H; subst. split; [exact Hfr|]. intros res [=].
    + destruct (KVWorker.read_args self ci di w) as [[new|e] w1] eqn:E;
        apply read_args_spec in E; destruct E as [Hfr Hnew].
      * destruct (IH _ _ _ _ _ _ H) as [Hfr' Hres].
        split; [exact (sampling_frame_trans _ _ _ Hfr Hfr')|].
        intros res Hr. destruct (Hres res Hr) as (blocks & -> & Hb).
        exists (new :: blocks). split; [cbn; rewrite app_assoc; reflexivity|].
        apply (resolved_cons OpR); [exact (Hnew new eq_refl)|exact Hb].
      * inversion H; subst. split; [exact Hfr|]. intros res [=].
    + destruct (KVWorker.update_args self ci di w) as [[new|e] w1] eqn:E;
        apply update_args_spec in E; destruct E as [Hfr Hnew].
      * destruct (IH _ _ _ _ _ _ H) as [Hfr' Hres].
        split; [exact (sampling_frame_trans _ _ _ Hfr Hfr')|].
        intros res Hr. destruct (Hres res Hr) as (blocks & -> & Hb).
        exists (new :: blocks). split; [cbn; rewrite app_assoc; reflexivity|].
        apply (resolved_cons OpU); [exact (Hnew new eq_refl)|exact Hb].
      * inversion H; subst. split; [exact Hfr|]. intros res [=].
    + destruct (KVWorker.delete_args self di w) as [r1 w1] eqn:E.
      apply delete_args_spec in E. destruct E as [-> ->].
      destruct (IH _ _ _ _ _ _ H) as [Hfr' Hres].
      split; [exact Hfr'|].
      intros res Hr. destruct (Hres res Hr) as (blocks & -> & Hb).
      eexists (_ :: blocks). split; [cbn [List.concat]; rewrite app_assoc; reflexivity|].
      apply (resolved_cons OpD); [reflexivity|exact Hb].
    + destruct (KVWorker.modify_args self ci di w) as [[new|e] w1] eqn:E;
        apply modify_args_spec in E; destruct E as [Hfr Hnew].
      * destruct (IH _ _ _ _ _ _ H) as [Hfr' Hres].
        split; [exact (sampling_frame_trans _ _ _ Hfr Hfr')|].
        intros res Hr. destruct (Hres res Hr) as (blocks & -> & Hb).
        exists (new :: blocks). split; [cbn; rewrite app_assoc; reflexivity|].
        apply (resolved_cons OpM); [exact (Hnew new eq_refl)|exact Hb].
      * inversion H; subst. split; [exact Hfr|]. intros res [=].
Qed.

End BatchProperties.

Lemma count_ops_multiset (ws : WorkloadSettings.t) :
  count_occ Op_eq_dec (KVWorker.ops_multiset ws) OpC
    = Z.to_nat (WorkloadSettings.creates ws) /\
  count_occ Op_eq_dec (KVWorker.ops_multiset ws) OpR
    = Z.to_nat (WorkloadSettings.reads ws) /\
  count_occ Op_eq_dec (KVWorker.ops_multiset ws) OpU
    = Z.to_nat (WorkloadSettings.updates ws) /\
  count_occ Op_eq_dec (KVWorker.ops_multiset ws) OpD
    = Z.to_nat (WorkloadSettings.deletes ws) /\
  count_occ Op_eq_dec (KVWorker.ops_multiset ws) OpM
    = Z.to_nat (WorkloadSettings.reads_and_updates ws / 2).
Proof.
  unfold KVWorker.ops_multiset.
  repeat split; rewrite !count_occ_app;
    repeat first
      [ rewrite count_occ_repeat_eq by reflexivity
      | rewrite count_occ_repeat_neq by discriminate ];
    lia.
Qed.

Lemma reserve_creates_spec (self : Worker.t) (w : World) :
  let creates := WorkloadSettings.creates (Worker.ws self) in
  KVWorker.reserve_creates self w =
  if creates =? 0 then (Ok (WorkloadSettings.items (Worker.ws self)), w)
  else (Ok (curr_items w),
        W.set_curr_items (curr_items w + creates) (W.add_lock ReserveCreates w)).
Proof.
  cbv zeta. unfold KVWorker.reserve_creates.
  destruct (WorkloadSettings.creates (Worker.ws self) =? 0); reflexivity.
Qed.

Lemma reserve_deletes_spec (self : Worker.t) (w : World) :
  let deletes := WorkloadSettings.deletes (Worker.ws self) in
  KVWorker.reserve_deletes self w =
  if deletes =? 0 then (Ok 0, w)
  else (Ok (deleted_items w
            + deletes * WorkloadSettings.workers (Worker.ws self)),
        W.set_deleted_items (deleted_items w + deletes)
                            (W.add_lock ReserveDeletes w)).
Proof.
  cbv zeta. unfold KVWorker.reserve_deletes.
  destruct (WorkloadSettings.deletes (Worker.ws self) =? 0); reflexivity.
Qed.

(** C4, as stated, fails: a batch of two reads ([creates = 0],
    [deletes = 0]) takes the lock for neither reservation. *)
Lemma C4_no_reservation_counterexample :
  let ws := WorkloadSettings.mk 10 1 0 2 0 0 0 None None 100 100 0 0 Float.zero Float.zero 1
                                "" "string" 8 0 0 in
  let w := WorkloadGen.initial_world ws (replay [0; 1; 4; 7])
                                     (fun _ => NoLatency) (fun _ => false) in
  match KVWorker.init ws (TargetSettings.mk "") false with
  | Some self =>
      exists cmds w',
        @KVWorker.gen_cmd_sequence example_spooky example_dictionary self w
        = (Ok cmds, w') /\
        lock_log w' = [] /\
        keys_of cb_read cmds = ["000000000004"; "000000000007"]
  | None => False
  end.
Proof.
  cbv zeta. cbn [KVWorker.init Worker.init Worker.init_docs].
  do 2 eexists. vm_compute. repeat split.
Qed.

(** C4 (amended): one call of [gen_cmd_sequence] takes the lock once to
    advance [curr_items] by [ws.creates] when [ws.creates] is not zero, and
    not at all for new keys when it is zero; likewise once to advance
    [deleted_items] by [ws.deletes] when [ws.deletes] is not zero (the cells
    are 64-bit: the sums wrap).  A returned command sequence is the
    concatenation of one block per token of a rearrangement of the batch
    multiset: it has [ws.creates] create commands whose keys are numbered
    consecutively from the snapshot of [curr_items], [ws.deletes] delete
    commands whose keys are numbered consecutively from
    [deleted_items + ws.deletes * ws.workers], one read per read token, one
    update per update token, and for each of the [ws.reads_and_updates // 2]
    modify tokens a read followed by an update of the same sampled key. *)
Theorem C4_batch_reservations_and_commands
    {sp : Spooky} {dict : Dictionary} (self : Worker.t) (w : World)
    (r : Res (list Cmd)) (w' : World) :
  KVWorker.gen_cmd_sequence self w = (r, w') ->
  let ws := Worker.ws self in
  let creates := WorkloadSettings.creates ws in
  let deletes := WorkloadSettings.deletes ws in
  let snapshot := if creates =? 0 then WorkloadSettings.items ws
                  else curr_items w in
  let removal_snapshot :=
    if deletes =? 0 then 0
    else deleted_items w + deletes * WorkloadSettings.workers ws in
  curr_items w' = (if creates =? 0 then curr_items w
                   else Py.c_ulong (curr_items w + creates)) /\
  deleted_items w' = (if deletes =? 0 then deleted_items w
                      else Py.c_ulong (deleted_items w + deletes)) /\
  lock_log w' = (lock_log w
                 ++ (if creates =? 0 then [] else [ReserveCreates])
                 ++ (if deletes =? 0 then [] else [ReserveDeletes]))%list /\
  forall cmds, r = Ok cmds ->
    exists ops blocks,
      Permutation (KVWorker.ops_multiset ws) ops /\
      cmds = List.concat blocks /\
      Forall2 (token_block ws) ops blocks /\
      keys_of cb_create cmds
        = map (fun n => Key.string (NewOrderedKey.next (Worker.new_keys self) n))
              (Py.range_from (Z.to_nat creates) snapshot 1) /\
      keys_of cb_delete cmds
        = map (fun n => Key.string
                          (KeyForRemoval.next (Worker.keys_for_removal self) n))
              (Py.range_from (Z.to_nat deletes) removal_snapshot 1) /\
      List.length (keys_of cb_read cmds)
        = (Z.to_nat (WorkloadSettings.reads ws)
           + Z.to_nat (WorkloadSettings.reads_and_updates ws / 2))%nat /\
      List.length (keys_of cb_update cmds)
        = (Z.to_nat (WorkloadSettings.updates ws)
           + Z.to_nat (WorkloadSettings.reads_and_updates ws / 2))%nat.
Proof.
  intros H ws creates deletes snapshot removal_snapshot.
  unfold KVWorker.gen_cmd_sequence in H.
  unfold bind at 1 in H.
  pose proof (reserve_creates_spec self w) as Ec. cbv zeta in Ec.
  fold ws creates in Ec.
  destruct (KVWorker.reserve_creates self w) as [rc w1].
  assert (Hrc : rc = Ok snapshot /\
                curr_items w1 = (if creates =? 0 then curr_items w
                                 else Py.c_ulong (curr_items w + creates)) /\
                deleted_items w1 = deleted_items w /\
                lock_log w1 = (lock_log w ++ (if creates =? 0 then []
                                              else [ReserveCreates]))%list).
  { unfold snapshot. destruct (creates =? 0); inversion Ec; subst; wsimpl;
      rewrite ?app_nil_r; repeat split. }
  destruct Hrc as (-> & Hc1 & Hd1 & Hl1). clear Ec.
  unfold bind at 1 in H.
  pose proof (reserve_deletes_spec self w1) as Ed. cbv zeta in Ed.
  fold ws deletes in Ed.
  destruct (KVWorker.reserve_deletes self w1) as [rd w2].
  assert (Hrd : rd = Ok removal_snapshot /\
                curr_items w2 = curr_items w1 /\
                deleted_items w2 = (if deletes =? 0 then deleted_items w
                                    else Py.c_ulong (deleted_items w + deletes)) /\
                lock_log w2 = (lock_log w1 ++ (if deletes =? 0 then []
                                               else [ReserveDeletes]))%list).
  { unfold removal_snapshot. rewrite <- Hd1.
    destruct (deletes =? 0); inversion Ed; subst; wsimpl;
      rewrite ?app_nil_r; repeat split. }
  destruct Hrd as (-> & Hc2 & Hd2 & Hl2). clear Ed.
  unfold bind at 1 in H. unfold KVWorker.random_ops in H. fold ws in H.
  destruct (shuffle_Permutation (KVWorker.ops_multiset ws) w2)
    as (ops & w3 & Es & HP).
  pose proof (preserves_shuffle _ _ _ _ Es) as F3.
  rewrite Es in H.
  apply resolve_ops_spec in H. destruct H as [F4 Hres].
  pose proof (sampling_frame_trans _ _ _ F3 F4) as F.
  destruct F as (_ & _ & Fc & Fd & _ & Fl & _).
  split; [congruence|]. split; [congruence|].
  split; [rewrite Fl, Hl2, Hl1, <- app_assoc; reflexivity|].
  intros cmds Hr. destruct (Hres cmds Hr) as (blocks & -> & HF & Hkc & Hkd & Hnr & Hnu).
  pose proof (proj1 (Permutation_count_occ Op_eq_dec _ _) HP) as Hcount.
  destruct (count_ops_multiset ws) as (HC & HR & HU & HD & HM).
  rewrite <- (Hcount OpC), HC in Hkc.
  rewrite <- (Hcount OpD), HD in Hkd.
  rewrite <- (Hcount OpR), <- (Hcount OpM), HR, HM in Hnr.
  rewrite <- (Hcount OpU), <- (Hcount OpM), HU, HM in Hnu.
  exists ops, blocks. cbn [app].
  repeat split; assumption.
Qed.

Lemma C4_witness :
  let ws := WorkloadSettings.mk 10 1 2 1 0 1 2 None None 100 100 0 0 Float.zero Float.zero 1
                                "" "string" 8 0 0 in
  let w := WorkloadGen.initial_world ws (replay [0; 1; 4; 7; 2; 3; 5])
                                     (fun _ => NoLatency) (fun _ => false) in
  let self := Worker.mk "kv-worker" ws (TargetSettings.mk "") false 0 None
                (NewOrderedKey.mk "" "") (EKUniform (UniformKey.mk "" ""))
                (KeyForRemoval.mk "" "") (KeyForCASUpdate.mk 1 "" "")
                (DocString (StringDoc.mk 8)) in
  exists cmds w',
    @KVWorker.gen_cmd_sequence example_spooky example_dictionary self w
    = (Ok cmds, w') /\
    curr_items w' = 12 /\
    deleted_items w' = 1 /\
    lock_log w' = [ReserveCreates; ReserveDeletes] /\
    keys_of cb_create cmds = ["000000000010"; "000000000011"] /\
    keys_of cb_delete cmds = ["000000000001"].
Proof.
  cbv zeta.
  match goal with
  | |- exists cmds w', ?gen = _ /\ _ =>
      assert (H : exists cmds w', gen = (Ok cmds, w'))
        by (do 2 eexists; vm_compute; reflexivity)
  end.
  destruct H as (cmds & w' & H). exists cmds, w'. split; [exact H|].
  destruct (@C4_batch_reservations_and_commands example_spooky
              example_dictionary _ _ _ _ H) as (Hc & Hd & Hl & Hcmds).
  destruct (Hcmds cmds eq_refl) as (ops & blocks & _ & _ & _ & Hkc & Hkd & _).
  split; [exact Hc|]. split; [exact Hd|]. split; [exact Hl|].
  split; [exact Hkc|exact Hkd].
Defined.

(** ** The run loop of the key-value worker *)

Lemma batch_frame_refl (w : World) : batch_frame w w.
Proof. unfold batch_frame. repeat split. Qed.

Lemma batch_frame_trans (w1 w2 w3 : World) :
  batch_frame w1 w2 -> batch_frame w2 w3 -> batch_frame w1 w3.
Proof. unfold batch_frame. intuition congruence. Qed.

Lemma sampling_batch_frame (w w' : World) :
  sampling_frame w w' -> batch_frame w w'.
Proof. unfold sampling_frame, batch_frame. intuition. Qed.

Lemma exec_cmds_frame (cmds : list Cmd) :
  forall w r w', KVWorker.exec_cmds cmds w = (r, w') -> batch_frame w w'.
Proof.
  induction cmds as [|[[cmd func] args] rest IH]; intros w r w' H;
    cbn [KVWorker.exec_cmds] in H.
  - inversion H; subst. apply batch_frame_refl.
  - unfold bind at 1 in H. unfold call in H.
    destruct (client w (client_calls w)) as [t| |e].
    + unfold bind, modify in H. apply IH in H.
      eapply batch_frame_trans; [|exact H].
      unfold batch_frame. wsimpl. repeat split.
    + unfold bind, ret in H. apply IH in H.
      eapply batch_frame_trans; [|exact H].
      unfold batch_frame. wsimpl. repeat split.
    + inversion H; subst. unfold batch_frame. wsimpl. repeat split.
Qed.

Section RunProperties.

Context {sp : Spooky} {dict : Dictionary}.

Lemma reserve_creates_frame (self : Worker.t) (w : World) (r : Res Z)
    (w' : World) :
  KVWorker.reserve_creates self w = (r, w') -> batch_frame w w'.
Proof.
  rewrite reserve_creates_spec. cbv zeta.
  destruct (_ =? 0); intros E; inversion E; subst;
    unfold batch_frame; wsimpl; repeat split.
Qed.

Lemma reserve_deletes_frame (self : Worker.t) (w : World) (r : Res Z)
    (w' : World) :
  KVWorker.reserve_deletes self w = (r, w') -> batch_frame w w'.
Proof.
  rewrite reserve_deletes_spec. cbv zeta.
  destruct (_ =? 0); intros E; inversion E; subst;
    unfold batch_frame; wsimpl; repeat split.
Qed.

Lemma gen_cmd_sequence_frame (self : Worker.t) (w : World)
    (r : Res (list Cmd)) (w' : World) :
  KVWorker.gen_cmd_sequence self w = (r, w') -> batch_frame w w'.
Proof.
  intros H. unfold KVWorker.gen_cmd_sequence in H.
  unfold bind at 1 in H.
  destruct (KVWorker.reserve_creates self w) as [[ci|e] w1] eqn:E1;
    apply reserve_creates_frame in E1;
    [|inversion H; subst; exact E1].
  unfold bind at 1 in H.
  destruct (KVWorker.reserve_deletes self w1) as [[di|e] w2] eqn:E2;
    apply reserve_deletes_frame in E2;
    [|inversion H; subst; exact (batch_frame_trans _ _ _ E1 E2)].
  unfold bind at 1 in H.
  destruct (KVWorker.random_ops self w2) as [[ops|e] w3] eqn:E3;
    apply preserves_shuffle in E3; apply sampling_batch_frame in E3.
  - apply resolve_ops_spec in H. destruct H as [F4 _].
    apply sampling_batch_frame in F4.
    exact (batch_frame_trans _ _ _ E1
             (batch_frame_trans _ _ _ E2 (batch_frame_trans _ _ _ E3 F4))).
  - inversion H; subst.
    exact (batch_frame_trans _ _ _ E1 (batch_frame_trans _ _ _ E2 E3)).
Qed.

Lemma do_batch_frame (self : Worker.t) (w : World) (r : Res unit) (w' : World) :
  KVWorker.do_batch self w = (r, w') -> batch_frame w w'.
Proof.
  assert (Hbody : forall w r w',
             (cmds <- KVWorker.gen_cmd_sequence self ;; KVWorker.exec_cmds cmds) w
             = (r, w') -> batch_frame w w').
  { clear. intros w r w' H. unfold bind in H.
    destruct (KVWorker.gen_cmd_sequence self w) as [[cmds|e] w1] eqn:E;
      apply gen_cmd_sequence_frame in E.
    - apply exec_cmds_frame in H. exact (batch_frame_trans _ _ _ E H).
    - inversion H; subst. exact E. }
  intros H. unfold KVWorker.do_batch, with_sleep in H.
  destruct (Worker.target_time self).
  - unfold bind at 1 in H.
    destruct ((cmds <- KVWorker.gen_cmd_sequence self ;; KVWorker.exec_cmds cmds) w)
      as [[u|e] w1] eqn:E; apply Hbody in E.
    + unfold time_sleep, ret in H. inversion H; subst. exact E.
    + inversion H; subst. exact E.
  - exact (Hbody _ _ _ H).
Qed.

Lemma float_of_int_pure (n : Z) (w : World) :
  exists r, float_of_int n w = (r, w) /\
            forall e, r = Raise e -> e = Py.OverflowError.
Proof.
  unfold float_of_int.
  destruct (Float.of_int n); eexists; (split; [reflexivity|]);
    intros e0 [=]; congruence.
Qed.

Lemma float_div_pure (x y : Float.t) (w : World) :
  exists r, float_div x y w = (r, w) /\
            forall e, r = Raise e -> e = Py.ZeroDivisionError.
Proof.
  unfold float_div.
  destruct (Float.is_zero y); eexists; (split; [reflexivity|]);
    intros e0 [=]; congruence.
Qed.

(** A progress report leaves the world as it is, or appends one progress
    line to the log; it stays silent for every worker but the first and
    for an unbounded operation count. *)
Lemma report_progress_spec (self : Worker.t) (next_report : Float.t) (v : Z)
    (w : World) (r : Res Float.t) (w' : World) :
  report_progress self next_report v w = (r, w') ->
  w' = w \/
  (exists p, w' = W.add_log (Worker.progress_line p) w /\
             Worker.sid self = 0 /\
             WorkloadSettings.ops (Worker.ws self) <> None).
Proof.
  unfold report_progress. intros H.
  destruct (Worker.sid self =? 0) eqn:Es; cbn [negb] in H;
    [|inversion H; left; reflexivity].
  apply Z.eqb_eq in Es.
  destruct (WorkloadSettings.ops (Worker.ws self)) as [ops|] eqn:Eo;
    [|inversion H; left; reflexivity].
  unfold bind at 1 in H.
  destruct (float_of_int_pure ops w) as (r1 & E1 & _). rewrite E1 in H.
  destruct r1 as [fops|e]; [|inversion H; left; reflexivity].
  destruct (Float.int_gt v (Float.mul next_report fops));
    [|inversion H; left; reflexivity].
  unfold bind at 1 in H.
  destruct (float_of_int_pure v w) as (r2 & E2 & _). rewrite E2 in H.
  destruct r2 as [x|e]; [|inversion H; left; reflexivity].
  unfold bind at 1 in H. rewrite E1 in H.
  unfold bind at 1 in H.
  destruct (float_div_pure (Float.mul Float.hundred x) fops w) as (r3 & E3 & _).
  rewrite E3 in H.
  destruct r3 as [p|e]; [|inversion H; left; reflexivity].
  unfold bind, logger_info, modify, ret in H. inversion H; subst.
  right. exists p. split; [reflexivity|]. split; [exact Es|discriminate].
Qed.

(** One turn of the loop: the counter moves by the batch size, nothing is
    dumped, and the log gets at most one progress line. *)
Lemma run_body_spec (self : Worker.t) (next_report : Float.t) (w : World)
    (r : Res Float.t) (w' : World) :
  KVWorker.run_body self next_report w = (r, w') ->
  curr_ops w' = Py.c_ulong (curr_ops w + Worker.BATCH_SIZE) /\
  dumps w' = dumps w /\
  exists ps, log w' = (log w ++ map Worker.progress_line ps)%list /\
             (Worker.sid self <> 0 \/
              WorkloadSettings.ops (Worker.ws self) = None -> ps = []).
Proof.
  intros H. unfold KVWorker.run_body in H.
  unfold bind at 1, with_lock, bind at 1, modify at 1, bind at 1, get at 1,
    modify at 1 in H.
  unfold bind at 1 in H.
  destruct (KVWorker.do_batch self _) as [[u|e] w1] eqn:E;
    apply do_batch_frame in E; destruct E as (Ho & _ & _ & Hd & Hl);
    wsimpl.
  - unfold bind at 1, get at 1 in H.
    apply report_progress_spec in H. destruct H as [->|(p & -> & Hs & Hops)].
    + split; [exact Ho|]. split; [exact Hd|].
      exists []. cbn [map]. rewrite app_nil_r. split; [exact Hl|reflexivity].
    + wsimpl. split; [exact Ho|]. split; [exact Hd|].
      exists [p]. cbn [map]. split; [rewrite Hl; reflexivity|].
      intros [Hc|Hc]; contradiction.
  - inversion H; subst. split; [exact Ho|]. split; [exact Hd|].
    exists []. cbn [map]. rewrite app_nil_r. split; [exact Hl|reflexivity].
Qed.

Lemma run_condition_spec (self : Worker.t) (w : World) (r : Res bool)
    (w' : World) :
  KVWorker.run_condition self w = (r, w') ->
  curr_ops w' = curr_ops w /\ dumps w' = dumps w /\ log w' = log w /\
  (exists b, r = Ok b) /\
  (r = Ok false -> loop_exit_reason self w').
Proof.
  intros H. unfold KVWorker.run_condition, bind at 1, get at 1 in H.
  unfold loop_exit_reason.
  destruct (WorkloadSettings.ops (Worker.ws self)) as [n|] eqn:Eops.
  - destruct (curr_ops w <? n) eqn:Eb.
    + unfold Worker.time_to_stop, bind in H.
      destruct (Worker.shutdown_event self) eqn:Es.
      * unfold ret in H. inversion H; subst. wsimpl.
        repeat split; eauto.
        intros [= Hs]. right. split; [reflexivity|].
        exists (shutdown_polls w). split; [reflexivity|].
        destruct (shutdown w (shutdown_polls w)); [reflexivity|discriminate].
      * unfold ret in H. inversion H; subst. repeat split; eauto.
        intros [=].
    + unfold ret in H. inversion H; subst. repeat split; eauto.
      intros _. left. exists n. split; [reflexivity|].
      apply Z.ltb_ge in Eb. exact Eb.
  - unfold Worker.time_to_stop, bind in H.
    destruct (Worker.shutdown_event self) eqn:Es.
    + unfold ret in H. inversion H; subst. wsimpl.
      repeat split; eauto.
      intros [= Hs]. right. split; [reflexivity|].
      exists (shutdown_polls w). split; [reflexivity|].
      destruct (shutdown w (shutdown_polls w)); [reflexivity|discriminate].
    + unfold ret in H. inversion H; subst. repeat split; eauto.
      intros [=].
Qed.




End RunProperties.

(** The set-up of [run] either fails, with an exception that is not a
    [KeyboardInterrupt] and nothing logged, or stores the arguments, seeds
    the generator and logs the start. *)
Lemma run_setup_spec (self : Worker.t) (sid : Z) (w : World)
    (r : Res Worker.t) (w1 : World) :
  KVWorker.run_setup self sid w = (r, w1) ->
  match r with
  | Ok self' =>
      (exists target_time, self' = Worker.set_run_args sid target_time self) /\
      w1 = W.add_log ("Started: " ++ Worker.NAME self ++ "-" ++ Py.str_of_int sid)
             (W.set_np_seed (Some (sid * 9901)) w)
  | Raise e => e <> Py.KeyboardInterrupt /\ w1 = w
  end.
Proof.
  unfold KVWorker.run_setup. intros H. unfold bind at 1 in H.
  assert (Ht : exists rt, KVWorker.compute_target_time (Worker.ws self) w = (rt, w)
                          /\ forall e, rt = Raise e -> e <> Py.KeyboardInterrupt).
  { unfold KVWorker.compute_target_time.
    destruct (WorkloadSettings.throughput (Worker.ws self)) as [t|];
      [|eexists; split; [reflexivity|discriminate]].
    unfold bind at 1.
    destruct (float_of_int_pure (WorkloadSettings.workers (Worker.ws self)) w)
      as (r1 & E1 & H1). rewrite E1.
    destruct r1 as [x|e1];
      [|eexists; split; [reflexivity|];
        intros e0 [= <-]; rewrite (H1 e1 eq_refl); discriminate].
    unfold bind at 1.
    destruct (float_of_int_pure t w) as (r2 & E2 & H2). rewrite E2.
    destruct r2 as [y|e2];
      [|eexists; split; [reflexivity|];
        intros e0 [= <-]; rewrite (H2 e2 eq_refl); discriminate].
    unfold bind at 1.
    destruct (float_div_pure (Float.mul Float.hundred x) y w)
      as (r3 & E3 & H3). rewrite E3.
    destruct r3 as [q|e3];
      [|eexists; split; [reflexivity|];
        intros e0 [= <-]; rewrite (H3 e3 eq_refl); discriminate].
    eexists. split; [reflexivity|discriminate]. }
  destruct Ht as (rt & Et & Hrt). rewrite Et in H.
  destruct rt as [tgt|e]; [|inversion H; subst; split; [apply Hrt|]; reflexivity].
  unfold bind at 1, Worker.seed, NpRandom.seed in H.
  cbn [Worker.sid Worker.set_run_args] in H.
  destruct ((sid * 9901 <? 0) || (2 ^ 32 - 1 <? sid * 9901)).
  - inversion H; subst. split; [discriminate|reflexivity].
  - unfold modify at 1, bind, logger_info, modify, ret in H.
    inversion H; subst. split; [exists tgt; reflexivity|reflexivity].
Qed.


(** A [KeyboardInterrupt] in the second batch: [run] returns, logs the
    progress of the first batch and the interruption, and dumps the
    samples of the first batch. *)
Example run_interrupted :
  let ws := WorkloadSettings.mk 10 1 0 1 0 0 0 (Some 300) None 100 100 0 0 Float.zero Float.zero 1
                                "" "string" 8 0 0 in
  let w := WorkloadGen.initial_world ws (replay [4; 5])
             (fun i => match i with
                       | O => Latency 3
                       | _ => Fails Py.KeyboardInterrupt
                       end)
             (fun _ => false) in
  match KVWorker.init ws (TargetSettings.mk "") true with
  | Some self =>
      match @KVWorker.run example_spooky example_dictionary 5 self
              Worker.initial_next_report 0 w with
      | Some (Ok _, w') =>
          dumps w' = ["kv-worker-0"] /\
          log w' = ["Started: kv-worker-0"; "Current progress: 33.33 %";
                    "Interrupted: kv-worker-0"] /\
          reservoir w' = [("get", 3)]
      | _ => False
      end
  | None => False
  end.
Proof. vm_compute. repeat split. Qed.

(** Three batches exhaust [ops = 300]: the first worker reports its
    progress after each of them, [run] finishes and dumps. *)
Example run_finished :
  let ws := WorkloadSettings.mk 10 1 0 1 0 0 0 (Some 300) None 100 100 0 0 Float.zero Float.zero 1
                                "" "string" 8 0 0 in
  let w := WorkloadGen.initial_world ws (replay [4; 5; 6])
             (fun i => Latency (Z.of_nat i)) (fun _ => false) in
  match KVWorker.init ws (TargetSettings.mk "") true with
  | Some self =>
      match @KVWorker.run example_spooky example_dictionary 5 self
              Worker.initial_next_report 0 w with
      | Some (Ok _, w') =>
          dumps w' = ["kv-worker-0"] /\
          log w' = ["Started: kv-worker-0"; "Current progress: 33.33 %";
                    "Current progress: 66.67 %"; "Current progress: 100.00 %";
                    "Finished: kv-worker-0"] /\
          curr_ops w' = 300 /\
          reservoir w' = [("get", 0); ("get", 1); ("get", 2)]
      | _ => False
      end
  | None => False
  end.
Proof. vm_compute. repeat split. Qed.

Lemma run_condition_true (self : Worker.t) (n : Z) (w w' : World) :
  WorkloadSettings.ops (Worker.ws self) = Some n ->
  KVWorker.run_condition self w = (Ok true, w') ->
  curr_ops w < n.
Proof.
  intros Hops H. unfold KVWorker.run_condition, bind at 1, get at 1 in H.
  rewrite Hops in H.
  destruct (curr_ops w <? n) eqn:Eb.
  - apply Z.ltb_lt. exact Eb.
  - unfold ret in H. discriminate.
Qed.

(** With a finite operation count (below the width of the counter cell) the
    loop ends: enough fuel gives a result. *)
Lemma run_loop_terminates {sp : Spooky} {dict : Dictionary}
    (self : Worker.t) (n : Z) :
  WorkloadSettings.ops (Worker.ws self) = Some n ->
  n <= 2 ^ 64 - Worker.BATCH_SIZE ->
  forall (m : nat) (next_report : Float.t) (w : World),
    0 <= curr_ops w ->
    n - curr_ops w <= Worker.BATCH_SIZE * Z.of_nat m ->
    exists res, KVWorker.run_loop (S m) self next_report w = Some res.
Proof.
  intros Hops Hn. unfold Worker.BATCH_SIZE in *.
  induction m as [|m IH]; intros nr w H0 Hm.
  - cbn [KVWorker.run_loop].
    destruct (KVWorker.run_condition self w) as [rc w1] eqn:Ec.
    pose proof (run_condition_spec self w rc w1 Ec) as (_ & _ & _ & (b & ->) & _).
    destruct b; [|eauto].
    apply (run_condition_true self n) in Ec; [|exact Hops]. lia.
  - change (KVWorker.run_loop (S (S m)) self nr w)
      with (match KVWorker.run_condition self w with
            | (Raise e, w1) => Some (Raise e, w1)
            | (Ok false, w1) => Some (Ok tt, w1)
            | (Ok true, w1) =>
                match KVWorker.run_body self nr w1 with
                | (Raise e, w2) => Some (Raise e, w2)
                | (Ok nr', w2) => KVWorker.run_loop (S m) self nr' w2
                end
            end).
    destruct (KVWorker.run_condition self w) as [rc w1] eqn:Ec.
    pose proof (run_condition_spec self w rc w1 Ec) as (Ho1 & _ & _ & (b & ->) & _).
    destruct b; [|eauto].
    apply (run_condition_true self n) in Ec; [|exact Hops].
    destruct (KVWorker.run_body self nr w1) as [[nr'|e] w2] eqn:Eb; [|eauto].
    apply run_body_spec in Eb. destruct Eb as (Ho2 & _ & _).
    unfold Worker.BATCH_SIZE in Ho2.
    rewrite c_ulong_small in Ho2 by lia.
    apply IH; lia.
Qed.



(** With a finite operation count, [run] ends for enough fuel. *)
Lemma run_terminates {sp : Spooky} {dict : Dictionary}
    (self : Worker.t) (next_report : Float.t) (sid n : Z) (w : World) :
  WorkloadSettings.ops (Worker.ws self) = Some n ->
  n <= 2 ^ 64 - Worker.BATCH_SIZE ->
  0 <= curr_ops w ->
  exists fuel res, KVWorker.run fuel self next_report sid w = Some res.
Proof.
  intros Hops Hn H0.
  exists (S (Z.to_nat (n - curr_ops w))). unfold KVWorker.run.
  destruct (KVWorker.run_setup self sid w) as [[self'|e] w1] eqn:Es;
    [|eauto].
  apply run_setup_spec in Es. destruct Es as ((tgt & ->) & ->).
  match goal with
  | |- context [KVWorker.run_loop (S ?m) ?s ?nr ?w1] =>
      destruct (run_loop_terminates s n Hops Hn m nr w1) as [[rl w2] El]
  end.
  - wsimpl. exact H0.
  - wsimpl. unfold Worker.BATCH_SIZE. lia.
  - rewrite El. destruct rl as [[]|e]; [eauto|].
    destruct (Py.Exn_is_KeyboardInterrupt e); eauto.
Qed.

(** ** Batches always build for uniform keys over a live range *)

Lemma resolve_ops_returns {sp : Spooky} {dict : Dictionary}
    (self : Worker.t) (g : UniformKey.t) (d : StringDoc.t) :
  Worker.existing_keys self = EKUniform g ->
  Worker.docs self = DocString d ->
  forall (ops : list Op) (ci di : Z) (acc : list Cmd) (w : World),
    di + Z.of_nat (count_occ Op_eq_dec ops OpD) < ci ->
    exists cmds w', KVWorker.resolve_ops self ops ci di acc w = (Ok cmds, w').
Proof.
  intros Hk Hd. induction ops as [|op ops IH]; intros ci di acc w Hlive.
  - cbn [KVWorker.resolve_ops]. unfold ret. eauto.
  - assert (Hrest : di + Z.of_nat (count_occ Op_eq_dec ops OpD) < ci)
      by (destruct op; cbn [count_occ] in Hlive;
          destruct (Op_eq_dec _ _) in Hlive; lia).
    assert (Hsample : forall extra w0, exists key w1,
               existing_keys_next (Worker.existing_keys self) ci di extra w0
               = (Ok key, w1)).
    { intros extra w0. rewrite Hk. cbn [existing_keys_next].
      unfold UniformKey.next, bind.
      destruct (randrange_ok di ci w0) as (v & E & _); [lia|].
      rewrite E. unfold ret. eauto. }
    destruct op; cbn [KVWorker.resolve_ops]; unfold bind.
    + unfold KVWorker.create_args, bind. rewrite Hd. cbn [docs_next].
      unfold StringDoc.next, ret. apply IH. lia.
    + unfold KVWorker.read_args, bind.
      destruct (Hsample false w) as (key & w1 & ->). unfold ret.
      apply IH. exact Hrest.
    + unfold KVWorker.update_args, bind.
      destruct (Hsample true w) as (key & w1 & ->).
      rewrite Hd. cbn [docs_next]. unfold StringDoc.next, ret.
      apply IH. exact Hrest.
    + unfold KVWorker.delete_args, ret. apply IH.
      rewrite count_occ_cons_eq in Hlive by reflexivity. lia.
    + unfold KVWorker.modify_args, bind.
      destruct (Hsample false w) as (key & w1 & ->).
      rewrite Hd. cbn [docs_next]. unfold StringDoc.next, ret.
      apply IH. exact Hrest.
Qed.

(** With uniform keys and the plain string synthesizer, a batch is built
    whenever the keys it deletes leave the live range non-empty. *)
Lemma gen_cmd_sequence_returns {sp : Spooky} {dict : Dictionary}
    (self : Worker.t) (g : UniformKey.t) (d : StringDoc.t) (w : World) :
  let ws := Worker.ws self in
  let snapshot := if WorkloadSettings.creates ws =? 0
                  then WorkloadSettings.items ws else curr_items w in
  let removal_snapshot :=
    if WorkloadSettings.deletes ws =? 0 then 0
    else deleted_items w
         + WorkloadSettings.deletes ws * WorkloadSettings.workers ws in
  Worker.existing_keys self = EKUniform g ->
  Worker.docs self = DocString d ->
  removal_snapshot + Z.of_nat (Z.to_nat (WorkloadSettings.deletes ws)) < snapshot ->
  exists cmds w', KVWorker.gen_cmd_sequence self w = (Ok cmds, w').
Proof.
  intros ws snapshot removal_snapshot Hk Hd Hlive.
  subst removal_snapshot snapshot ws.
  unfold KVWorker.gen_cmd_sequence.
  unfold bind at 1. rewrite reserve_creates_spec. cbv zeta.
  destruct (WorkloadSettings.creates (Worker.ws self) =? 0);
    unfold bind at 1; rewrite reserve_deletes_spec; cbv zeta;
    destruct (WorkloadSettings.deletes (Worker.ws self) =? 0);
    unfold bind at 1, KVWorker.random_ops;
    match goal with
    | |- context [NpRandom.shuffle ?l ?w2] =>
        destruct (shuffle_Permutation l w2) as (ops & w3 & -> & HP)
    end;
    apply (resolve_ops_returns self g d Hk Hd);
    rewrite <- (proj1 (Permutation_count_occ Op_eq_dec _ _) HP OpD);
    destruct (count_ops_multiset (Worker.ws self)) as (_ & _ & _ & -> & _);
    wsimpl; exact Hlive.
Qed.

(** * Further properties of the generators and workers *)

(** ** Working-set generator: the hit flag and the live range *)

(** The [hit] flag of a key returned by [WorkingSetKey.next] tells where its
    number lies: in the hot suffix [curr_items - num_hot_items, curr_items)
    for a hit, in the cold prefix [curr_deletes, curr_items - num_hot_items)
    for a miss; when the hot set is not negative and fits the live range the
    key is a live one. *)
Theorem WorkingSetKey_hit_tells_the_range
    (g : WorkingSetKey.t) (curr_items curr_deletes : Z) (w w' : World)
    (k : Key.t) :
  WorkingSetKey.next g curr_items curr_deletes w = (Ok k, w') ->
  let cold_end := curr_items - WorkingSetKey.num_hot_items g in
  (Key.hit k = true -> cold_end <= Key.number k < curr_items) /\
  (Key.hit k = false -> curr_deletes <= Key.number k < cold_end) /\
  (0 <= WorkingSetKey.num_hot_items g -> curr_deletes <= cold_end ->
   curr_deletes <= Key.number k < curr_items).
Proof.
  intros H cold_end. unfold WorkingSetKey.next, bind in H. fold cold_end in H.
  destruct (Random.randint 0 100 w) as [[draw|e] w1]; [|discriminate].
  destruct (draw <=? WorkingSetKey.working_set_access g);
    destruct (Random.randrange _ _ w1) as [[n|e] w2] eqn:E; try discriminate;
    apply randrange_inv in E; destruct E as [Hn _];
    unfold ret in H; inversion H; subst; cbn [Key.hit Key.number];
    (split; [|split]); intros; try discriminate; lia.
Qed.

Lemma WorkingSetKey_hit_tells_the_range_witness :
  exists k w',
    WorkingSetKey.next (WorkingSetKey.mk 10 50 "" "") 100 0
      (WorkloadGen.initial_world default_settings (replay [70; 33])
                                 (fun _ => NoLatency) (fun _ => false))
    = (Ok k, w') /\
    (Key.hit k = false -> 0 <= Key.number k < 100 - 10).
Proof.
  match goal with
  | |- exists k w', ?next = _ /\ _ =>
      assert (H : exists k w', next = (Ok k, w'))
        by (do 2 eexists; vm_compute; reflexivity)
  end.
  destruct H as (k & w' & H). exists k, w'. split; [exact H|].
  exact (proj1 (proj2 (WorkingSetKey_hit_tells_the_range _ _ _ _ _ _ H))).
Defined.

(** ** Moving working set: edge of the modulus, live range *)






(** ** A moving working set serves update tokens only *)

(** [read_args] and [modify_args] call [existing_keys.next] with two
    arguments, and [MovingWorkingSetKey.next] requires four: a batch that
    has a read or a modify token never yields a command sequence. *)
Lemma resolve_ops_moving_reads_raise {sp : Spooky} {dict : Dictionary}
    (self : Worker.t) (g : MovingWorkingSetKey.t) :
  Worker.existing_keys self = EKMovingWorkingSet g ->
  forall (ops : list Op) (ci di : Z) (acc : list Cmd) (w : World),
    In OpR ops \/ In OpM ops ->
    exists e w', KVWorker.resolve_ops self ops ci di acc w = (Raise e, w').
Proof.
  intros Hk. induction ops as [|op ops IH]; intros ci di acc w Hin.
  - destruct Hin as [[]|[]].
  - assert (Hrest : op <> OpR -> op <> OpM -> In OpR ops \/ In OpM ops).
    { intros H1 H2. destruct Hin as [[->|Hin]|[->|Hin]]; auto; contradiction. }
    destruct op; cbn [KVWorker.resolve_ops]; unfold bind at 1.
    + destruct (KVWorker.create_args self ci w) as [[new|e] w1]; [|eauto].
      apply IH. apply Hrest; discriminate.
    + unfold KVWorker.read_args, bind. rewrite Hk. cbn [existing_keys_next].
      unfold raise. eauto.
    + destruct (KVWorker.update_args self ci di w) as [[new|e] w1]; [|eauto].
      apply IH. apply Hrest; discriminate.
    + destruct (KVWorker.delete_args self di w) as [[new|e] w1]; [|eauto].
      apply IH. apply Hrest; discriminate.
    + unfold KVWorker.modify_args, bind. rewrite Hk. cbn [existing_keys_next].
      unfold raise. eauto.
Qed.

Theorem moving_working_set_batch_with_reads_raises
    {sp : Spooky} {dict : Dictionary} (self : Worker.t) (w : World) :
  negb (WorkloadSettings.working_set_move_time (Worker.ws self) =? 0) = true ->
  Worker.existing_keys self
  = Worker.init_existing_keys (Worker.ws self) (Worker.ts self) ->
  0 < WorkloadSettings.reads (Worker.ws self)
  \/ 2 <= WorkloadSettings.reads_and_updates (Worker.ws self) ->
  exists e w', KVWorker.gen_cmd_sequence self w = (Raise e, w').
Proof.
  intros Hmove Hk Hreads.
  unfold Worker.init_existing_keys in Hk. rewrite Hmove in Hk.
  unfold KVWorker.gen_cmd_sequence.
  unfold bind at 1. rewrite reserve_creates_spec. cbv zeta.
  destruct (WorkloadSettings.creates (Worker.ws self) =? 0);
    unfold bind at 1; rewrite reserve_deletes_spec; cbv zeta;
    destruct (WorkloadSettings.deletes (Worker.ws self) =? 0);
    unfold bind at 1, KVWorker.random_ops;
    match goal with
    | |- context [NpRandom.shuffle ?l ?w2] =>
        destruct (shuffle_Permutation l w2) as (ops & w3 & -> & HP)
    end;
    apply (resolve_ops_moving_reads_raise self _ Hk);
    (destruct Hreads as [Hr|Hm];
     [ left; apply (Permutation_in _ HP); unfold KVWorker.ops_multiset;
       apply in_or_app; right; apply in_or_app; left;
       destruct (Z.to_nat (WorkloadSettings.reads (Worker.ws self))) eqn:E;
       [lia | left; reflexivity]
     | right; apply (Permutation_in _ HP); unfold KVWorker.ops_multiset;
       do 4 (apply in_or_app; right);
       assert (1 <= WorkloadSettings.reads_and_updates (Worker.ws self) / 2)
         by (apply Z.div_le_lower_bound; lia);
       destruct (Z.to_nat
                   (WorkloadSettings.reads_and_updates (Worker.ws self) / 2))
         eqn:E; [lia | left; reflexivity] ]).
Qed.

Lemma moving_working_set_batch_with_reads_raises_witness :
  let ws := WorkloadSettings.mk 1000 1 0 1 1 0 0 None None 10 100 50 60 Float.zero Float.zero 1
                                "" "string" 8 0 0 in
  let ts := TargetSettings.mk "" in
  let self := Worker.mk "kv-worker" ws ts false 0 None
                (NewOrderedKey.mk "" "") (Worker.init_existing_keys ws ts)
                (KeyForRemoval.mk "" "") (KeyForCASUpdate.mk 1 "" "")
                (DocString (StringDoc.mk 8)) in
  exists e w',
    @KVWorker.gen_cmd_sequence example_spooky example_dictionary self
      (WorkloadGen.initial_world ws (replay [0; 0; 5])
         (fun _ => NoLatency) (fun _ => false))
    = (Raise e, w').
Proof.
  cbv zeta.
  apply (@moving_working_set_batch_with_reads_raises example_spooky
           example_dictionary).
  - reflexivity.
  - reflexivity.
  - left. cbn. lia.
Defined.

(** ** CAS-update shards: too few items, no workers *)

(** [KeyForCASUpdate.next] raises [ZeroDivisionError] without workers, and
    [ValueError] when there are fewer items than workers: every shard is
    then empty. *)
Theorem KeyForCASUpdate_empty_shards_raise
    (g : KeyForCASUpdate.t) (sid curr_items : Z) (w : World) :
  0 <= curr_items < KeyForCASUpdate.n1ql_workers g
  \/ KeyForCASUpdate.n1ql_workers g = 0 ->
  KeyForCASUpdate.next g sid curr_items w
  = (Raise (if KeyForCASUpdate.n1ql_workers g =? 0
            then Py.ZeroDivisionError else Py.ValueError), w).
Proof.
  intros H. unfold KeyForCASUpdate.next, bind, floordiv.
  destruct (KeyForCASUpdate.n1ql_workers g =? 0) eqn:E; [reflexivity|].
  apply Z.eqb_neq in E. destruct H as [H|H]; [|contradiction].
  unfold ret at 1. rewrite Z.div_small by lia.
  unfold NpRandom.random_integers.
  assert (Hb : (sid * 0 + 0 - 1 <? sid * 0) = true) by (apply Z.ltb_lt; lia).
  rewrite Hb. reflexivity.
Qed.

Lemma KeyForCASUpdate_empty_shards_raise_witness :
  fst (KeyForCASUpdate.next (KeyForCASUpdate.mk 8 "" "") 3 5
         (WorkloadGen.initial_world default_settings (replay [1])
            (fun _ => NoLatency) (fun _ => false)))
  = Raise Py.ValueError.
Proof.
  rewrite (KeyForCASUpdate_empty_shards_raise (KeyForCASUpdate.mk 8 "" "") 3 5).
  - reflexivity.
  - left. cbn. lia.
Defined.

(** ** Sizes of the string documents *)

Lemma str_length_take (n : nat) (s : string) :
  String.length (Py.str_take n s) = Nat.min n (String.length s).
Proof.
  revert s. induction n as [|n IH]; intros [|c s];
    cbn [Py.str_take String.length Nat.min]; try reflexivity.
  rewrite IH. reflexivity.
Qed.

Lemma str_length_drop (n : nat) (s : string) :
  String.length (Py.str_drop n s) = (String.length s - n)%nat.
Proof.
  revert s. induction n as [|n IH]; intros [|c s];
    cbn [Py.str_drop String.length Nat.sub]; try reflexivity.
  apply IH.
Qed.

Lemma str_length_repeat (k : nat) (s : string) :
  String.length (Py.str_repeat k s) = (k * String.length s)%nat.
Proof.
  induction k as [|k IH]; cbn [Py.str_repeat String.length Nat.mul].
  - reflexivity.
  - rewrite str_length_append, IH. reflexivity.
Qed.

Lemma str_length_slice (s : string) (a b : Z) :
  0 <= a <= b -> b <= Z.of_nat (String.length s) ->
  String.length (Py.slice s a b) = Z.to_nat (b - a).
Proof.
  intros Hab Hb. unfold Py.slice, Py.slice_bound.
  assert (Ha0 : (a <? 0) = false) by (apply Z.ltb_ge; lia).
  assert (Hb0 : (b <? 0) = false) by (apply Z.ltb_ge; lia).
  rewrite Ha0, Hb0, str_length_take, str_length_drop. lia.
Qed.

Lemma str_length_zero_pad (width : nat) (s : string) :
  String.length (Py.zero_pad width s) = Nat.max width (String.length s).
Proof.
  unfold Py.zero_pad. rewrite str_length_append, str_length_repeat_char. lia.
Qed.

Lemma fmt_0x_min_length (width : nat) (n : Z) :
  (width <= String.length (Py.fmt_0x width n))%nat.
Proof.
  unfold Py.fmt_0x. destruct (n <? 0).
  - change ("-" ++ Py.zero_pad (width - 1) (Py.hex_digits (- n)))
      with (String "-" (Py.zero_pad (width - 1) (Py.hex_digits (- n)))).
    cbn [String.length]. rewrite str_length_zero_pad. lia.
  - rewrite str_length_zero_pad. lia.
Qed.

Lemma build_alphabet_min_length {sp : Spooky} (key : string) :
  (64 <= String.length (StringDoc.build_alphabet key))%nat.
Proof.
  unfold StringDoc.build_alphabet, hex_digest. rewrite str_length_append.
  pose proof (fmt_0x_min_length 32 (hash128 key)).
  pose proof (fmt_0x_min_length 32 (hash128 (Py.str_rev key))). lia.
Qed.

Lemma ceil_div_64 (n : Z) : n <= 64 * Py.ceil_div n 64.
Proof.
  unfold Py.ceil_div.
  pose proof (Z.div_mod (- n) 64 ltac:(lia)).
  pose proof (Z.mod_pos_bound (- n) 64 ltac:(lia)). lia.
Qed.

Lemma build_string_length (alphabet : string) (length : Z) :
  (64 <= String.length alphabet)%nat ->
  String.length (StringDoc.build_string alphabet length) = Z.to_nat length /\
  StringDoc.build_string alphabet length
  = Py.str_take (Z.to_nat length)
      (Py.str_repeat (Z.to_nat (Py.ceil_div length 64)) alphabet).
Proof.
  intros Ha. unfold StringDoc.build_string, Py.slice_to, Py.str_mul.
  set (body := Py.str_repeat (Z.to_nat (Py.ceil_div length 64)) alphabet).
  assert (Hbody : length <= Z.of_nat (String.length body)).
  { unfold body. rewrite str_length_repeat.
    pose proof (ceil_div_64 length). nia. }
  destruct (Z_lt_le_dec length 0) as [Hneg|Hpos].
  - assert (Hb : body = "").
    { unfold body. replace (Z.to_nat (Py.ceil_div length 64)) with 0%nat;
        [reflexivity|].
      unfold Py.ceil_div.
      assert (0 <= (- length) / 64) by (apply Z.div_pos; lia). lia. }
    rewrite Hb. replace (Z.to_nat length) with 0%nat by lia.
    assert (He : Py.slice "" 0 length = "").
    { unfold Py.slice. cbn [String.length Py.slice_bound].
      destruct (Py.slice_bound 0 0), (Py.slice_bound 0 length - _)%nat;
        reflexivity. }
    rewrite He. split; reflexivity.
  - split.
    + rewrite str_length_slice by lia. f_equal. lia.
    + unfold Py.slice, Py.slice_bound.
      assert (H0 : (0 <? 0) = false) by reflexivity.
      assert (Hl : (length <? 0) = false) by (apply Z.ltb_ge; lia).
      rewrite H0, Hl. cbn [Z.to_nat Nat.min Py.str_drop].
      replace (Nat.min (String.length body) 0) with 0%nat by lia.
      cbn [Py.str_drop]. f_equal. lia.
Qed.

(** [String.next] returns a string of exactly [avg_size] characters (none
    when [avg_size] is negative), the first [avg_size] characters of the
    repeated alphabet, whatever the hash of the key. *)
Theorem String_next_has_the_requested_size
    {sp : Spooky} (gen : StringDoc.t) (key : Key.t) (w : World) :
  exists doc,
    StringDoc.next gen key w = (Ok doc, w) /\
    String.length doc = Z.to_nat (StringDoc.avg_size gen) /\
    doc = Py.str_take (Z.to_nat (StringDoc.avg_size gen))
            (Py.str_repeat (Z.to_nat (Py.ceil_div (StringDoc.avg_size gen) 64))
                           (StringDoc.build_alphabet (Key.string key))).
Proof.
  unfold StringDoc.next, ret. eexists. split; [reflexivity|].
  apply build_string_length. apply build_alphabet_min_length.
Qed.

(** [IncompressibleString.next] with [0 <= avg_size <= len(GARBAGE)]
    returns [avg_size] consecutive characters of [GARBAGE]; with
    [avg_size > len(GARBAGE)] it raises [ValueError] (there is no offset to
    draw) without consuming a draw. *)
Theorem IncompressibleString_next_is_a_window
    {dict : Dictionary} (gen : StringDoc.t) (key : Key.t) (w : World) :
  let size := StringDoc.avg_size gen in
  let len := Z.of_nat (String.length GARBAGE) in
  0 <= size ->
  (size <= len ->
   exists offset w',
     IncompressibleString.next gen key w
     = (Ok (Py.slice GARBAGE offset (offset + size)), w') /\
     0 <= offset <= len - size /\
     String.length (Py.slice GARBAGE offset (offset + size)) = Z.to_nat size) /\
  (len < size ->
   IncompressibleString.next gen key w = (Raise Py.ValueError, w)).
Proof.
  intros size len Hsize. unfold IncompressibleString.next,
    IncompressibleString.build_string, IncompressibleString.build_alphabet.
  fold size. fold len. split.
  - intros Hle. unfold bind.
    destruct (randint_ok 0 (len - size) w) as (offset & E & Ho); [lia|].
    rewrite E. unfold ret. exists offset. eexists. split; [reflexivity|].
    split; [exact Ho|].
    rewrite str_length_slice by (fold len; lia). f_equal. lia.
  - intros Hgt. unfold bind, Random.randint.
    rewrite randrange_empty by lia. reflexivity.
Qed.

Lemma IncompressibleString_next_is_a_window_witness :
  fst (@IncompressibleString.next example_dictionary (StringDoc.mk 40)
         (Key.mk 0 "" "" false)
         (WorkloadGen.initial_world default_settings (replay [3])
            (fun _ => NoLatency) (fun _ => false)))
  = Raise Py.ValueError.
Proof.
  rewrite (proj2 (@IncompressibleString_next_is_a_window example_dictionary
                    (StringDoc.mk 40) (Key.mk 0 "" "" false) _
                    ltac:(cbn; lia))).
  - reflexivity.
  - cbn. lia.
Defined.

(** ** Client calls of a batch *)

Lemma token_blocks_length {sp : Spooky} (ws : WorkloadSettings.t)
    (ops : list Op) (blocks : list (list Cmd)) :
  Forall2 (token_block ws) ops blocks ->
  List.length (List.concat blocks)
  = (List.length ops + count_occ Op_eq_dec ops OpM)%nat.
Proof.
  induction 1 as [|op blk ops blocks Hb HF IH]; [reflexivity|].
  cbn [List.concat]. rewrite length_app, IH.
  destruct op; cbn [token_block] in Hb;
    [destruct Hb as (key & doc & ->) | destruct Hb as (key & ->)
    |destruct Hb as (key & doc & ->) | destruct Hb as (key & ->)
    |destruct Hb as (key & doc & ->)];
    cbn [List.length count_occ]; destruct (Op_eq_dec _ _); try discriminate;
    try contradiction; lia.
Qed.

Lemma ops_multiset_length (ws : WorkloadSettings.t) :
  List.length (KVWorker.ops_multiset ws)
  = (Z.to_nat (WorkloadSettings.creates ws)
     + Z.to_nat (WorkloadSettings.reads ws)
     + Z.to_nat (WorkloadSettings.updates ws)
     + Z.to_nat (WorkloadSettings.deletes ws)
     + Z.to_nat (WorkloadSettings.reads_and_updates ws / 2))%nat.
Proof.
  unfold KVWorker.ops_multiset. rewrite !length_app, !repeat_length. lia.
Qed.

(** The number of commands of a batch. *)
Lemma gen_cmd_sequence_length {sp : Spooky} {dict : Dictionary}
    (self : Worker.t) (w : World) (cmds : list Cmd) (w' : World) :
  KVWorker.gen_cmd_sequence self w = (Ok cmds, w') ->
  let ws := Worker.ws self in
  List.length cmds
  = (Z.to_nat (WorkloadSettings.creates ws)
     + Z.to_nat (WorkloadSettings.reads ws)
     + Z.to_nat (WorkloadSettings.updates ws)
     + Z.to_nat (WorkloadSettings.deletes ws)
     + 2 * Z.to_nat (WorkloadSettings.reads_and_updates ws / 2))%nat /\
  client_calls w' = client_calls w /\ reservoir w' = reservoir w.
Proof.
  intros H ws. unfold KVWorker.gen_cmd_sequence in H.
  unfold bind at 1 in H. rewrite reserve_creates_spec in H. cbv zeta in H.
  destruct (WorkloadSettings.creates (Worker.ws self) =? 0);
    unfold bind at 1 in H; rewrite reserve_deletes_spec in H; cbv zeta in H;
    destruct (WorkloadSettings.deletes (Worker.ws self) =? 0);
    unfold bind at 1, KVWorker.random_ops in H;
    match type of H with
    | context [NpRandom.shuffle ?l ?w2] =>
        destruct (shuffle_Permutation l w2) as (ops & w3 & Es & HP);
        pose proof (preserves_shuffle _ _ _ _ Es) as F3; rewrite Es in H
    end;
    apply resolve_ops_spec in H; destruct H as [F4 Hres];
    destruct (Hres cmds eq_refl) as (blocks & -> & HF & _);
    pose proof (sampling_frame_trans _ _ _ F3 F4) as F;
    destruct F as (_ & _ & _ & _ & _ & _ & _ & Fcalls & _ & _ & Fres & _);
    wsimpl; (split; [|split; assumption]);
    cbn [app]; rewrite (token_blocks_length _ _ _ HF);
    rewrite <- (Permutation_length HP), ops_multiset_length;
    rewrite <- (proj1 (Permutation_count_occ Op_eq_dec _ _) HP OpM);
    destruct (count_ops_multiset (Worker.ws self)) as (_ & _ & _ & _ & ->);
    fold ws; lia.
Qed.

Lemma exec_cmds_calls (cmds : list Cmd) :
  forall w w',
    KVWorker.exec_cmds cmds w = (Ok tt, w') ->
    client_calls w' = (client_calls w + List.length cmds)%nat /\
    exists samples,
      reservoir w' = (reservoir w ++ samples)%list /\
      (List.length samples <= List.length cmds)%nat.
Proof.
  induction cmds as [|[[cmd func] args] rest IH]; intros w w' H;
    cbn [KVWorker.exec_cmds] in H.
  - inversion H; subst. split; [cbn; lia|]. exists [].
    rewrite app_nil_r. split; [reflexivity|cbn; lia].
  - unfold bind at 1 in H. unfold call in H.
    destruct (client w (client_calls w)) as [t| |e]; [| |discriminate].
    + unfold bind, modify in H. apply IH in H.
      destruct H as (Hc & samples & Hr & Hl). wsimpl.
      split; [cbn [List.length]; lia|].
      exists ((cmd, t) :: samples). rewrite Hr, <- app_assoc.
      split; [reflexivity|cbn [List.length]; lia].
    + unfold bind, ret in H. apply IH in H.
      destruct H as (Hc & samples & Hr & Hl). wsimpl.
      split; [cbn [List.length]; lia|].
      exists samples. split; [exact Hr|cbn [List.length]; lia].
Qed.

(** A batch that completes makes exactly one client call per command:
    [creates + reads + updates + deletes + 2 * (reads_and_updates // 2)]
    calls, whatever [BATCH_SIZE] is; the latency samples it records are
    appended to the reservoir, at most one per call. *)
Theorem do_batch_makes_one_call_per_command
    {sp : Spooky} {dict : Dictionary} (self : Worker.t) (w w' : World) :
  KVWorker.do_batch self w = (Ok tt, w') ->
  let ws := Worker.ws self in
  let commands :=
    (Z.to_nat (WorkloadSettings.creates ws)
     + Z.to_nat (WorkloadSettings.reads ws)
     + Z.to_nat (WorkloadSettings.updates ws)
     + Z.to_nat (WorkloadSettings.deletes ws)
     + 2 * Z.to_nat (WorkloadSettings.reads_and_updates ws / 2))%nat in
  client_calls w' = (client_calls w + commands)%nat /\
  exists samples,
    reservoir w' = (reservoir w ++ samples)%list /\
    (List.length samples <= commands)%nat.
Proof.
  intros H ws commands.
  assert (Hbody : exists w1,
             (cmds <- KVWorker.gen_cmd_sequence self ;; KVWorker.exec_cmds cmds) w
             = (Ok tt, w1) /\ client_calls w' = client_calls w1 /\
             reservoir w' = reservoir w1).
  { unfold KVWorker.do_batch, with_sleep in H.
    destruct (Worker.target_time self).
    - unfold bind at 1 in H.
      destruct ((cmds <- KVWorker.gen_cmd_sequence self ;;
                 KVWorker.exec_cmds cmds) w) as [[[]|e] w1]; [|discriminate].
      unfold time_sleep, ret in H. inversion H; subst. eauto.
    - eauto. }
  destruct Hbody as (w1 & Hb & -> & ->). unfold bind in Hb.
  destruct (KVWorker.gen_cmd_sequence self w) as [[cmds|e] w0] eqn:Eg;
    [|discriminate].
  apply gen_cmd_sequence_length in Eg. cbv zeta in Eg.
  destruct Eg as (Hlen & Hcalls & Hres).
  apply exec_cmds_calls in Hb. destruct Hb as (Hc & samples & Hr & Hl).
  fold ws in Hlen. fold commands in Hlen.
  rewrite Hlen in *. rewrite Hcalls in Hc. rewrite Hres in Hr.
  split; [exact Hc|]. exists samples. split; assumption.
Qed.

Lemma do_batch_makes_one_call_per_command_witness :
  let ws := WorkloadSettings.mk 10 1 1 1 0 0 2 None None 100 100 0 0 Float.zero Float.zero 1
                                "" "string" 8 0 0 in
  let w := WorkloadGen.initial_world ws (replay [0; 1; 4; 7; 2; 3; 5])
             (fun i => if Nat.even i then Latency 5 else NoLatency)
             (fun _ => false) in
  let self := Worker.mk "kv-worker" ws (TargetSettings.mk "") false 0 None
                (NewOrderedKey.mk "" "") (EKUniform (UniformKey.mk "" ""))
                (KeyForRemoval.mk "" "") (KeyForCASUpdate.mk 1 "" "")
                (DocString (StringDoc.mk 8)) in
  exists w',
    @KVWorker.do_batch example_spooky example_dictionary self w = (Ok tt, w') /\
    client_calls w' = 4%nat.
Proof.
  cbv zeta.
  match goal with
  | |- exists w', ?run = _ /\ _ =>
      assert (H : exists w', run = (Ok tt, w'))
        by (eexists; vm_compute; reflexivity)
  end.
  destruct H as [w' H]. exists w'. split; [exact H|].
  exact (proj1 (@do_batch_makes_one_call_per_command example_spooky
                  example_dictionary _ _ _ H)).
Defined.

(** ** The operation counter of the run loop *)

Lemma run_loop_counter {sp : Spooky} {dict : Dictionary}
    (self : Worker.t) (n : Z) :
  WorkloadSettings.ops (Worker.ws self) = Some n ->
  n <= 2 ^ 64 - Worker.BATCH_SIZE ->
  forall (fuel : nat) (next_report : Float.t) (w : World) (r : Res unit)
         (w' : World),
    KVWorker.run_loop fuel self next_report w = Some (r, w') ->
    0 <= curr_ops w < n + Worker.BATCH_SIZE ->
    curr_ops w <= curr_ops w' < n + Worker.BATCH_SIZE /\
    (curr_ops w' - curr_ops w) mod Worker.BATCH_SIZE = 0.
Proof.
  intros Hops Hn. unfold Worker.BATCH_SIZE in *.
  induction fuel as [|fuel IH]; intros nr w r w' H Hw;
    cbn [KVWorker.run_loop] in H; [discriminate|].
  destruct (KVWorker.run_condition self w) as [rc w1] eqn:Ec.
  pose proof (run_condition_spec self w rc w1 Ec) as (Ho1 & _ & _ & (b & ->) & _).
  destruct b.
  - apply (run_condition_true self n) in Ec; [|exact Hops].
    destruct (KVWorker.run_body self nr w1) as [rb w2] eqn:Eb.
    apply run_body_spec in Eb. destruct Eb as (Ho2 & _ & _).
    unfold Worker.BATCH_SIZE in Ho2. rewrite c_ulong_small in Ho2 by lia.
    assert (Hstep : curr_ops w <= curr_ops w2 < n + 100 /\
                    (curr_ops w2 - curr_ops w) mod 100 = 0).
    { rewrite Ho2, Ho1. split; [lia|].
      replace (curr_ops w + 100 - curr_ops w) with (1 * 100) by lia.
      apply Z.mod_mul. lia. }
    destruct rb as [u|e].
    + apply IH in H; [|lia]. destruct H as (Hr & Hm).
      split; [lia|].
      replace (curr_ops w' - curr_ops w)
        with ((curr_ops w' - curr_ops w2) + (curr_ops w2 - curr_ops w)) by lia.
      rewrite Z.add_mod by lia. destruct Hstep as (_ & Hs).
      rewrite Hm, Hs. reflexivity.
    + inversion H; subst. exact Hstep.
  - inversion H; subst. rewrite Ho1. split; [lia|].
    rewrite Z.sub_diag. reflexivity.
Qed.

(** A worker that runs alone, so that no other worker moves the operation
    counter during its run: with a finite [ws.ops] (within the 64-bit
    counter), however [run] ends, the counter has grown by a whole number
    of batches and is below [ws.ops + BATCH_SIZE]; the worker starts no
    batch once the counter has reached [ws.ops].  (Workers of a pool read
    the counter outside the lock: together they can overshoot further.) *)
Theorem run_counter_overshoot_is_bounded
    {sp : Spooky} {dict : Dictionary} (fuel : nat) (self : Worker.t)
    (next_report : Float.t) (sid n : Z) (w : World) (r : Res unit)
    (w' : World) :
  KVWorker.run fuel self next_report sid w = Some (r, w') ->
  WorkloadSettings.ops (Worker.ws self) = Some n ->
  n <= 2 ^ 64 - Worker.BATCH_SIZE ->
  0 <= curr_ops w < n + Worker.BATCH_SIZE ->
  curr_ops w <= curr_ops w' < n + Worker.BATCH_SIZE /\
  (curr_ops w' - curr_ops w) mod Worker.BATCH_SIZE = 0.
Proof.
  intros H Hops Hn Hw. unfold KVWorker.run in H.
  destruct (KVWorker.run_setup self sid w) as [[self'|e] w1] eqn:Es;
    apply run_setup_spec in Es.
  - destruct Es as ((tgt & ->) & ->).
    set (self' := Worker.set_run_args sid tgt self) in *.
    destruct (KVWorker.run_loop fuel self' next_report _) as [[rl w2]|] eqn:El;
      [|discriminate].
    apply (run_loop_counter self' n Hops Hn) in El; [|wsimpl; exact Hw].
    wsimpl.
    destruct rl as [[]|e].
    + unfold bind, logger_info, modify, Worker.dump_stats in H.
      inversion H; subst. wsimpl. exact El.
    + destruct (Py.Exn_is_KeyboardInterrupt e).
      * unfold bind, logger_info, modify, Worker.dump_stats in H.
        inversion H; subst. wsimpl. exact El.
      * inversion H; subst. exact El.
  - destruct Es as (_ & ->). inversion H; subst.
    split; [lia|]. rewrite Z.sub_diag. reflexivity.
Qed.

Lemma run_counter_overshoot_is_bounded_witness :
  let ws := WorkloadSettings.mk 10 1 0 1 0 0 0 (Some 250) None 100 100 0 0 Float.zero Float.zero 1
                                "" "string" 8 0 0 in
  let w := WorkloadGen.initial_world ws (replay [4; 5; 6])
             (fun i => Latency (Z.of_nat i)) (fun _ => false) in
  let self := Worker.mk "kv-worker" ws (TargetSettings.mk "") true 0 None
                (NewOrderedKey.mk "" "") (EKUniform (UniformKey.mk "" ""))
                (KeyForRemoval.mk "" "") (KeyForCASUpdate.mk 1 "" "")
                (DocString (StringDoc.mk 8)) in
  exists w',
    @KVWorker.run example_spooky example_dictionary 5 self
      Worker.initial_next_report 0 w = Some (Ok tt, w') /\
    curr_ops w <= curr_ops w' < 250 + Worker.BATCH_SIZE.
Proof.
  cbv zeta.
  match goal with
  | |- exists w', ?run = _ /\ _ =>
      assert (H : exists w', run = Some (Ok tt, w'))
        by (eexists; vm_compute; reflexivity)
  end.
  destruct H as [w' H]. exists w'. split; [exact H|].
  refine (proj1 (@run_counter_overshoot_is_bounded example_spooky
                   example_dictionary _ _ _ _ 250 _ _ _ H eq_refl _ _)).
  - vm_compute. discriminate.
  - vm_compute. split; [discriminate|reflexivity].
Defined.

(** ** Warm-up of the working set *)





(** ** Array fields of [ArrayIndexingDocument] *)

Lemma In_offset_range (offset size n : Z) :
  In n (map (fun i => offset + i) (range_upto size)) <->
  offset <= n < offset + size.
Proof.
  rewrite in_map_iff. split.
  - intros (i & <- & Hi). apply In_range_upto in Hi. lia.
  - intros Hn. exists (n - offset). split; [lia|].
    apply In_range_upto. lia.
Qed.

Lemma NoDup_offset_range (offset size : Z) :
  NoDup (map (fun i => offset + i) (range_upto size)).
Proof.
  apply Finite.Injective_map_NoDup; [|apply NoDup_range_upto].
  intros a b Hab. lia.
Qed.

Lemma length_range_upto (n : Z) : List.length (range_upto n) = Z.to_nat n.
Proof. unfold range_upto. rewrite length_map, length_seq. reflexivity. Qed.

Lemma achievements1_static (self : ArrayIndexingDocument.t) (seq_id : Z)
    (w : World) :
  ArrayIndexingDocument.is_random self = false ->
  ArrayIndexingDocument.build_achievements1 self seq_id w
  = (Ok (map (fun i => seq_id * ArrayIndexingDocument.array_size self + i)
             (range_upto (ArrayIndexingDocument.array_size self))), w).
Proof.
  intros Hr. unfold ArrayIndexingDocument.build_achievements1.
  rewrite Hr. reflexivity.
Qed.

Lemma achievements1_random (self : ArrayIndexingDocument.t) (seq_id : Z)
    (w : World) :
  ArrayIndexingDocument.is_random self = true ->
  1 <= ArrayIndexingDocument.array_size self ->
  exists r,
    1 <= r <= ArrayIndexingDocument.array_size self /\
    ArrayIndexingDocument.build_achievements1 self seq_id w
    = (Ok (map (fun i =>
                  ArrayIndexingDocument.num_docs self
                  * ArrayIndexingDocument.array_size self
                  + 2 * seq_id * ArrayIndexingDocument.array_size self + r + i)
               (range_upto (ArrayIndexingDocument.array_size self))),
       W.set_cursor (S (cursor w)) w).
Proof.
  intros Hr HA. unfold ArrayIndexingDocument.build_achievements1.
  rewrite Hr.
  destruct (randint_ok 1 (ArrayIndexingDocument.array_size self) w HA)
    as (r & E & Hb).
  exists r. split; [exact Hb|].
  unfold bind at 1. unfold bind at 1. rewrite E. reflexivity.
Qed.

(** Static documents ([is_random] false, that is the prefix [n1ql]): the
    array [achievements1] of a document is built without any random draw,
    has [array_size] distinct entries, and the arrays of two different
    sequence numbers have no entry in common. *)
Theorem achievements1_static_arrays_are_unique
    (self : ArrayIndexingDocument.t) (s1 s2 : Z) (w1 w2 : World) :
  ArrayIndexingDocument.is_random self = false ->
  0 <= ArrayIndexingDocument.array_size self ->
  s1 <> s2 ->
  exists l1 l2,
    ArrayIndexingDocument.build_achievements1 self s1 w1 = (Ok l1, w1) /\
    ArrayIndexingDocument.build_achievements1 self s2 w2 = (Ok l2, w2) /\
    List.length l1 = Z.to_nat (ArrayIndexingDocument.array_size self) /\
    NoDup l1 /\
    (forall n, In n l1 -> In n l2 -> False).
Proof.
  intros Hr HA Hne.
  do 2 eexists.
  split; [apply achievements1_static; exact Hr|].
  split; [apply achievements1_static; exact Hr|].
  split; [rewrite length_map; apply length_range_upto|].
  split; [apply NoDup_offset_range|].
  intros n H1 H2.
  apply In_offset_range in H1. apply In_offset_range in H2.
  destruct (Z.lt_total s1 s2) as [Hlt|[Heq|Hlt]]; [|contradiction|].
  - assert (0 <= (s2 - s1 - 1) * ArrayIndexingDocument.array_size self)
      by (apply Z.mul_nonneg_nonneg; lia).
    lia.
  - assert (0 <= (s1 - s2 - 1) * ArrayIndexingDocument.array_size self)
      by (apply Z.mul_nonneg_nonneg; lia).
    lia.
Qed.

Lemma achievements1_static_arrays_are_unique_witness :
  exists l1 l2,
    ArrayIndexingDocument.build_achievements1
      (ArrayIndexingDocument.init "n1ql" 10 100) 7
      (WorkloadGen.initial_world default_settings (fun _ => 0)
                                 (fun _ => NoLatency) (fun _ => false))
    = (Ok l1, WorkloadGen.initial_world default_settings (fun _ => 0)
                                 (fun _ => NoLatency) (fun _ => false)) /\
    ArrayIndexingDocument.build_achievements1
      (ArrayIndexingDocument.init "n1ql" 10 100) 8
      (WorkloadGen.initial_world default_settings (fun _ => 0)
                                 (fun _ => NoLatency) (fun _ => false))
    = (Ok l2, WorkloadGen.initial_world default_settings (fun _ => 0)
                                 (fun _ => NoLatency) (fun _ => false)) /\
    List.length l1 = 10%nat /\
    NoDup l1 /\
    (forall n, In n l1 -> In n l2 -> False).
Proof.
  apply (achievements1_static_arrays_are_unique
           (ArrayIndexingDocument.init "n1ql" 10 100) 7 8);
    [reflexivity | cbn; lia | lia].
Defined.

(** Random documents (any prefix other than [n1ql]) with an array size of
    at least 1: [achievements1] takes one draw and returns [array_size]
    consecutive numbers strictly inside the doubled, shifted range
    [(num_docs + 2 seq_id) * array_size, (num_docs + 2 seq_id + 2) * array_size].
    Hence the random arrays of two different sequence numbers never share
    an entry, and for a sequence number of at least 1 (the documents pass
    [key.number + 1]) a random array shares no entry with the static array
    of any sequence number up to [num_docs]. *)
Theorem achievements1_random_arrays_do_not_overlap
    (self : ArrayIndexingDocument.t) (s : Z) (w : World) :
  let A := ArrayIndexingDocument.array_size self in
  let N := ArrayIndexingDocument.num_docs self in
  ArrayIndexingDocument.is_random self = true ->
  1 <= A ->
  exists l,
    ArrayIndexingDocument.build_achievements1 self s w
    = (Ok l, W.set_cursor (S (cursor w)) w) /\
    List.length l = Z.to_nat A /\
    (forall n, In n l -> (N + 2 * s) * A < n < (N + 2 * s + 2) * A) /\
    (forall s' w' l' w'',
       s' <> s ->
       ArrayIndexingDocument.build_achievements1 self s' w' = (Ok l', w'') ->
       forall n, In n l -> In n l' -> False) /\
    (forall static s' w' l' w'',
       ArrayIndexingDocument.is_random static = false ->
       ArrayIndexingDocument.array_size static = A ->
       1 <= s -> s' <= N ->
       ArrayIndexingDocument.build_achievements1 static s' w' = (Ok l', w'') ->
       forall n, In n l -> In n l' -> False).
Proof.
  intros A N Hr HA.
  destruct (achievements1_random self s w Hr HA) as (r & Hrb & E).
  fold A N in Hrb, E.
  eexists. split; [exact E|].
  split; [rewrite length_map; apply length_range_upto|].
  assert (Hin : forall n,
             In n (map (fun i => N * A + 2 * s * A + r + i) (range_upto A)) ->
             (N + 2 * s) * A < n < (N + 2 * s + 2) * A).
  { intros n Hn. apply In_offset_range in Hn. nia. }
  split; [exact Hin|]. split.
  - intros s' w' l' w'' Hne E' n H1 H2.
    destruct (achievements1_random self s' w' Hr HA) as (r' & Hrb' & E2).
    fold A N in Hrb', E2.
    match type of E2 with
    | _ = (Ok ?x, _) => assert (Hl : l' = x) by congruence
    end.
    subst l'.
    apply Hin in H1. apply In_offset_range in H2.
    destruct (Z.lt_total s s') as [Hlt|[Heq|Hlt]];
      [|symmetry in Heq; contradiction|].
    + assert (0 <= (s' - s - 1) * A) by (apply Z.mul_nonneg_nonneg; lia).
      lia.
    + assert (0 <= (s - s' - 1) * A) by (apply Z.mul_nonneg_nonneg; lia).
      lia.
  - intros static s' w' l' w'' Hs HsA Hs1 Hs' E' n H1 H2.
    pose proof (achievements1_static static s' w' Hs) as E2.
    match type of E2 with
    | _ = (Ok ?x, _) => assert (Hl : l' = x) by congruence
    end.
    subst l'. rewrite HsA in H2.
    apply Hin in H1. apply In_offset_range in H2.
    assert (0 <= (N - s') * A) by (apply Z.mul_nonneg_nonneg; lia).
    assert (0 <= (s - 1) * A) by (apply Z.mul_nonneg_nonneg; lia).
    lia.
Qed.

Lemma achievements1_random_arrays_do_not_overlap_witness :
  exists l,
    ArrayIndexingDocument.build_achievements1
      (ArrayIndexingDocument.init "docs" 10 100) 7
      (WorkloadGen.initial_world default_settings (fun _ => 4)
                                 (fun _ => NoLatency) (fun _ => false))
    = (Ok l, W.set_cursor 1
               (WorkloadGen.initial_world default_settings (fun _ => 4)
                                 (fun _ => NoLatency) (fun _ => false))) /\
    List.length l = 10%nat /\
    (forall n, In n l -> 1140 < n < 1160).
Proof.
  destruct (achievements1_random_arrays_do_not_overlap
              (ArrayIndexingDocument.init "docs" 10 100) 7
              (WorkloadGen.initial_world default_settings (fun _ => 4)
                                 (fun _ => NoLatency) (fun _ => false)))
    as (l & E & Hlen & Hin & _); [reflexivity | cbn; lia |].
  exists l. split; [exact E|]. split; [exact Hlen|exact Hin].
Defined.

(** A random document with an array size below 1 cannot be built: the
    draw [random.randint(1, array_size)] has an empty range and raises
    [ValueError], whereas a static document gets an empty array. *)
Theorem achievements1_random_needs_a_positive_size
    (self : ArrayIndexingDocument.t) (s : Z) (w : World) :
  ArrayIndexingDocument.array_size self <= 0 ->
  ArrayIndexingDocument.build_achievements1 self s w
  = if ArrayIndexingDocument.is_random self
    then (Raise Py.ValueError, w) else (Ok [], w).
Proof.
  intros HA. unfold ArrayIndexingDocument.build_achievements1.
  destruct (ArrayIndexingDocument.is_random self).
  - unfold bind at 1. unfold bind at 1. unfold Random.randint.
    rewrite randrange_empty by lia. reflexivity.
  - unfold bind, ret. unfold range_upto.
    replace (Z.to_nat (ArrayIndexingDocument.array_size self)) with 0%nat
      by lia.
    reflexivity.
Qed.

Lemma achievements1_random_needs_a_positive_size_witness :
  ArrayIndexingDocument.build_achievements1
    (ArrayIndexingDocument.init "docs" 0 100) 7
    (WorkloadGen.initial_world default_settings (fun _ => 4)
                               (fun _ => NoLatency) (fun _ => false))
  = (Raise Py.ValueError,
     WorkloadGen.initial_world default_settings (fun _ => 4)
                               (fun _ => NoLatency) (fun _ => false)).
Proof.
  apply (achievements1_random_needs_a_positive_size
           (ArrayIndexingDocument.init "docs" 0 100) 7). cbn. lia.
Defined.

Lemma achievements2_static (self : ArrayIndexingDocument.t) (seq_id : Z)
    (w : World) :
  ArrayIndexingDocument.is_random self = false ->
  ArrayIndexingDocument.build_achievements2 self seq_id w
  = (Ok (map (fun i => seq_id / 100 * 10 + i) (range_upto 10)), w).
Proof.
  intros Hr. unfold ArrayIndexingDocument.build_achievements2.
  rewrite Hr. reflexivity.
Qed.

(** Static documents: the array [achievements2] has 10 entries and depends
    only on the block [seq_id // 100] of the sequence number.  Two
    documents of the same block of 100 get the same array, two documents
    of different blocks get arrays with no entry in common. *)
Theorem achievements2_static_arrays_are_shared_per_block
    (self : ArrayIndexingDocument.t) (s1 s2 : Z) (w1 w2 : World) :
  ArrayIndexingDocument.is_random self = false ->
  exists l1 l2,
    ArrayIndexingDocument.build_achievements2 self s1 w1 = (Ok l1, w1) /\
    ArrayIndexingDocument.build_achievements2 self s2 w2 = (Ok l2, w2) /\
    List.length l1 = 10%nat /\
    (s1 / 100 = s2 / 100 -> l1 = l2) /\
    (s1 / 100 <> s2 / 100 -> forall n, In n l1 -> In n l2 -> False).
Proof.
  intros Hr. do 2 eexists.
  split; [apply achievements2_static; exact Hr|].
  split; [apply achievements2_static; exact Hr|].
  split; [reflexivity|]. split.
  - intros ->. reflexivity.
  - intros Hne n H1 H2.
    apply In_offset_range in H1. apply In_offset_range in H2. lia.
Qed.

Lemma achievements2_static_arrays_are_shared_per_block_witness :
  exists l,
    ArrayIndexingDocument.build_achievements2
      (ArrayIndexingDocument.init "n1ql" 10 1000) 100
      (WorkloadGen.initial_world default_settings (fun _ => 0)
                                 (fun _ => NoLatency) (fun _ => false))
    = (Ok l, WorkloadGen.initial_world default_settings (fun _ => 0)
                                 (fun _ => NoLatency) (fun _ => false)) /\
    ArrayIndexingDocument.build_achievements2
      (ArrayIndexingDocument.init "n1ql" 10 1000) 199
      (WorkloadGen.initial_world default_settings (fun _ => 0)
                                 (fun _ => NoLatency) (fun _ => false))
    = (Ok l, WorkloadGen.initial_world default_settings (fun _ => 0)
                                 (fun _ => NoLatency) (fun _ => false)).
Proof.
  destruct (achievements2_static_arrays_are_shared_per_block
              (ArrayIndexingDocument.init "n1ql" 10 1000) 100 199
              (WorkloadGen.initial_world default_settings (fun _ => 0)
                                 (fun _ => NoLatency) (fun _ => false))
              (WorkloadGen.initial_world default_settings (fun _ => 0)
                                 (fun _ => NoLatency) (fun _ => false)))
    as (l1 & l2 & E1 & E2 & _ & Hsame & _); [reflexivity|].
  exists l1. split; [exact E1|].
  rewrite (Hsame eq_refl). exact E2.
Defined.

(** ** Key strings identify key numbers *)

Lemma str_append_cancel (p x y : string) :
  (p ++ x)%string = (p ++ y)%string -> x = y.
Proof.
  induction p as [|c p IH]; cbn [String.append]; intros H.
  - exact H.
  - apply IH. congruence.
Qed.

Lemma fmt_0d_inj (width : nat) (a b : Z) :
  0 <= a -> 0 <= b -> Py.fmt_0d width a = Py.fmt_0d width b -> a = b.
Proof.
  intros Ha Hb. unfold Py.fmt_0d, Py.zero_pad.
  assert (Ea : (a <? 0) = false) by (apply Z.ltb_ge; lia).
  assert (Eb : (b <? 0) = false) by (apply Z.ltb_ge; lia).
  rewrite Ea, Eb. intros H.
  pose proof (int_of_str_zero_padded
                (width - String.length (Py.dec_digits a)) a Ha) as Pa.
  pose proof (int_of_str_zero_padded
                (width - String.length (Py.dec_digits b)) b Hb) as Pb.
  rewrite H in Pa. congruence.
Qed.

Lemma to_hex_uint_nonnil (n : N) : N.to_hex_uint n <> Hexadecimal.Nil.
Proof.
  destruct n as [|p]; cbn [N.to_hex_uint].
  - discriminate.
  - apply HexadecimalPos.Unsigned.to_uint_nonnil.
Qed.

(** Parsing a padded hexadecimal string: the zeros in front do not count. *)
Lemma parse_hex_zero_padded (k : nat) (d : Hexadecimal.uint) :
  d <> Hexadecimal.Nil ->
  option_map N.of_hex_uint
    (HexadecimalString.NilZero.uint_of_string
       (Py.str_repeat k "0" ++ HexadecimalString.NilZero.string_of_uint d))
  = Some (N.of_hex_uint d).
Proof.
  intros Hd.
  assert (Hs : HexadecimalString.NilZero.string_of_uint d
               = HexadecimalString.NilEmpty.string_of_uint d)
    by (destruct d; try reflexivity; contradiction).
  assert (Hne : HexadecimalString.NilEmpty.string_of_uint d <> "")
    by (destruct d; try discriminate; contradiction).
  rewrite Hs.
  assert (Hpad : forall k,
             option_map N.of_hex_uint
               (HexadecimalString.NilEmpty.uint_of_string
                  (Py.str_repeat k "0"
                   ++ HexadecimalString.NilEmpty.string_of_uint d))
             = Some (N.of_hex_uint d)).
  { clear k. induction k as [|k IH]; cbn [Py.str_repeat String.append].
    - rewrite HexadecimalString.NilEmpty.usu. reflexivity.
    - cbn [HexadecimalString.NilEmpty.uint_of_string].
      destruct (HexadecimalString.NilEmpty.uint_of_string _) as [d'|];
        [|discriminate].
      cbn [HexadecimalString.uint_of_char option_map] in *. exact IH. }
  specialize (Hpad k).
  destruct (Py.str_repeat k "0" ++ HexadecimalString.NilEmpty.string_of_uint d)
    as [|c r] eqn:E.
  - destruct k; cbn [Py.str_repeat String.append] in E;
      [contradiction | discriminate].
  - exact Hpad.
Qed.

Lemma fmt_0x_inj (width : nat) (a b : Z) :
  0 <= a -> 0 <= b -> Py.fmt_0x width a = Py.fmt_0x width b -> a = b.
Proof.
  intros Ha Hb. unfold Py.fmt_0x, Py.zero_pad, Py.hex_digits.
  assert (Ea : (a <? 0) = false) by (apply Z.ltb_ge; lia).
  assert (Eb : (b <? 0) = false) by (apply Z.ltb_ge; lia).
  rewrite Ea, Eb. intros H.
  pose proof (parse_hex_zero_padded
                (width - String.length
                           (HexadecimalString.NilZero.string_of_uint
                              (N.to_hex_uint (Z.to_N a))))
                (N.to_hex_uint (Z.to_N a)) (to_hex_uint_nonnil _)) as Pa.
  pose proof (parse_hex_zero_padded
                (width - String.length
                           (HexadecimalString.NilZero.string_of_uint
                              (N.to_hex_uint (Z.to_N b))))
                (N.to_hex_uint (Z.to_N b)) (to_hex_uint_nonnil _)) as Pb.
  rewrite H in Pa. rewrite Pb in Pa.
  rewrite !HexadecimalN.Unsigned.of_to in Pa. injection Pa as Pa. lia.
Qed.

Lemma with_prefix_inj (prefix x y : string) :
  (if (prefix =? "")%string then x else prefix ++ "-" ++ x)
  = (if (prefix =? "")%string then y else prefix ++ "-" ++ y) ->
  x = y.
Proof.
  destruct (prefix =? "")%string; intros H.
  - exact H.
  - apply str_append_cancel in H. apply (str_append_cancel "-") in H. exact H.
Qed.

Lemma multiplier_invertible (a b : Z) :
  0 <= a < MAX_PRIME -> 0 <= b < MAX_PRIME ->
  (a * PRIME) mod MAX_PRIME = (b * PRIME) mod MAX_PRIME -> a = b.
Proof.
  intros Ha Hb H.
  assert (Hdiv : (MAX_PRIME | PRIME * (a - b))).
  { apply Z.mod_divide; [unfold MAX_PRIME; lia|].
    replace (PRIME * (a - b)) with (a * PRIME - b * PRIME) by ring.
    rewrite Zminus_mod, H, Z.sub_diag. reflexivity. }
  apply Z.gauss in Hdiv; [|vm_compute; reflexivity].
  destruct Hdiv as (q & Hq).
  assert (q = 0) by (unfold MAX_PRIME in *; nia).
  subst q. lia.
Qed.

Lemma hex_fmtr_inj (a b : Z) (prefix : string) :
  0 <= a < MAX_PRIME -> 0 <= b < MAX_PRIME ->
  hex_fmtr a Py.PyInt prefix = hex_fmtr b Py.PyInt prefix -> a = b.
Proof.
  intros Ha Hb H. unfold hex_fmtr in H. cbv zeta in H.
  apply with_prefix_inj in H.
  pose proof (Z.mod_pos_bound (a * PRIME) MAX_PRIME ltac:(unfold MAX_PRIME; lia)).
  pose proof (Z.mod_pos_bound (b * PRIME) MAX_PRIME ltac:(unfold MAX_PRIME; lia)).
  apply fmt_0x_inj in H;
    [|apply Z.pow_nonneg; unfold OFFSET; lia
     |apply Z.pow_nonneg; unfold OFFSET; lia].
  apply Z.pow_inj_l in H; [|unfold OFFSET; lia|unfold OFFSET; lia|lia].
  apply multiplier_invertible; [exact Ha|exact Hb|lia].
Qed.

(** A [numpy.int64] number whose product with [PRIME] fits in 64 bits is
    formatted like the Python [int] of the same value. *)
Lemma hex_fmtr_int64_small (n : Z) (prefix : string) :
  0 <= n -> n * PRIME < 2 ^ 63 ->
  hex_fmtr n Py.NpInt64 prefix = hex_fmtr n Py.PyInt prefix.
Proof.
  intros H0 Hn. unfold hex_fmtr, Py.int64. cbv zeta.
  assert (0 <= n * PRIME) by (unfold PRIME; lia).
  replace ((n * PRIME + 2 ^ 63) mod 2 ^ 64 - 2 ^ 63) with (n * PRIME);
    [reflexivity|].
  rewrite Z.mod_small by lia. lia.
Qed.

(** Two keys with the same prefix and the same formatter, other than
    [hash], have the same string only if they have the same number: for
    the decimal formatter on all numbers from 0, whatever their types; for
    the [hex] formatter on the Python [int] numbers below [MAX_PRIME] and
    on the numbers, of either type, whose product with [PRIME] is below
    [2^63]. *)
Theorem Key_string_identifies_the_number {sp : Spooky}
    (n1 n2 : Z) (t1 t2 : Py.IntType) (prefix fmtr : string) (h1 h2 : bool) :
  (fmtr =? "hash")%string = false ->
  0 <= n1 -> 0 <= n2 ->
  ((fmtr =? "hex")%string = true ->
   ((t1 = Py.PyInt /\ n1 < MAX_PRIME) \/ n1 * PRIME < 2 ^ 63) /\
   ((t2 = Py.PyInt /\ n2 < MAX_PRIME) \/ n2 * PRIME < 2 ^ 63)) ->
  Key.string (Key.make n1 prefix fmtr h1 t1)
  = Key.string (Key.make n2 prefix fmtr h2 t2) ->
  n1 = n2.
Proof.
  intros Hhash H1 H2 Hhex. unfold Key.string.
  cbn [Key.fmtr Key.number Key.prefix Key.number_type]. rewrite Hhash.
  destruct (fmtr =? "hex")%string.
  - destruct (Hhex eq_refl) as [Hc1 Hc2].
    assert (E1 : hex_fmtr n1 t1 prefix = hex_fmtr n1 Py.PyInt prefix
                 /\ n1 < MAX_PRIME).
    { destruct Hc1 as [[-> Hb]|Hs]; [split; [reflexivity|exact Hb]|].
      split; [|unfold PRIME, MAX_PRIME in *; lia].
      destruct t1; [reflexivity|]. apply hex_fmtr_int64_small; assumption. }
    assert (E2 : hex_fmtr n2 t2 prefix = hex_fmtr n2 Py.PyInt prefix
                 /\ n2 < MAX_PRIME).
    { destruct Hc2 as [[-> Hb]|Hs]; [split; [reflexivity|exact Hb]|].
      split; [|unfold PRIME, MAX_PRIME in *; lia].
      destruct t2; [reflexivity|]. apply hex_fmtr_int64_small; assumption. }
    destruct E1 as [-> Hb1]. destruct E2 as [-> Hb2].
    apply hex_fmtr_inj; lia.
  - unfold decimal_fmtr. cbv zeta. intros H.
    apply with_prefix_inj in H. apply fmt_0d_inj in H; assumption.
Qed.

Lemma Key_string_identifies_the_number_witness :
  Key.string (sp := example_spooky) (Key.mk 7 "p" "hex" false)
  = Key.string (sp := example_spooky)
      (Key.make (3 + 4) "p" "hex" true Py.NpInt64) /\
  7 = 3 + 4.
Proof.
  split; [reflexivity|].
  apply (Key_string_identifies_the_number (sp := example_spooky)
           7 (3 + 4) Py.PyInt Py.NpInt64 "p" "hex" false true);
    [reflexivity | lia | lia | | reflexivity].
  intros _. split; [left; split; [reflexivity|unfold MAX_PRIME; lia]|].
  right. unfold PRIME. lia.
Defined.

(** For Python [int] numbers the [hex] formatter has period [MAX_PRIME]:
    the key numbers [n] and [n + MAX_PRIME] get the same key string,
    whatever the prefix.  For [numpy.int64] numbers the product with
    [PRIME] wraps around at 64 bits: the period is lost (5 and
    [5 + MAX_PRIME] get different strings) and two numbers below
    [MAX_PRIME] can get the same string (1886405998 and 8846391963). *)
Theorem hex_keys_repeat_with_period_MAX_PRIME {sp : Spooky} :
  (forall (n : Z) (prefix : string) (h1 h2 : bool),
     Key.string (Key.mk (n + MAX_PRIME) prefix "hex" h1)
     = Key.string (Key.mk n prefix "hex" h2)) /\
  Key.string (Key.make (5 + MAX_PRIME) "" "hex" false Py.NpInt64)
  <> Key.string (Key.make 5 "" "hex" false Py.NpInt64) /\
  Key.string (Key.make 1886405998 "" "hex" false Py.NpInt64)
  = Key.string (Key.make 8846391963 "" "hex" false Py.NpInt64).
Proof.
  split; [|split].
  - intros n prefix h1 h2.
    unfold Key.string. cbn [Key.fmtr Key.number Key.prefix Key.number_type].
    change ("hex" =? "hash")%string with false.
    change ("hex" =? "hex")%string with true. cbv iota.
    unfold hex_fmtr. cbv zeta.
    replace ((n + MAX_PRIME) * PRIME) with (n * PRIME + PRIME * MAX_PRIME)
      by ring.
    rewrite Z.mod_add by (unfold MAX_PRIME; lia). reflexivity.
  - vm_compute. discriminate.
  - vm_compute. reflexivity.
Qed.

(** ** Reference fields of [JoinedDocument] *)

Lemma decimal_fmtr_inj (a b : Z) (prefix : string) :
  0 <= a -> 0 <= b -> decimal_fmtr a prefix = decimal_fmtr b prefix -> a = b.
Proof.
  intros Ha Hb H. unfold decimal_fmtr in H. cbv zeta in H.
  apply with_prefix_inj in H. apply fmt_0d_inj in H; assumption.
Qed.

Lemma mod_shift_inj (s i j n : Z) :
  0 < n -> - n < i - j < n -> (s + i) mod n = (s + j) mod n -> i = j.
Proof.
  intros Hn Hij H.
  pose proof (Z.div_mod (s + i) n ltac:(lia)) as Hi.
  pose proof (Z.div_mod (s + j) n ltac:(lia)) as Hj.
  rewrite H in Hi.
  assert (Hd : i - j = n * ((s + i) / n - (s + j) / n)) by lia.
  set (k := (s + i) / n - (s + j) / n) in Hd.
  destruct (Z.lt_total k 0) as [Hk|[Hk|Hk]].
  - assert (n * k <= n * (-1)) by (apply Z.mul_le_mono_nonneg_l; lia). lia.
  - rewrite Hk in Hd. lia.
  - assert (n * 1 <= n * k) by (apply Z.mul_le_mono_nonneg_l; lia). lia.
Qed.

Lemma pymod_ok (a b : Z) (w : World) :
  b <> 0 -> pymod a b w = (Ok (a mod b), w).
Proof.
  intros Hb. unfold pymod. apply Z.eqb_neq in Hb. rewrite Hb. reflexivity.
Qed.

Lemma comprehension_pure {A B} (f : A -> M B) (g : A -> B) (l : list A)
    (w : World) :
  (forall a, In a l -> f a w = (Ok (g a), w)) ->
  comprehension f l w = (Ok (map g l), w).
Proof.
  induction l as [|x l IH]; intros Hf; cbn [comprehension map].
  - reflexivity.
  - unfold bind at 1. rewrite (Hf x (or_introl eq_refl)).
    unfold bind at 1. rewrite IH by (intros a Ha; apply Hf; right; exact Ha).
    reflexivity.
Qed.

Lemma build_owner_ok (self : JoinedDocument.t) (s : Z) (w : World) :
  JoinedDocument.num_docs self / 4 <> 0 ->
  JoinedDocument.build_owner self s w
  = (Ok (decimal_fmtr (s mod (JoinedDocument.num_docs self / 4))
                      (JoinedDocument.prefix self)), w).
Proof.
  intros Hq. unfold JoinedDocument.build_owner, bind.
  rewrite pymod_ok by exact Hq. reflexivity.
Qed.

(** The owner field is a 4:1 reference.  With [q = num_docs // 4 >= 1],
    the owner of a document is built without touching the state, and a
    document [s] of the first [4 q] has the same owner as the document
    [r < q] exactly when [s] is one of [r], [r + q], [r + 2 q], [r + 3 q]. *)
Theorem JoinedDocument_owner_is_shared_by_four
    (self : JoinedDocument.t) (r s : Z) (w : World) :
  let q := JoinedDocument.num_docs self / 4 in
  1 <= q -> 0 <= r < q -> 0 <= s < 4 * q ->
  exists owner_r owner_s,
    JoinedDocument.build_owner self r w = (Ok owner_r, w) /\
    JoinedDocument.build_owner self s w = (Ok owner_s, w) /\
    (owner_s = owner_r <->
     s = r \/ s = r + q \/ s = r + 2 * q \/ s = r + 3 * q).
Proof.
  intros q Hq Hr Hs.
  do 2 eexists.
  split; [apply build_owner_ok; fold q; lia|].
  split; [apply build_owner_ok; fold q; lia|].
  fold q.
  pose proof (Z.mod_pos_bound s q ltac:(lia)) as Hsm.
  rewrite (Z.mod_small r q) by lia.
  pose proof (Z.div_mod s q ltac:(lia)) as Hdm.
  split.
  - intros H. apply decimal_fmtr_inj in H; [|lia|lia].
    assert (0 <= s / q < 4).
    { split; [apply Z.div_pos; lia|apply Z.div_lt_upper_bound; lia]. }
    assert (Hc : s / q = 0 \/ s / q = 1 \/ s / q = 2 \/ s / q = 3) by lia.
    destruct Hc as [Hc|[Hc|[Hc|Hc]]]; rewrite Hc in Hdm; lia.
  - intros H. f_equal.
    destruct H as [ -> | [ -> | [ -> | -> ] ] ].
    + apply Z.mod_small. lia.
    + replace (r + q) with (r + 1 * q) by lia.
      rewrite Z.mod_add by lia. apply Z.mod_small. lia.
    + rewrite Z.mod_add by lia. apply Z.mod_small. lia.
    + rewrite Z.mod_add by lia. apply Z.mod_small. lia.
Qed.

Lemma JoinedDocument_owner_is_shared_by_four_witness :
  exists owner,
    JoinedDocument.build_owner (JoinedDocument.mk "n1ql" 100 20 3) 7
      (WorkloadGen.initial_world default_settings (fun _ => 0)
                                 (fun _ => NoLatency) (fun _ => false))
    = (Ok owner,
       WorkloadGen.initial_world default_settings (fun _ => 0)
                                 (fun _ => NoLatency) (fun _ => false)) /\
    JoinedDocument.build_owner (JoinedDocument.mk "n1ql" 100 20 3) 57
      (WorkloadGen.initial_world default_settings (fun _ => 0)
                                 (fun _ => NoLatency) (fun _ => false))
    = (Ok owner,
       WorkloadGen.initial_world default_settings (fun _ => 0)
                                 (fun _ => NoLatency) (fun _ => false)).
Proof.
  destruct (JoinedDocument_owner_is_shared_by_four
              (JoinedDocument.mk "n1ql" 100 20 3) 7 57
              (WorkloadGen.initial_world default_settings (fun _ => 0)
                                 (fun _ => NoLatency) (fun _ => false)))
    as (o1 & o2 & E1 & E2 & Hiff); [cbn; lia | cbn; lia | cbn; lia |].
  exists o1. split; [exact E1|].
  rewrite <- (proj2 Hiff); [exact E2|].
  right. right. left. reflexivity.
Defined.


(** With more than 18 categories the four category references of a
    document are built without touching the state and are pairwise
    different keys. *)
Theorem JoinedDocument_categories_are_distinct
    (self : JoinedDocument.t) (s : Z) (w : World) :
  18 < JoinedDocument.num_categories self ->
  exists l,
    JoinedDocument.build_categories self s w = (Ok l, w) /\
    List.length l = 4%nat /\
    NoDup l.
Proof.
  intros Hn.
  exists (map (fun k => decimal_fmtr ((s + k) mod JoinedDocument.num_categories self)
                                     (JoinedDocument.prefix self))
              [11; 19; 23; 29]).
  split; [|split].
  - unfold JoinedDocument.build_categories.
    unfold bind at 1. rewrite pymod_ok by lia.
    unfold bind at 1. rewrite pymod_ok by lia.
    unfold bind at 1. rewrite pymod_ok by lia.
    unfold bind at 1. rewrite pymod_ok by lia.
    reflexivity.
  - reflexivity.
  - apply NoDup_map_NoDup_ForallPairs.
    + intros x y Hx Hy H.
      apply decimal_fmtr_inj in H;
        [|apply Z.mod_pos_bound; lia|apply Z.mod_pos_bound; lia].
      apply mod_shift_inj in H; [exact H|lia|].
      cbn [In] in Hx, Hy. lia.
    + repeat constructor; cbn [In]; lia.
Qed.

Lemma JoinedDocument_categories_are_distinct_witness :
  exists l,
    JoinedDocument.build_categories (JoinedDocument.mk "n1ql" 100 20 3) 7
      (WorkloadGen.initial_world default_settings (fun _ => 0)
                                 (fun _ => NoLatency) (fun _ => false))
    = (Ok l,
       WorkloadGen.initial_world default_settings (fun _ => 0)
                                 (fun _ => NoLatency) (fun _ => false)) /\
    List.length l = 4%nat /\
    NoDup l.
Proof.
  apply (JoinedDocument_categories_are_distinct
           (JoinedDocument.mk "n1ql" 100 20 3) 7). cbn. lia.
Defined.

(** With at least one document and no more replies than documents, the
    replies of a document are built without touching the state: there are
    [num_replies] of them and their users are pairwise different keys. *)
Theorem JoinedDocument_replies_have_distinct_users
    (self : JoinedDocument.t) (s : Z) (w : World) :
  1 <= JoinedDocument.num_docs self ->
  JoinedDocument.num_replies self <= JoinedDocument.num_docs self ->
  exists l,
    JoinedDocument.build_replies self s w = (Ok l, w) /\
    List.length l = Z.to_nat (JoinedDocument.num_replies self) /\
    NoDup l.
Proof.
  intros Hn Hr.
  exists (map (fun idx =>
                 decimal_fmtr ((s + idx + 537) mod JoinedDocument.num_docs self)
                              (JoinedDocument.prefix self))
              (range_upto (JoinedDocument.num_replies self))).
  split; [|split].
  - unfold JoinedDocument.build_replies. apply comprehension_pure.
    intros idx _. unfold JoinedDocument.build_user, bind.
    rewrite pymod_ok by lia. reflexivity.
  - rewrite length_map. apply length_range_upto.
  - apply NoDup_map_NoDup_ForallPairs; [|apply NoDup_range_upto].
    intros x y Hx Hy H.
    apply In_range_upto in Hx. apply In_range_upto in Hy.
    apply decimal_fmtr_inj in H;
      [|apply Z.mod_pos_bound; lia|apply Z.mod_pos_bound; lia].
    replace (s + x + 537) with (s + 537 + x) in H by lia.
    replace (s + y + 537) with (s + 537 + y) in H by lia.
    apply mod_shift_inj in H; [exact H|lia|lia].
Qed.

Lemma JoinedDocument_replies_have_distinct_users_witness :
  exists l,
    JoinedDocument.build_replies (JoinedDocument.mk "n1ql" 100 20 3) 7
      (WorkloadGen.initial_world default_settings (fun _ => 0)
                                 (fun _ => NoLatency) (fun _ => false))
    = (Ok l,
       WorkloadGen.initial_world default_settings (fun _ => 0)
                                 (fun _ => NoLatency) (fun _ => false)) /\
    List.length l = 3%nat /\
    NoDup l.
Proof.
  apply (JoinedDocument_replies_have_distinct_users
           (JoinedDocument.mk "n1ql" 100 20 3) 7); cbn; lia.
Defined.

(** ** Items of the plasma documents *)

Lemma str_length_body (alphabet : string) (length : Z) :
  (64 <= String.length alphabet)%nat -> 0 <= length ->
  length
  <= Z.of_nat (String.length (Py.str_mul (Py.ceil_div length 64) alphabet)).
Proof.
  intros Ha Hl. unfold Py.str_mul. rewrite str_length_repeat.
  pose proof (ceil_div_64 length) as Hc.
  assert (0 <= Py.ceil_div length 64) by lia.
  rewrite Nat2Z.inj_mul, Z2Nat.id by lia. nia.
Qed.

(** For an alphabet of at least 64 characters and a size that exceeds the
    length of the prefix, [build_item] takes one draw [num] between 1 and
    [length = size - len(prefix)] and returns the first [length] characters
    of the repeated alphabet rotated by [num].  Without a prefix the item
    has [size] characters; with a prefix it has [size + 1], because the
    separator is not counted in [length]. *)
Theorem PlasmaDocument_item_size
    (alphabet : string) (size : Z) (prefix : string) (w : World) :
  (64 <= String.length alphabet)%nat ->
  1 <= size - Z.of_nat (String.length prefix) ->
  exists num item,
    PlasmaDocument.build_item alphabet size prefix w
    = (Ok item, W.set_cursor (S (cursor w)) w) /\
    1 <= num <= size - Z.of_nat (String.length prefix) /\
    (let length := size - Z.of_nat (String.length prefix) in
     let body := Py.str_mul (Py.ceil_div length 64) alphabet in
     item = (if (prefix =? "")%string then "" else prefix ++ "-")
            ++ Py.slice body num length ++ Py.slice body 0 num) /\
    Z.of_nat (String.length item)
    = if (prefix =? "")%string then size else size + 1.
Proof.
  intros Ha Hl.
  set (length := size - Z.of_nat (String.length prefix)) in *.
  destruct (randint_ok 1 length w Hl) as (num & E & Hnum).
  pose proof (str_length_body alphabet length Ha ltac:(lia)) as Hbody.
  set (body := Py.str_mul (Py.ceil_div length 64) alphabet) in *.
  assert (Hrot : Z.of_nat (String.length
                   (Py.slice body num length ++ Py.slice body 0 num))
                 = length).
  { rewrite str_length_append, !str_length_slice by lia. lia. }
  unfold PlasmaDocument.build_item. fold length. fold body.
  unfold bind. rewrite E.
  destruct (prefix =? "")%string eqn:Ep.
  - exists num. eexists. split; [reflexivity|].
    split; [exact Hnum|]. split; [reflexivity|].
    apply String.eqb_eq in Ep. subst prefix.
    rewrite Hrot. unfold length. cbn [String.length]. lia.
  - exists num. eexists. split; [reflexivity|].
    split; [exact Hnum|]. split; [cbv zeta; apply str_append_assoc|].
    rewrite !str_length_append. cbn [String.length].
    rewrite str_length_append in Hrot. unfold length in *. lia.
Qed.

Lemma PlasmaDocument_item_size_witness :
  exists item w',
    PlasmaDocument.build_item
      (StringDoc.build_alphabet (sp := example_spooky) "000000000007") 17
      "000000000007"
      (WorkloadGen.initial_world default_settings (fun _ => 2)
                                 (fun _ => NoLatency) (fun _ => false))
    = (Ok item, w') /\
    Z.of_nat (String.length item) = 18.
Proof.
  destruct (PlasmaDocument_item_size
              (StringDoc.build_alphabet (sp := example_spooky) "000000000007")
              17 "000000000007"
              (WorkloadGen.initial_world default_settings (fun _ => 2)
                                 (fun _ => NoLatency) (fun _ => false)))
    as (num & item & E & _ & _ & Hlen); [vm_compute; lia | cbn; lia |].
  exists item. eexists. split; [exact E|exact Hlen].
Defined.

(** When the size does not exceed the length of the prefix, the item
    cannot be built: [random.randint(1, length)] has an empty range and
    raises [ValueError].  The state is left untouched. *)
Theorem PlasmaDocument_item_needs_room
    (alphabet : string) (size : Z) (prefix : string) (w : World) :
  size <= Z.of_nat (String.length prefix) ->
  PlasmaDocument.build_item alphabet size prefix w = (Raise Py.ValueError, w).
Proof.
  intros Hl. unfold PlasmaDocument.build_item, bind, Random.randint.
  rewrite randrange_empty by lia. reflexivity.
Qed.

Lemma PlasmaDocument_item_needs_room_witness :
  PlasmaDocument.build_item "abc" 0 ""
    (WorkloadGen.initial_world default_settings (fun _ => 2)
                               (fun _ => NoLatency) (fun _ => false))
  = (Raise Py.ValueError,
     WorkloadGen.initial_world default_settings (fun _ => 2)
                               (fun _ => NoLatency) (fun _ => false)).
Proof.
  apply (PlasmaDocument_item_needs_room "abc" 0 ""). cbn. lia.
Defined.

(** ** Capped fields of the lookup documents *)

Lemma str_of_int_inj (a b : Z) :
  0 <= a -> 0 <= b -> Py.str_of_int a = Py.str_of_int b -> a = b.
Proof.
  intros Ha Hb. unfold Py.str_of_int.
  assert (Ea : (a <? 0) = false) by (apply Z.ltb_ge; lia).
  assert (Eb : (b <? 0) = false) by (apply Z.ltb_ge; lia).
  rewrite Ea, Eb. intros H.
  pose proof (int_of_str_zero_padded 0 a Ha) as Pa.
  pose proof (int_of_str_zero_padded 0 b Hb) as Pb.
  cbn [Py.str_repeat String.append] in Pa, Pb.
  rewrite H in Pa. congruence.
Qed.

Lemma floordiv_ok (a b : Z) (w : World) :
  b <> 0 -> floordiv a b w = (Ok (a / b), w).
Proof.
  intros Hb. unfold floordiv. apply Z.eqb_neq in Hb. rewrite Hb. reflexivity.
Qed.

(** Static lookup documents ([is_random] false): for [num_unique >= 1] and
    sequence numbers from 0 the capped field is built without a draw, and
    two documents get the same capped value exactly when their sequence
    numbers fall in the same block [seq_id // num_unique].  This holds for
    [ReverseLookupDocument] and for the zero-padded variant of
    [ReverseRangeLookupDocument]. *)
Theorem capped_value_is_shared_per_block
    (self : ReverseLookupDocument.t) (alphabet : string)
    (s1 s2 num_unique : Z) (w : World) :
  ReverseLookupDocument.is_random self = false ->
  1 <= num_unique -> 0 <= s1 -> 0 <= s2 ->
  (exists c1 c2,
     ReverseLookupDocument.build_capped self alphabet s1 num_unique w
     = (Ok c1, w) /\
     ReverseLookupDocument.build_capped self alphabet s2 num_unique w
     = (Ok c2, w) /\
     (c1 = c2 <-> s1 / num_unique = s2 / num_unique)) /\
  (exists c1 c2,
     ReverseRangeLookupDocument.build_capped self alphabet s1 num_unique w
     = (Ok c1, w) /\
     ReverseRangeLookupDocument.build_capped self alphabet s2 num_unique w
     = (Ok c2, w) /\
     (c1 = c2 <-> s1 / num_unique = s2 / num_unique)).
Proof.
  intros Hr Hn H1 H2.
  assert (Hq1 : 0 <= s1 / num_unique) by (apply Z.div_pos; lia).
  assert (Hq2 : 0 <= s2 / num_unique) by (apply Z.div_pos; lia).
  split.
  - do 2 eexists.
    unfold ReverseLookupDocument.build_capped. rewrite Hr. unfold bind.
    rewrite !floordiv_ok by lia.
    split; [reflexivity|]. split; [reflexivity|]. split.
    + intros H.
      apply str_append_cancel in H. apply (str_append_cancel "_") in H.
      apply str_append_cancel in H. apply (str_append_cancel "_") in H.
      apply str_of_int_inj in H; assumption.
    + intros ->. reflexivity.
  - do 2 eexists.
    unfold ReverseRangeLookupDocument.build_capped. rewrite Hr. unfold bind.
    rewrite !floordiv_ok by lia.
    split; [reflexivity|]. split; [reflexivity|]. split.
    + intros H.
      apply str_append_cancel in H. apply (str_append_cancel "_") in H.
      apply str_append_cancel in H. apply (str_append_cancel "_") in H.
      apply fmt_0d_inj in H; assumption.
    + intros ->. reflexivity.
Qed.

Lemma capped_value_is_shared_per_block_witness :
  ReverseLookupDocument.build_capped (ReverseLookupDocument.init "n1ql")
    "0123456789abcdef" 205 100
    (WorkloadGen.initial_world default_settings (fun _ => 0)
                               (fun _ => NoLatency) (fun _ => false))
  = (Ok "n1ql_100_2",
     WorkloadGen.initial_world default_settings (fun _ => 0)
                               (fun _ => NoLatency) (fun _ => false)) /\
  exists c1 c2,
    ReverseLookupDocument.build_capped (ReverseLookupDocument.init "n1ql")
      "0123456789abcdef" 205 100
      (WorkloadGen.initial_world default_settings (fun _ => 0)
                                 (fun _ => NoLatency) (fun _ => false))
    = (Ok c1,
       WorkloadGen.initial_world default_settings (fun _ => 0)
                                 (fun _ => NoLatency) (fun _ => false)) /\
    ReverseLookupDocument.build_capped (ReverseLookupDocument.init "n1ql")
      "0123456789abcdef" 299 100
      (WorkloadGen.initial_world default_settings (fun _ => 0)
                                 (fun _ => NoLatency) (fun _ => false))
    = (Ok c2,
       WorkloadGen.initial_world default_settings (fun _ => 0)
                                 (fun _ => NoLatency) (fun _ => false)) /\
    (c1 = c2 <-> 205 / 100 = 299 / 100).
Proof.
  split; [reflexivity|].
  apply (capped_value_is_shared_per_block
           (ReverseLookupDocument.init "n1ql") "0123456789abcdef" 205 299 100);
    [reflexivity | lia | lia | lia].
Defined.

(** ** Batches that follow one another *)

Lemma gen_cmd_sequence_creates {sp : Spooky} {dict : Dictionary}
    (self : Worker.t) (w : World) (cmds : list Cmd) (w' : World) :
  KVWorker.gen_cmd_sequence self w = (Ok cmds, w') ->
  WorkloadSettings.creates (Worker.ws self) <> 0 ->
  curr_items w'
  = Py.c_ulong (curr_items w + WorkloadSettings.creates (Worker.ws self)) /\
  keys_of cb_create cmds
  = map (fun n => Key.string (NewOrderedKey.next (Worker.new_keys self) n))
        (Py.range_from (Z.to_nat (WorkloadSettings.creates (Worker.ws self)))
                       (curr_items w) 1).
Proof.
  intros H Hc. unfold KVWorker.gen_cmd_sequence in H.
  unfold bind at 1 in H. rewrite reserve_creates_spec in H. cbv zeta in H.
  apply Z.eqb_neq in Hc. rewrite Hc in H.
  set (w1 := W.set_curr_items _ _) in H.
  unfold bind at 1 in H.
  destruct (KVWorker.reserve_deletes self w1) as [[di|e] w2] eqn:Ed;
    [|discriminate].
  assert (Hc2 : curr_items w2 = curr_items w1).
  { rewrite reserve_deletes_spec in Ed. cbv zeta in Ed.
    destruct (WorkloadSettings.deletes (Worker.ws self) =? 0);
      inversion Ed; subst; wsimpl; reflexivity. }
  unfold bind at 1 in H. unfold KVWorker.random_ops in H.
  destruct (shuffle_Permutation (KVWorker.ops_multiset (Worker.ws self)) w2)
    as (ops & w3 & Es & HP).
  pose proof (preserves_shuffle _ _ _ _ Es) as F3.
  rewrite Es in H.
  apply resolve_ops_spec in H. destruct H as [F4 Hres].
  pose proof (sampling_frame_trans _ _ _ F3 F4) as F.
  destruct F as (_ & _ & Fc & _).
  split.
  - rewrite Fc, Hc2. unfold w1. wsimpl. reflexivity.
  - destruct (Hres cmds eq_refl) as (blocks & -> & _ & Hkc & _).
    pose proof (proj1 (Permutation_count_occ Op_eq_dec _ _) HP) as Hcount.
    destruct (count_ops_multiset (Worker.ws self)) as (HC & _).
    rewrite <- (Hcount OpC), HC in Hkc. cbn [app]. exact Hkc.
Qed.

Lemma new_key_string_inj {sp : Spooky} (g : NewOrderedKey.t) (n1 n2 : Z) :
  (NewOrderedKey.fmtr g =? "hash")%string = false ->
  0 <= n1 -> 0 <= n2 ->
  ((NewOrderedKey.fmtr g =? "hex")%string = true ->
   n1 < MAX_PRIME /\ n2 < MAX_PRIME) ->
  Key.string (NewOrderedKey.next g n1) = Key.string (NewOrderedKey.next g n2) ->
  n1 = n2.
Proof.
  intros Hhash H1 H2 Hhex. unfold Key.string, NewOrderedKey.next.
  cbn [Key.fmtr Key.number Key.prefix]. rewrite Hhash.
  destruct (NewOrderedKey.fmtr g =? "hex")%string.
  - destruct (Hhex eq_refl). apply hex_fmtr_inj; lia.
  - apply decimal_fmtr_inj; assumption.
Qed.

Lemma In_unit_range (k : nat) (start n : Z) :
  In n (Py.range_from k start 1) <-> start <= n < start + Z.of_nat k.
Proof.
  rewrite In_range_from. split.
  - intros (i & Hi & ->). lia.
  - intros Hn. exists (Z.to_nat (n - start)). split; lia.
Qed.

(** Two batches generated one after the other on the shared counters, by
    workers with the same key settings and a formatter other than [hash],
    never create the same key: as long as the item counter stays below
    [2^64] (and, for the [hex] formatter, below [MAX_PRIME]), the
    [creates] keys of the first batch and those of the second are all
    different, the second batch starting where the first one stopped. *)
Theorem consecutive_batches_create_different_keys
    {sp : Spooky} {dict : Dictionary}
    (self1 self2 : Worker.t) (w w1 w2 : World) (cmds1 cmds2 : list Cmd) :
  let c1 := WorkloadSettings.creates (Worker.ws self1) in
  let c2 := WorkloadSettings.creates (Worker.ws self2) in
  let fmtr := NewOrderedKey.fmtr (Worker.new_keys self1) in
  1 <= c1 -> 1 <= c2 ->
  0 <= curr_items w -> curr_items w + c1 + c2 < 2 ^ 64 ->
  Worker.new_keys self2 = Worker.new_keys self1 ->
  (fmtr =? "hash")%string = false ->
  ((fmtr =? "hex")%string = true -> curr_items w + c1 + c2 <= MAX_PRIME) ->
  KVWorker.gen_cmd_sequence self1 w = (Ok cmds1, w1) ->
  KVWorker.gen_cmd_sequence self2 w1 = (Ok cmds2, w2) ->
  curr_items w2 = curr_items w + c1 + c2 /\
  List.length (keys_of cb_create cmds1) = Z.to_nat c1 /\
  List.length (keys_of cb_create cmds2) = Z.to_nat c2 /\
  NoDup (keys_of cb_create cmds1 ++ keys_of cb_create cmds2).
Proof.
  intros c1 c2 fmtr Hc1 Hc2 H0 Hmax Hnk Hhash Hhex G1 G2.
  apply gen_cmd_sequence_creates in G1; [|fold c1; lia].
  apply gen_cmd_sequence_creates in G2; [|fold c2; lia].
  fold c1 in G1. fold c2 in G2.
  destruct G1 as (E1 & K1). destruct G2 as (E2 & K2).
  rewrite c_ulong_small in E1 by lia.
  rewrite E1, c_ulong_small in E2 by lia.
  rewrite E1, Hnk in K2.
  split; [exact E2|].
  split; [rewrite K1, length_map; apply length_range_from|].
  split; [rewrite K2, length_map; apply length_range_from|].
  rewrite K1, K2, <- map_app.
  apply NoDup_map_NoDup_ForallPairs.
  - intros x y Hx Hy H.
    assert (Hb : forall n,
               In n (Py.range_from (Z.to_nat c1) (curr_items w) 1
                     ++ Py.range_from (Z.to_nat c2) (curr_items w + c1) 1) ->
               curr_items w <= n < curr_items w + c1 + c2).
    { intros n Hn. apply in_app_or in Hn.
      destruct Hn as [Hn|Hn]; apply In_unit_range in Hn; lia. }
    apply Hb in Hx. apply Hb in Hy.
    apply new_key_string_inj in H; [exact H|exact Hhash|lia|lia|].
    intros Ehex. specialize (Hhex Ehex). lia.
  - apply NoDup_app.
    + apply NoDup_range_from. lia.
    + apply NoDup_range_from. lia.
    + intros n Hx Hy.
      apply In_unit_range in Hx. apply In_unit_range in Hy. lia.
Qed.

Lemma consecutive_batches_create_different_keys_witness :
  let ws := WorkloadSettings.mk 10 2 2 1 0 0 0 None None 100 100 0 0 Float.zero Float.zero 1
                                "" "string" 8 0 0 in
  let w := WorkloadGen.initial_world ws (replay [0; 1; 4; 7; 2; 3; 5])
                                     (fun _ => NoLatency) (fun _ => false) in
  let self := Worker.mk "kv-worker" ws (TargetSettings.mk "") false 0 None
                (NewOrderedKey.mk "" "") (EKUniform (UniformKey.mk "" ""))
                (KeyForRemoval.mk "" "") (KeyForCASUpdate.mk 1 "" "")
                (DocString (StringDoc.mk 8)) in
  exists cmds1 w1 cmds2 w2,
    @KVWorker.gen_cmd_sequence example_spooky example_dictionary self w
    = (Ok cmds1, w1) /\
    @KVWorker.gen_cmd_sequence example_spooky example_dictionary self w1
    = (Ok cmds2, w2) /\
    curr_items w2 = 14 /\
    NoDup (keys_of cb_create cmds1 ++ keys_of cb_create cmds2).
Proof.
  cbv zeta.
  match goal with
  | |- exists cmds1 w1 cmds2 w2, ?gen = _ /\ _ =>
      assert (H1 : exists cmds1 w1, gen = (Ok cmds1, w1))
        by (do 2 eexists; vm_compute; reflexivity)
  end.
  destruct H1 as (cmds1 & w1 & H1).
  assert (H2 : exists cmds2 w2,
             @KVWorker.gen_cmd_sequence example_spooky example_dictionary
               (Worker.mk "kv-worker"
                  (WorkloadSettings.mk 10 2 2 1 0 0 0 None None 100 100 0 0 Float.zero Float.zero
                                       1 "" "string" 8 0 0)
                  (TargetSettings.mk "") false 0 None
                  (NewOrderedKey.mk "" "") (EKUniform (UniformKey.mk "" ""))
                  (KeyForRemoval.mk "" "") (KeyForCASUpdate.mk 1 "" "")
                  (DocString (StringDoc.mk 8))) w1
             = (Ok cmds2, w2)).
  { pose proof H1 as H1'. vm_compute in H1'. inversion H1'; subst cmds1 w1.
    do 2 eexists. vm_compute. reflexivity. }
  destruct H2 as (cmds2 & w2 & H2).
  exists cmds1, w1, cmds2, w2.
  split; [exact H1|]. split; [exact H2|].
  pose proof (fun a b c d e f g =>
                @consecutive_batches_create_different_keys example_spooky
                  example_dictionary _ _ _ _ _ _ _ a b c d e f g H1 H2) as T.
  cbv zeta in T.
  destruct T as (Hc & _ & _ & Hnd);
    try reflexivity; try (cbn; lia); try (cbn; discriminate).
  split; [exact Hc|exact Hnd].
Defined.
